(** * CMS 2.0 demographic modelling: bootstrap report and frequency bins

    A shallow embedding of
      - [get_bins] and [get_bin_strings]   (cms/dists/freqbins_func.py)
      - [execute_bootstrap]                (cms/cms_modeller.py)
    together with the properties of the bootstrap estimation engine,
    and of
      - [write_bin_paramfile], [run_traj], [check_file_len],
        [check_create_file], [check_bin_filled]
                                           (cms/dists/freqbins_func.py)
      - [execute_target_stats], [execute_point]
                                           (cms/cms_modeller.py)
      - [_moving_avg], [get_os_type], [get_selscan_binary_path],
        [execute_ehh], [execute_ihs], [execute_xpehh]
                                           (cms/tools/selscan.py)
    over a file system of named files and directories, a console and a
    log of the processes that were started.

    Python values are given the static types their use in the source
    implies.  Exceptions are explicit: a computation returns [Ok v] or
    [Raise e].  Python floats are read as exact rationals ([Qc]) where a
    general statement is proved, and as IEEE binary64 numbers
    ([PrimFloat.float]) where a concrete run is evaluated bit for bit.

    [execute_bootstrap] reads names that the module binds nowhere ([i],
    [totalregions], [allRegionPI], [random], [np], ...).  They are kept
    as optional bindings ([globals]): with none of them bound the
    function is the module as it stands, with all of them bound it is
    the computation the statements describe.  The functions it imports
    from [model.bootstrap_func] are parameters ([bootstrap_func]). *)

From Stdlib Require Import QArith Qcanon Reals Qreals Lra Floats Ascii String.
From stdpp Require Import base tactics option list list_numbers numbers strings pretty gmap.

Set Warnings "-inexact-float".
Local Open Scope Z_scope.

(** ** Python exceptions and fallible computations *)

Inductive exn : Type :=
  | NameError (name : string)          (* a name that is bound nowhere *)
  | UnboundLocalError (name : string)  (* a local read before its assignment *)
  | IndexError                         (* list index out of range *)
  | ZeroDivisionError                  (* x / 0 *)
  | TypeError (what : string)
  | ValueError (what : string)
  | Collaborator (what : string).      (* raised inside model.bootstrap_func *)

Inductive result (A : Type) : Type :=
  | Ok (a : A)
  | Raise (e : exn).
Arguments Ok {A} a.
Arguments Raise {A} e.

#[export] Instance exn_eq_dec : EqDecision exn.
Proof. solve_decision. Defined.
#[export] Instance result_eq_dec {A} `{EqDecision A} : EqDecision (result A).
Proof. solve_decision. Defined.

Definition rbind {A B} (r : result A) (k : A -> result B) : result B :=
  match r with
  | Ok a => k a
  | Raise e => Raise e
  end.

Declare Scope py_scope.
Delimit Scope py_scope with py.
Notation "x <-- r ;; k" := (rbind r (fun x => k))
  (at level 100, r at next level, right associativity) : py_scope.
Local Open Scope py_scope.

(** [[f(x) for x in xs]]: the first failing element aborts the comprehension. *)
Fixpoint comprehension {A B} (f : A -> result B) (xs : list A) : result (list B) :=
  match xs with
  | [] => Ok []
  | x :: xs' => y <-- f x ;; ys <-- comprehension f xs' ;; Ok (y :: ys)
  end.

(** [l[i]] for an [int] index: negative indices count from the end. *)
Definition subscript {A} (l : list A) (i : Z) : result A :=
  let n := Z.of_nat (length l) in
  let j := if decide (i < 0) then i + n else i in
  if decide (0 <= j < n)
  then match l !! Z.to_nat j with Some x => Ok x | None => Raise IndexError end
  else Raise IndexError.

(** [range(a, b)] and [range(n)]. *)
Definition range2 (a b : Z) : list Z := seqZ a (b - a).
Definition range (n : Z) : list Z := range2 0 n.

(** [s.split(c)] for a one-character separator: the pieces between the
    separators, always at least one piece. *)
Fixpoint split (c : ascii) (s : string) : list string :=
  match s with
  | EmptyString => [EmptyString]
  | String a s' =>
      if decide (a = c) then EmptyString :: split c s'
      else match split c s' with
           | piece :: pieces => String a piece :: pieces
           | [] => [String a EmptyString]
           end
  end.

Fixpoint has_char (c : ascii) (s : string) : bool :=
  match s with
  | EmptyString => false
  | String a s' => if decide (a = c) then true else has_char c s'
  end.

(** ** Float arithmetic as the source uses it *)

Class PyFloat (F : Type) : Type := {
  fadd : F -> F -> F;
  fsub : F -> F -> F;
  fmul : F -> F -> F;
  fquot : F -> F -> F;          (* the quotient, for a divisor that is not zero *)
  fis_zero : F -> bool;         (* [x == 0.0] *)
  float_of_int : Z -> F         (* [float(n)] *)
}.

(** [a / b] on floats raises when the divisor is zero. *)
Definition truediv {F} `{PyFloat F} (a b : F) : result F :=
  if fis_zero b then Raise ZeroDivisionError else Ok (fquot a b).

(** Exact arithmetic. *)
#[export] Instance Qc_float : PyFloat Qc := {|
  fadd := Qcplus; fsub := Qcminus; fmul := Qcmult; fquot := Qcdiv;
  fis_zero := fun q => bool_decide (q = Q2Qc 0);
  float_of_int := Qc_of_Z |}.

(** IEEE binary64, the arithmetic of CPython's [float]; [float(n)] for an
    integer below 2^63 in absolute value. *)
Definition binary64_of_Z (z : Z) : float :=
  match z with
  | Z0 => PrimFloat.zero
  | Zpos _ => PrimFloat.of_uint63 (Uint63.of_Z z)
  | Zneg p => PrimFloat.opp (PrimFloat.of_uint63 (Uint63.of_Z (Zpos p)))
  end.

#[export] Instance binary64_float : PyFloat float := {|
  fadd := PrimFloat.add; fsub := PrimFloat.sub; fmul := PrimFloat.mul;
  fquot := PrimFloat.div;
  fis_zero := fun x => PrimFloat.eqb x PrimFloat.zero;
  float_of_int := binary64_of_Z |}.

(** A reader for plain decimal literals [ddd.ddd]: the digits as an
    integer, divided by the power of ten.  On such literals with at most
    15 digits it returns what [float(s)] returns (both operands are exact
    and the one division rounds correctly).  *)
Definition digit_of (a : ascii) : option Z :=
  let n := Z.of_nat (nat_of_ascii a) in
  if decide (48 <= n <= 57) then Some (n - 48) else None.

Fixpoint read_digits (s : string) (seen_point : bool) (mant : Z) (frac : Z)
    : option (Z * Z) :=
  match s with
  | EmptyString => Some (mant, frac)
  | String a s' =>
      if decide (a = "."%char) then
        if seen_point then None else read_digits s' true mant frac
      else match digit_of a with
           | Some d => read_digits s' seen_point (10 * mant + d)
                         (if seen_point then frac + 1 else frac)
           | None => None
           end
  end.

Definition decimal_literal {F} `{PyFloat F} (s : string) : option F :=
  if decide (s = EmptyString \/ s = ".") then None
  else match read_digits s false 0 0 with
       | Some (mant, frac) => Some (fquot (float_of_int mant) (float_of_int (10 ^ frac)))
       | None => None
       end.

(** ** cms/dists/freqbins_func.py *)

Section freqbins.
Context {F : Type} `{PyFloat F}.
(** [float(s)] on a string, and the ["%.2f" % a] formatter, are Python's. *)
Variable float_of_str : string -> option F.
Variable format_2f : F -> string.

Definition parse_float (s : string) : result F :=
  match float_of_str s with
  | Some x => Ok x
  | None => Raise (ValueError "could not convert string to float")
  end.

Definition get_bin_strings (bin_medians : list F) : list string :=
  let bin_medians_rewritten := map format_2f bin_medians in
  bin_medians_rewritten.

Record bins : Type := Bins {
  fullrange : list F;
  bin_starts : list F;
  bin_ends : list F;
  bin_medians : list F;
  bin_medians_str : list string
}.

Definition get_bins (freqRange : string) (numbins : Z) : result bins :=
  fullrange <-- comprehension parse_float (split "-" freqRange) ;;
  hi <-- subscript fullrange 1 ;;
  lo <-- subscript fullrange 0 ;;
  binlen <-- truediv (fsub hi lo) (float_of_int numbins) ;;
  bin_starts <-- comprehension
    (fun i => lo <-- subscript fullrange 0 ;; Ok (fadd lo (fmul binlen (float_of_int i))))
    (range numbins) ;;
  bin_ends <-- comprehension
    (fun i => lo <-- subscript fullrange 0 ;; Ok (fadd lo (fmul binlen (float_of_int i))))
    (range2 1 (numbins + 1)) ;;
  bin_medians <-- comprehension
    (fun i => s <-- subscript bin_starts i ;; e <-- subscript bin_ends i ;;
              truediv (fadd s e) (float_of_int 2))
    (range (Z.of_nat (length bin_starts))) ;;
  let bin_medians_str := get_bin_strings bin_medians in
  Ok (Bins fullrange bin_starts bin_ends bin_medians bin_medians_str).
End freqbins.

Arguments Bins {F} _ _ _ _ _.
Arguments fullrange {F} _.
Arguments bin_starts {F} _.
Arguments bin_ends {F} _.
Arguments bin_medians {F} _.
Arguments bin_medians_str {F} _.


(** The default arguments of [get_bins]. *)
Definition default_freqRange : string := ".05-.95".
Definition default_numbins : Z := 9.

(** *** Equal-width bins, in the words of the specification *)

(** [numbins] contiguous equal-width bins that tile [[lo, hi]]. *)
Definition tiles {F} `{PyFloat F} (lo hi : F) (numbins : Z) (b : bins) : Prop :=
  length (bin_starts b) = Z.to_nat numbins /\
  length (bin_ends b) = Z.to_nat numbins /\
  length (bin_medians b) = Z.to_nat numbins /\
  bin_starts b !! 0%nat = Some lo /\
  (forall i s e, bin_starts b !! i = Some s -> bin_ends b !! i = Some e ->
     e = fadd s (fquot (fsub hi lo) (float_of_int numbins))) /\
  (forall i, (Z.of_nat i < numbins - 1)%Z ->
     bin_starts b !! S i = bin_ends b !! i) /\
  (forall i s e, bin_starts b !! i = Some s -> bin_ends b !! i = Some e ->
     bin_medians b !! i = Some (fquot (fadd s e) (float_of_int 2))).

(** The edge [lo + binlen*i] as the source computes it. *)
Definition edge {F} `{PyFloat F} (lo binlen : F) (i : Z) : F :=
  fadd lo (fmul binlen (float_of_int i)).

(** The labels of the bins play no part in the tiling. *)
Definition no_label {F} (x : F) : string := EmptyString.


(** ** cms/cms_modeller.py: the world [execute_bootstrap] runs in *)

(** The fields of the report.  The label is a ghost: the file holds the
    strings only, in the order they were written. *)
Inductive field : Type :=
  | IndexLine
  | PiMean | PiSE
  | SfsMean | SfsSE | AncMean | AncSE
  | R2Mean | R2SE | DprimeMean | DprimeSE
  | FstLine.

Inductive family : Type := Freqs | LD | Fst.
#[export] Instance family_eq_dec : EqDecision family.
Proof. solve_decision. Defined.

Definition family_of (f : field) : option family :=
  match f with
  | IndexLine => None
  | PiMean | PiSE | SfsMean | SfsSE | AncMean | AncSE => Some Freqs
  | R2Mean | R2SE | DprimeMean | DprimeSE => Some LD
  | FstLine => Some Fst
  end.

(** What lies outside the report file: the console, the state of the
    random generator (how many numbers were drawn) and the input files
    that were asked for. *)
Record ext : Type := Ext {
  stdout : list string;
  draws : nat;
  opened : list string
}.

Record world : Type := World {
  report : list (field * string);   (* oldest write first *)
  outside : ext
}.

(** Collaborator code may raise and may touch what is outside; it has no
    handle on the report file. *)
Definition C (A : Type) : Type := ext -> result A * ext.

(** The function itself runs in the whole world.  [OutOfFuel] is not a
    Python outcome: the step budget the model gives a [while] loop ran
    out ([execute_bootstrap_halts] shows when it cannot). *)
Inductive outcome (A : Type) : Type :=
  | Finished (r : result A)
  | OutOfFuel.
Arguments Finished {A} r.
Arguments OutOfFuel {A}.

Definition M (A : Type) : Type := world -> outcome A * world.

Definition mret {A} (a : A) : M A := fun w => (Finished (Ok a), w).
Definition mbind {A B} (m : M A) (k : A -> M B) : M B :=
  fun w => match m w with
           | (Finished (Ok a), w') => k a w'
           | (Finished (Raise e), w') => (Finished (Raise e), w')
           | (OutOfFuel, w') => (OutOfFuel, w')
           end.
Definition raise {A} (e : exn) : M A := fun w => (Finished (Raise e), w).
Definition lift {A} (r : result A) : M A := fun w => (Finished r, w).
Definition call {A} (c : C A) : M A :=
  fun w => let '(r, e) := c (outside w) in (Finished r, World (report w) e).

Notation "x <~ m ;; k" := (mbind m (fun x => k))
  (at level 100, m at next level, right associativity) : py_scope.
Notation "m ;> k" := (mbind m (fun _ => k))
  (at level 100, right associativity) : py_scope.

(** [writefile.write(s)] *)
Definition write (f : field) (s : string) : M unit :=
  fun w => (Finished (Ok tt), World (report w ++ [(f, s)]) (outside w)).

(** [open(name, 'w')]: the file starts empty. *)
Definition open_w : M unit := fun w => (Finished (Ok tt), World [] (outside w)).

(** [print(s)] *)
Definition print (s : string) : M unit :=
  fun w => let e := outside w in
           (Finished (Ok tt),
            World (report w) (Ext (stdout e ++ [s]) (draws e) (opened e))).

(** [for x in xs: body], with the locals the body assigns threaded as [s]. *)
Fixpoint for_each {A S} (xs : list A) (body : A -> S -> M S) (s : S) : M S :=
  match xs with
  | [] => mret s
  | x :: xs' => s' <~ body x s ;; for_each xs' body s'
  end.

(** [while cond: body] *)
Fixpoint while {S} (fuel : nat) (cond : S -> M bool) (body : S -> M S) (s : S) : M S :=
  match fuel with
  | O => fun w => (OutOfFuel, w)
  | S fuel' =>
      b <~ cond s ;;
      if b then s' <~ body s ;; while fuel' cond body s' else mret s
  end.

(** A free name of the function, resolved in the module's globals. *)
Definition global {A} (name : string) (binding : option A) : M A :=
  match binding with
  | Some v => mret v
  | None => raise (NameError name)
  end.

(** A local of the function that only some paths assign. *)
Definition local {A} (name : string) (binding : option A) : M A :=
  match binding with
  | Some v => mret v
  | None => raise (UnboundLocalError name)
  end.

(** ** Numbers and their text *)

Definition nl : string := String (ascii_of_nat 10) EmptyString.
Definition tab : string := String (ascii_of_nat 9) EmptyString.
Definition prefixstring : string := "{CMS2.0}>>" +:+ tab +:+ tab.

(** A standard deviation is kept exactly, as the square root of a
    rational; [NaN] is what numpy returns for an empty sample. *)
Inductive stdval : Type :=
  | NaN
  | Sqrt (radicand : Qc).

#[export] Instance stdval_eq_dec : EqDecision stdval.
Proof. solve_decision. Defined.

(** The real number a standard deviation stands for. *)
Definition real_value (v : stdval) : option R :=
  match v with
  | NaN => None
  | Sqrt q => Some (R_sqrt.sqrt (Q2R q))
  end.

Definition qsum (l : list Qc) : Qc := foldr Qcplus (Q2Qc 0) l.
Definition zsum (l : list Z) : Z := foldr Z.add 0 l.
Definition qmean (l : list Qc) : Qc := (qsum l / Qc_of_Z (Z.of_nat (length l)))%Qc.
Definition sq_dev (l : list Qc) : Qc :=
  qsum (map (fun x => ((x - qmean l) * (x - qmean l))%Qc) l).

(** [np.std(l)]: numpy's default, the square root of the mean squared
    deviation (divisor [len(l)], [ddof=0]). *)
Definition np_std (l : list Qc) : stdval :=
  match l with
  | [] => NaN
  | _ => Sqrt (sq_dev l / Qc_of_Z (Z.of_nat (length l)))%Qc
  end.

(** The sample standard deviation in the words of the specification:
    the divisor is one less than the number of values, and fewer than two
    values leave it undefined. *)
Definition sample_std (l : list Qc) : stdval :=
  match l with
  | [] | [_] => NaN
  | _ => Sqrt (sq_dev l / Qc_of_Z (Z.of_nat (length l) - 1))%Qc
  end.

(** [str] and [repr].  Those of floats and of numpy floats are Python's. *)
Class PyStr (A : Type) : Type := { str : A -> string; repr : A -> string }.

#[export] Instance int_str : PyStr Z := {| str := pretty; repr := pretty |}.

Fixpoint join (sep : string) (l : list string) : string :=
  match l with
  | [] => EmptyString
  | [x] => x
  | x :: l' => x +:+ sep +:+ join sep l'
  end.

Definition list_text {A} `{PyStr A} (l : list A) : string :=
  "[" +:+ join ", " (map repr l) +:+ "]".
#[export] Instance list_str {A} `{PyStr A} : PyStr (list A) :=
  {| str := list_text; repr := list_text |}.

(** An argument that is a list of regions or a list of values. *)
Inductive sample (A : Type) : Type :=
  | Regions (l : list (list A))
  | Values (l : list A).
Arguments Regions {A} l.
Arguments Values {A} l.

(** ** The names [execute_bootstrap] uses *)

(** The free names of the function body.  The module binds none of them
    ([module_globals]); a binding is what a caller's namespace would have
    to supply for the statement that reads the name to run. *)
Record globals : Type := Globals {
  g_i : option Z;
  g_nsnps : option Z;
  g_totalregions : option Z;
  g_allRegionPI : option (list Qc);
  g_allseqlens : option (list Z);
  g_allRegionDER : option (list (list Z));
  g_allRegionANC : option (list (list Z));
  g_nhist : option Z;
  g_random : option (nat -> Z);      (* the stream behind [random.randint] *)
  g_np : option unit;                (* numpy *)
  g_ldfilename : option string;
  g_mafcutoffdprime : option Qc;
  g_allRegionr2 : option (list (list Qc));
  g_allRegionDists : option (list (list Qc));
  g_nphysdisthist : option Z;
  g_allRegionDprime : option (list (list Qc));
  g_allRegionGendists : option (list (list Qc));
  g_ngendisthist : option Z
}.

Definition module_globals : globals :=
  Globals None None None None None None None None None None
          None None None None None None None None.

(** What the readers of [model.bootstrap_func] return. *)
Record freqs_file : Type := FreqsFile {
  allpi : list Qc; allnderiv : list (list Z); allnanc : list (list Z);
  nregions : Z; seqlens : list Z
}.
Record ld_file : Type := LdFile {
  alldists : list Qc; allr2 : list Qc; allgendists : list Qc; alldprime : list Qc;
  nr2regions : Z; ndprimeregions : Z
}.

(** The functions imported from [model.bootstrap_func]. *)
Record bootstrap_func : Type := BootstrapFunc {
  checkFileExists : string -> C bool;
  readFreqsFile : string -> C freqs_file;
  readLDFile : string -> Qc -> C ld_file;
  readFstFile : string -> C (list Qc * Z);
  estimatePi : list Qc -> list Z -> result Qc;
  estimateFreqSpectrum : sample Z -> sample Z -> Z -> result (list Z * list Qc);
  estimater2decay : sample Qc -> sample Qc -> result (list Qc * list Z);
  estimatedprimedecay : sample Qc -> sample Qc -> result (list Qc * list Z);
  estimateFstByBootstrap_bysnp : list Qc -> Z -> C (Qc * stdval)
}.

(** Modelled from the spec: [flattenList] of [model.bootstrap_func], the
    flattened view of the regions: one concatenated sequence across all
    regions, in the original order, region boundaries dropped. *)
Definition flattenList {A} (regions : list (list A)) : list A := concat regions.

(** [random.randint(a, b)]: an integer in [[a, b]], both ends included. *)
Definition randint (rng : nat -> Z) (a b : Z) : M Z :=
  fun w =>
    if decide (b < a)
    then (Finished (Raise (ValueError "empty range for randrange()")), w)
    else let e := outside w in
         (Finished (Ok (a + rng (draws e) mod (b - a + 1))),
          World (report w) (Ext (stdout e) (S (draws e)) (opened e))).

(** The parsed command line of the [bootstrap] sub-command. *)
Record Args : Type := MkArgs {
  nBootstrapReps : Z;
  in_freqs : option string;
  in_ld : option string;
  in_fst : option string;
  out : string
}.


(** ** cms/cms_modeller.py: [execute_bootstrap] *)

Definition len {A} (l : list A) : Z := Z.of_nat (length l).

(** [len(n)] for an [int] [n]. *)
Definition len_of_int (n : Z) : M Z :=
  raise (TypeError "object of type 'int' has no len()").

(** [''.join(s)] for a string [s] joins its characters: [s] again. *)
Definition join_chars (s : string) : string := s.

(** A pure loop [for x in xs: body]. *)
Fixpoint rfold {A S} (xs : list A) (body : A -> S -> result S) (s : S) : result S :=
  match xs with
  | [] => Ok s
  | x :: xs' => s' <-- body x s ;; rfold xs' body s'
  end.

(** [[float(x)/npoly for x in mafhist]] with [npoly = sum(mafhist)]
    (lines 145-146 and 162-163). *)
Definition sfs_proportions (mafhist : list Z) : result (list Qc) :=
  let npoly := zsum mafhist in
  comprehension (fun x => truediv (float_of_int x) (float_of_int npoly)) mafhist.

(** [[sums[u]/float(counts[u]) for u in idx]] (lines 147, 166, 195, 217,
    233 and 255). *)
Definition ratios (sums : list Qc) (counts : list Z) (idx : list Z) : result (list Qc) :=
  comprehension
    (fun u => a <-- subscript sums u ;; c <-- subscript counts u ;;
              truediv a (float_of_int c))
    idx.

(** One bin of [ratios]. *)
Definition ratio (ac : Qc * Z) : result Qc := truediv ac.1 (float_of_int ac.2).

(** [for ibin in range(len(hist)): if hist[ibin] == 0: hist[ibin] = 1]
    (lines 214-216, 229-231 and 252-254). *)
Definition pseudocount (hist : list Z) : list Z :=
  map (fun c => if decide (c = 0) then 1 else c) hist.

(** [for ibin in range(nbins): table[ibin].append(values[ibin])]
    (lines 164-165, 167-168, 218-219 and 256-257). *)
Definition record_bins (table : list (list Qc)) (values : list Qc) (nbins : Z)
    : result (list (list Qc)) :=
  rfold (range nbins)
    (fun ibin table =>
       bin <-- subscript table ibin ;;
       v <-- subscript values ibin ;;
       Ok (<[Z.to_nat ibin := bin ++ [v]]> table))
    table.

(** [[[] for i in range(n)]] *)
Definition empty_bins (n : Z) : list (list Qc) := replicate (Z.to_nat n) [].

Section execute_bootstrap.
Context (BF : bootstrap_func) (G : globals).
Context {float_str : PyStr Qc} {std_str : PyStr stdval}.
Variable fuel : nat.
Variable nbootstraprep : Z.

(** [[np.std(x) for x in estimates]] *)
Definition std_of_bins (estimates : list (list Qc)) : M (list stdval) :=
  for_each estimates
    (fun x acc => _ <~ global "np" (g_np G) ;; mret (acc ++ [np_std x])) [].

(** Lines 131-135: one resample of the regions. *)
Definition resample_regions : M (list Qc * list Z) :=
  totalregions <~ global "totalregions" (g_totalregions G) ;;
  for_each (range totalregions)
    (fun k rep =>
       random <~ global "random" (g_random G) ;;
       totalregions <~ global "totalregions" (g_totalregions G) ;;
       index <~ randint random 0 (totalregions - 1) ;;
       allRegionPI <~ global "allRegionPI" (g_allRegionPI G) ;;
       x <~ lift (subscript allRegionPI index) ;;
       allseqlens <~ global "allseqlens" (g_allseqlens G) ;;
       y <~ lift (subscript allseqlens index) ;;
       mret (rep.1 ++ [x], rep.2 ++ [y]))
    ([], []).

(** Lines 127-139: the mean of pi, its replicates, its standard error. *)
Definition pi_block : M (Qc * list Qc * stdval) :=
  allRegionPI <~ global "allRegionPI" (g_allRegionPI G) ;;
  allseqlens <~ global "allseqlens" (g_allseqlens G) ;;
  pi_mean <~ lift (estimatePi BF allRegionPI allseqlens) ;;
  write PiMean (str pi_mean +:+ tab) ;>
  estimates <~ for_each (range nbootstraprep)
    (fun j estimates =>
       rep <~ resample_regions ;;
       rep_pi_mean <~ lift (estimatePi BF rep.1 rep.2) ;;
       mret (estimates ++ [rep_pi_mean]))
    [] ;;
  _ <~ global "np" (g_np G) ;;
  let pi_se := np_std estimates in
  write PiSE (str pi_se +:+ nl) ;>
  mret (pi_mean, estimates, pi_se).

(** Lines 154-160: one resample of the sites. *)
Definition resample_sites : M (list Z * list Z) :=
  allRegionANC <~ global "allRegionANC" (g_allRegionANC G) ;;
  let flatanc := flattenList allRegionANC in
  allRegionDER <~ global "allRegionDER" (g_allRegionDER G) ;;
  let flatder := flattenList allRegionDER in
  nsnps <~ global "nsnps" (g_nsnps G) ;;
  for_each (range nsnps)
    (fun w rep =>
       random <~ global "random" (g_random G) ;;
       nsnps <~ global "nsnps" (g_nsnps G) ;;
       index <~ randint random 0 (nsnps - 1) ;;
       d <~ lift (subscript flatder index) ;;
       a <~ lift (subscript flatanc index) ;;
       mret (rep.1 ++ [d], rep.2 ++ [a]))
    ([], []).

Record sfs_result : Type := SfsResult {
  sfs_mean : list Qc; sfs_table : list (list Qc); sfs_se : list stdval;
  anc_mean : list Qc; anc_table : list (list Qc); anc_se : list stdval
}.

(** Lines 144-175: the frequency spectrum and the ancestral proportions. *)
Definition sfs_block : M sfs_result :=
  allRegionDER <~ global "allRegionDER" (g_allRegionDER G) ;;
  allRegionANC <~ global "allRegionANC" (g_allRegionANC G) ;;
  nhist <~ global "nhist" (g_nhist G) ;;
  hists <~ lift (estimateFreqSpectrum BF (Regions allRegionDER) (Regions allRegionANC) nhist) ;;
  let mafhist := hists.1 in
  let anchist := hists.2 in
  sfs_mean <~ lift (sfs_proportions mafhist) ;;
  anc_mean <~ lift (ratios anchist mafhist (range (len mafhist))) ;;
  nhist <~ global "nhist" (g_nhist G) ;;
  tables <~ for_each (range nbootstraprep)
    (fun j tables =>
       rep <~ resample_sites ;;
       nhist <~ global "nhist" (g_nhist G) ;;
       rephists <~ lift (estimateFreqSpectrum BF (Values rep.1) (Values rep.2) nhist) ;;
       let repmafhist := rephists.1 in
       let repanchist := rephists.2 in
       repsfs <~ lift (sfs_proportions repmafhist) ;;
       estimates_sfs <~ lift (record_bins tables.1 repsfs nhist) ;;
       repanc <~ lift (ratios repanchist repmafhist (range nhist)) ;;
       estimates_anc <~ lift (record_bins tables.2 repanc nhist) ;;
       mret (estimates_sfs, estimates_anc))
    (empty_bins nhist, empty_bins nhist) ;;
  sfs_se <~ std_of_bins tables.1 ;;
  anc_se <~ std_of_bins tables.2 ;;
  write SfsMean (str sfs_mean +:+ nl) ;>
  write SfsSE (str sfs_se +:+ nl) ;>
  write AncMean (str anc_mean +:+ nl) ;>
  write AncSE (str anc_se +:+ nl) ;>
  mret (SfsResult sfs_mean tables.1 sfs_se anc_mean tables.2 anc_se).

(** Lines 116-175: one population of the frequency statistics. *)
Definition freq_population (inputfilenames : list string) (ipop : Z) : M unit :=
  i <~ global "i" (g_i G) ;;
  inputfilename <~ lift (subscript inputfilenames i) ;;
  print (prefixstring +:+ "reading allele frequency statistics from: " +:+ inputfilename) ;>
  write IndexLine (str ipop +:+ nl) ;>
  exists_ <~ call (checkFileExists BF inputfilename) ;;
  (if exists_ : bool
   then _ <~ call (readFreqsFile BF inputfilename) ;; mret tt
   else mret tt) ;>
  nsnps <~ global "nsnps" (g_nsnps G) ;;
  totalregions <~ global "totalregions" (g_totalregions G) ;;
  print (prefixstring +:+ "TOTAL: logged frequency values for " +:+ str nsnps
         +:+ " SNPS across " +:+ str totalregions +:+ "." +:+ nl) ;>
  _ <~ pi_block ;;
  _ <~ sfs_block ;;
  mret tt.

(** Lines 203-210 and 241-249: one resample of the site pairs. *)
Definition resample_pairs (name_values name_dists : string)
    (values dists : option (list (list Qc))) : M (list Qc * list Qc) :=
  allvalues <~ global name_values values ;;
  let flatr2 := flattenList allvalues in
  alldists <~ global name_dists dists ;;
  let flatregions := flattenList alldists in
  let nsnppairs := len flatr2 in
  for_each (range nsnppairs)
    (fun w rep =>
       random <~ global "random" (g_random G) ;;
       index_r2 <~ randint random 0 (nsnppairs - 1) ;;
       x <~ lift (subscript flatr2 index_r2) ;;
       y <~ lift (subscript flatregions index_r2) ;;
       mret (rep.1 ++ [x], rep.2 ++ [y]))
    ([], []).

(** The guard of the two [while] loops: [len(estimates[0]) < nbootstraprep]. *)
Definition more_replicates (estimates : list (list Qc)) : M bool :=
  first <~ lift (subscript estimates 0) ;;
  mret (bool_decide (len first < nbootstraprep)).

(** Lines 194-222: the decay of r2 with physical distance. *)
Definition r2_block : M (list Qc * list (list Qc) * list stdval) :=
  allRegionr2 <~ global "allRegionr2" (g_allRegionr2 G) ;;
  allRegionDists <~ global "allRegionDists" (g_allRegionDists G) ;;
  hists <~ lift (estimater2decay BF (Regions allRegionr2) (Regions allRegionDists)) ;;
  let r2sums := hists.1 in
  let physDistHist := hists.2 in
  r2dist <~ lift (ratios r2sums physDistHist (range (len r2sums))) ;;
  write R2Mean (str r2dist +:+ nl) ;>
  nphysdisthist <~ global "nphysdisthist" (g_nphysdisthist G) ;;
  estimates_r2 <~ while fuel more_replicates
    (fun estimates_r2 =>
       rep <~ resample_pairs "allRegionr2" "allRegionDists"
                (g_allRegionr2 G) (g_allRegionDists G) ;;
       rephists <~ lift (estimater2decay BF (Values rep.1) (Values rep.2)) ;;
       let repr2sum := rephists.1 in
       let repphysdisthist := pseudocount rephists.2 in
       r2estimate <~ lift (ratios repr2sum repphysdisthist (range (len repr2sum))) ;;
       nphysdisthist <~ global "nphysdisthist" (g_nphysdisthist G) ;;
       lift (record_bins estimates_r2 r2estimate nphysdisthist))
    (empty_bins nphysdisthist) ;;
  r2_se <~ std_of_bins estimates_r2 ;;
  write R2SE (str r2_se +:+ nl) ;>
  mret (r2dist, estimates_r2, r2_se).

(** Lines 227-259: the decay of D' with genetic distance. *)
Definition dprime_block : M (list Qc * list (list Qc) * list stdval) :=
  allRegionDprime <~ global "allRegionDprime" (g_allRegionDprime G) ;;
  allRegionGendists <~ global "allRegionGendists" (g_allRegionGendists G) ;;
  hists <~ lift (estimatedprimedecay BF (Regions allRegionDprime) (Regions allRegionGendists)) ;;
  let compLDhist := hists.1 in
  let genDistHist := pseudocount hists.2 in
  dprimedist <~ lift (ratios compLDhist genDistHist (range (len compLDhist))) ;;
  write DprimeMean (str dprimedist +:+ nl) ;>
  ngendisthist <~ global "ngendisthist" (g_ngendisthist G) ;;
  estimates_dprime <~ while fuel more_replicates
    (fun estimates_dprime =>
       rep <~ resample_pairs "allRegionDprime" "allRegionGendists"
                (g_allRegionDprime G) (g_allRegionGendists G) ;;
       rephists <~ lift (estimatedprimedecay BF (Values rep.1) (Values rep.2)) ;;
       let repcompLDhist := rephists.1 in
       let repgenDistHist := pseudocount rephists.2 in
       ngendisthist <~ global "ngendisthist" (g_ngendisthist G) ;;
       dprimeestimate <~ lift (ratios repcompLDhist repgenDistHist (range ngendisthist)) ;;
       ngendisthist <~ global "ngendisthist" (g_ngendisthist G) ;;
       lift (record_bins estimates_dprime dprimeestimate ngendisthist))
    (empty_bins ngendisthist) ;;
  dprime_se <~ std_of_bins estimates_dprime ;;
  write DprimeSE (str dprime_se +:+ nl) ;>
  mret (dprimedist, estimates_dprime, dprime_se).

(** Lines 184-259: one population of the LD statistics. *)
Definition ld_population (inputfilenames : list string) (ipop : Z) : M unit :=
  i <~ global "i" (g_i G) ;;
  inputfilename <~ lift (subscript inputfilenames i) ;;
  print (prefixstring +:+ "reading linkage disequilibrium statistics from: "
         +:+ inputfilename) ;>
  write IndexLine (str ipop +:+ nl) ;>
  ldfilename <~ global "ldfilename" (g_ldfilename G) ;;
  mafcutoffdprime <~ global "mafcutoffdprime" (g_mafcutoffdprime G) ;;
  f <~ call (readLDFile BF ldfilename mafcutoffdprime) ;;
  print (prefixstring +:+ "TOTAL: logged r2 values for " +:+ str (allr2 f)
         +:+ " SNP pairs." +:+ nl +:+ tab +:+ "logged D' values for "
         +:+ str (alldprime f) +:+ " SNP pairs." +:+ nl) ;>
  _ <~ r2_block ;;
  _ <~ dprime_block ;;
  mret tt.

(** Lines 269-276: one population pair of Fst.  [allfst] is a local
    that only the branch of an existing file assigns. *)
Definition fst_comparison (inputfilenames : list string) (icomp : Z)
    (allfst : option (list Qc)) : M (option (list Qc)) :=
  fstfilename <~ lift (subscript inputfilenames icomp) ;;
  print (prefixstring +:+ "reading Fst values from: " +:+ fstfilename) ;>
  exists_ <~ call (checkFileExists BF fstfilename) ;;
  allfst <~ (if exists_ : bool
             then f <~ call (readFstFile BF fstfilename) ;; mret (Some f.1)
             else mret allfst) ;;
  values <~ local "allfst" allfst ;;
  target <~ call (estimateFstByBootstrap_bysnp BF values nbootstraprep) ;;
  let writeline := str icomp +:+ tab +:+ str target.1 +:+ tab +:+ str target.2 +:+ nl in
  write FstLine writeline ;>
  print (prefixstring +:+ "TOTAL: logged Fst values for " +:+ str (len values)
         +:+ " SNPs." +:+ nl) ;>
  mret allfst.

(** Lines 112-175. *)
Definition freq_section (in_freqs : string) : M unit :=
  let inputestimatefilenames := join_chars in_freqs in
  let inputfilenames := split "," inputestimatefilenames in
  let npops := len inputfilenames in
  for_each (range npops) (fun ipop _ => freq_population inputfilenames ipop) tt.

(** Lines 180-259. *)
Definition ld_section (in_ld : string) : M unit :=
  let inputestimatefilenames := join_chars in_ld in
  let inputfilenames := split "," inputestimatefilenames in
  let npops := len inputfilenames in
  for_each (range npops) (fun ipop _ => ld_population inputfilenames ipop) tt.

(** Lines 264-276. *)
Definition fst_section (in_fst : string) : M unit :=
  let inputestimatefilenames := join_chars in_fst in
  let inputfilenames := split "," inputestimatefilenames in
  let npopcomp := len inputfilenames in
  n <~ len_of_int npopcomp ;;
  _ <~ for_each (range n) (fun icomp allfst => fst_comparison inputfilenames icomp allfst) None ;;
  mret tt.
End execute_bootstrap.

Arguments SfsResult _ _ _ _ _ _ : clear implicits.

Section execute_bootstrap_top.
Context (BF : bootstrap_func) (G : globals).
Context {float_str : PyStr Qc} {std_str : PyStr stdval}.
Variable fuel : nat.

Definition targetstats_filename (args : Args) : string :=
  out args +:+ "_bootstrap_n" +:+ str (nBootstrapReps args) +:+ ".txt".

Definition when_given (arg : option string) (section : string -> M unit) : M unit :=
  match arg with
  | Some s => section s
  | None => mret tt
  end.

Definition execute_bootstrap (args : Args) : M unit :=
  let nbootstraprep := nBootstrapReps args in
  print (prefixstring +:+ "running " +:+ str nbootstraprep
         +:+ " bootstrap estimates of summary statistics...") ;>
  open_w ;>
  when_given (in_freqs args) (freq_section BF G nbootstraprep) ;>
  when_given (in_ld args) (ld_section BF G fuel nbootstraprep) ;>
  when_given (in_fst args) (fst_section BF nbootstraprep) ;>
  print (prefixstring +:+ "wrote to file: " +:+ targetstats_filename args).
End execute_bootstrap_top.

(** The statistics whose standard error [execute_bootstrap] computes
    itself (that of Fst is computed inside [estimateFstByBootstrap_bysnp]). *)
Inductive statistic : Type := Pi | Sfs | Anc | R2 | Dprime.

(** For a statistic, the replicate values that were recorded for each of
    its bins (one bin for a scalar) and the standard errors reported. *)
Definition replicates_and_se (BF : bootstrap_func) (G : globals)
    {float_str : PyStr Qc} {std_str : PyStr stdval}
    (fuel : nat) (nbootstraprep : Z) (st : statistic)
    : M (list (list Qc) * list stdval) :=
  match st with
  | Pi => r <~ pi_block BF G nbootstraprep ;; mret ([r.1.2], [r.2])
  | Sfs => r <~ sfs_block BF G nbootstraprep ;; mret (sfs_table r, sfs_se r)
  | Anc => r <~ sfs_block BF G nbootstraprep ;; mret (anc_table r, anc_se r)
  | R2 => r <~ r2_block BF G fuel nbootstraprep ;; mret (r.1.2, r.2)
  | Dprime => r <~ dprime_block BF G fuel nbootstraprep ;; mret (r.1.2, r.2)
  end.

(** The body of the three resampling loops once the names are resolved:
    draw one index, copy that element of both sequences. *)
Definition pick_pair {A B} (rng : nat -> Z) (n : Z) (pop1 : list A) (pop2 : list B)
    (rep : list A * list B) : M (list A * list B) :=
  index <~ randint rng 0 (n - 1) ;;
  x <~ lift (subscript pop1 index) ;;
  y <~ lift (subscript pop2 index) ;;
  mret (rep.1 ++ [x], rep.2 ++ [y]).

(** The size of one resample of the population of a statistic. *)
Definition resample_size (G : globals) (st : statistic) : M nat :=
  match st with
  | Pi => rep <~ resample_regions G ;; mret (length rep.1)
  | Sfs | Anc => rep <~ resample_sites G ;; mret (length rep.1)
  | R2 => rep <~ resample_pairs G "allRegionr2" "allRegionDists"
                   (g_allRegionr2 G) (g_allRegionDists G) ;;
          mret (length rep.1)
  | Dprime => rep <~ resample_pairs G "allRegionDprime" "allRegionGendists"
                       (g_allRegionDprime G) (g_allRegionGendists G) ;;
              mret (length rep.1)
  end.

(** [w] after [n] more random numbers were drawn, nothing else changed. *)
Definition after_draws (n : nat) (w : world) : world :=
  World (report w)
        (Ext (stdout (outside w)) (draws (outside w) + n) (opened (outside w))).

(** A table of [nbins] bins with [n] replicate values in each. *)
Definition filled (nbins : Z) (n : nat) (table : list (list Qc)) : Prop :=
  length table = Z.to_nat nbins /\ Forall (fun bin => length bin = n) table.

(** ** The layout of the report *)

(** What a chunk of the report has to be: its field and its text. *)
Definition chunk_spec : Type := field * (string -> Prop).

Definition matches (new : list (field * string)) (spec : list chunk_spec) : Prop :=
  Forall2 (fun chunk sp => chunk.1 = sp.1 /\ sp.2 chunk.2) new spec.

(** [m] only appends to the report; what it appends is a beginning of
    [spec], and all of [spec] when [m] returns. *)
Definition emits {A} (m : M A) (spec : list chunk_spec) : Prop :=
  forall w, exists new,
    report (m w).2 = report w ++ new
    /\ (exists written rest, spec = written ++ rest /\ matches new written)
    /\ (forall a, (m w).1 = Finished (Ok a) -> matches new spec).

(** [m] does not run out of fuel. *)
Definition halts {A} (m : M A) : Prop := forall w, (m w).1 <> OutOfFuel.

(** [m] leaves the report as it is. *)
Definition quiet {A} (m : M A) : Prop := emits m [].

(** The text [str(v) + sep] of some value of type [A]. *)
Definition text_of (A : Type) `{PyStr A} (sep : string) : string -> Prop :=
  fun s => exists v : A, s = str v +:+ sep.

Section layout.
Context {float_str : PyStr Qc} {std_str : PyStr stdval}.

(** The lines of one population of the frequency statistics: the index,
    the diversity mean and standard error on one line, then the vectors. *)
Definition freq_layout (ipop : Z) : list chunk_spec :=
  [ (IndexLine, fun s => s = str ipop +:+ nl);
    (PiMean, text_of Qc tab);
    (PiSE, text_of stdval nl);
    (SfsMean, text_of (list Qc) nl);
    (SfsSE, text_of (list stdval) nl);
    (AncMean, text_of (list Qc) nl);
    (AncSE, text_of (list stdval) nl) ].

(** The lines of one population of the LD statistics. *)
Definition ld_layout (ipop : Z) : list chunk_spec :=
  [ (IndexLine, fun s => s = str ipop +:+ nl);
    (R2Mean, text_of (list Qc) nl);
    (R2SE, text_of (list stdval) nl);
    (DprimeMean, text_of (list Qc) nl);
    (DprimeSE, text_of (list stdval) nl) ].

(** A section: the populations 0, 1, ... of the comma-separated list. *)
Definition section_layout (layout : Z -> list chunk_spec) (arg : option string)
    : list chunk_spec :=
  match arg with
  | Some s => concat (map layout (range (len (split "," (join_chars s)))))
  | None => []
  end.

(** The frequency section, then the LD section. *)
Definition report_layout (args : Args) : list chunk_spec :=
  section_layout freq_layout (in_freqs args) ++ section_layout ld_layout (in_ld args).
End layout.

(** The families of the statistics in the order their first lines are in
    the report. *)
Fixpoint families_in_order (fields : list field) (seen : list family) : list family :=
  match fields with
  | [] => []
  | f :: fields' =>
      match family_of f with
      | Some fam =>
          if existsb (fun x => bool_decide (x = fam)) seen
          then families_in_order fields' seen
          else fam :: families_in_order fields' (fam :: seen)
      | None => families_in_order fields' seen
      end
  end.

(** The file as it is on disk: the strings in the order they were written. *)
Definition file_text (w : world) : string :=
  foldr (fun chunk rest => chunk.2 +:+ rest) EmptyString (report w).

Definition fresh : world := World [] (Ext [] 0 []).

(** [argparse]: the options of the [bootstrap] sub-command as they come
    on the command line; every [store] action sets its attribute. *)
Inductive bootstrap_option : Type :=
  | OptInFreqs (v : string)
  | OptInLd (v : string)
  | OptInFst (v : string).

Definition store (opt : bootstrap_option) (args : Args) : Args :=
  match opt with
  | OptInFreqs v => MkArgs (nBootstrapReps args) (Some v) (in_ld args) (in_fst args) (out args)
  | OptInLd v => MkArgs (nBootstrapReps args) (in_freqs args) (Some v) (in_fst args) (out args)
  | OptInFst v => MkArgs (nBootstrapReps args) (in_freqs args) (in_ld args) (Some v) (out args)
  end.

Definition parse_args (nBootstrapReps : Z) (options : list bootstrap_option) (out : string) : Args :=
  foldl (fun args opt => store opt args) (MkArgs nBootstrapReps None None None out) options.

Definition requested (opt : bootstrap_option) : family :=
  match opt with
  | OptInFreqs _ => Freqs
  | OptInLd _ => LD
  | OptInFst _ => Fst
  end.


(** ** The collaborators, from the specification *)

Definition asked (name : string) (e : ext) : ext :=
  Ext (stdout e) (draws e) (opened e ++ [name]).

(** Modelled from the spec: [checkFileExists] of [model.bootstrap_func].
    A missing input file is an error that is surfaced to the caller
    (section 7, missing-input error); an existing one answers [True]. *)
Definition checkFileExists_spec (present : list string) (name : string) : C bool :=
  fun e =>
    if decide (name ∈ present) then (Ok true, asked name e)
    else (Raise (Collaborator "missing input file"), asked name e).

(** Modelled from the spec: the readers of [model.bootstrap_func] hand
    over the parsed content of a file (section 6); an unreadable file is
    the missing-input error. *)
Definition read_spec {A} (content : string -> option A) (name : string) : C A :=
  fun e =>
    match content name with
    | Some f => (Ok f, asked name e)
    | None => (Raise (Collaborator "missing input file"), asked name e)
    end.

(** [sum(l)] *)
Definition py_sum {F} `{PyFloat F} (l : list F) : F := foldl fadd (float_of_int 0) l.

(** Modelled from the spec: [estimatePi] of [model.bootstrap_func]
    (section 4.2): the sum of the per-region diversity numerators over the
    sum of the per-region lengths; a zero total length is an error, not a
    coerced value. *)
Definition estimatePi_spec {F} `{PyFloat F} (pis : list F) (lens : list Z) : result F :=
  truediv (py_sum pis) (float_of_int (zsum lens)).

Definition values_of {A} (s : sample A) : list A :=
  match s with
  | Regions l => flattenList l
  | Values l => l
  end.

(** The bin of [x] among [edges]: the first [k] with
    [edges[k] <= x < edges[k+1]]. *)
Fixpoint bin_of (edges : list Qc) (x : Qc) : option nat :=
  match edges with
  | lo :: ((hi :: _) as rest) =>
      if decide (lo <= x)%Qc then
        if decide (x < hi)%Qc then Some O else S <$> bin_of rest x
      else None
  | _ => None
  end.

(** Add [v] to the sum and one to the count of bin [k]. *)
Definition tally (k : nat) (v : Qc) (h : list Qc * list Z) : list Qc * list Z :=
  (alter (Qcplus v) k h.1, alter (Z.add 1) k h.2).

Definition histogram (edges : list Qc) (values dists : list Qc) : list Qc * list Z :=
  let nbins := (length edges - 1)%nat in
  foldl (fun h vd => match bin_of edges vd.2 with
                     | Some k => tally k vd.1 h
                     | None => h
                     end)
        (replicate nbins (Q2Qc 0), replicate nbins 0)
        (zip values dists).

(** Modelled from the spec: [estimater2decay] and [estimatedprimedecay] of
    [model.bootstrap_func] (section 4.2): the site pairs are partitioned
    into distance bins with edges fixed beforehand; per bin, the sum of
    the values and the number of pairs. *)
Definition estimate_decay_spec (edges : list Qc) (values dists : sample Qc)
    : result (list Qc * list Z) :=
  Ok (histogram edges (values_of values) (values_of dists)).

(** [nhist + 1] edges of equal width over [[0, 1]]; the last one is moved
    past 1 so that a fixed allele falls in the last bin. *)
Definition frequency_edges (nhist : Z) : list Qc :=
  map (fun k => if decide (k = nhist) then (Q2Qc 2)
                else (Qc_of_Z k / Qc_of_Z nhist)%Qc) (range (nhist + 1)).

(** Modelled from the spec: [estimateFreqSpectrum] of
    [model.bootstrap_func] (section 4.2): the sites are partitioned into
    [nhist] equal-width bins by derived-allele frequency; per bin, the
    number of sites and the sum of their ancestral counts. *)
Definition estimateFreqSpectrum_spec (der anc : sample Z) (nhist : Z)
    : result (list Z * list Qc) :=
  freqs <-- comprehension
    (fun da => truediv (Qc_of_Z da.1) (Qc_of_Z (da.1 + da.2)))
    (zip (values_of der) (values_of anc)) ;;
  let h := histogram (frequency_edges nhist) (map Qc_of_Z (values_of anc)) freqs in
  Ok (h.2, h.1).

(** Modelled from the spec: [estimateFstByBootstrap_bysnp] of
    [model.bootstrap_func] (sections 4.2 and 4.3): the mean of the Fst
    values, and the standard deviation of the means of [nrep] resamples of
    the same size. *)
Definition estimateFst_spec (rng : nat -> Z) (allfst : list Qc) (nrep : Z)
    : C (Qc * stdval) :=
  fun e =>
    let n := len allfst in
    if decide (n = 0) then (Raise ZeroDivisionError, e)
    else
      let draw k := default (Q2Qc 0) (allfst !! Z.to_nat (rng k mod n)) in
      let replicate_mean r :=
        qmean (map (fun j => draw (draws e + r * length allfst + j)%nat)
                   (seq 0 (length allfst))) in
      (Ok (qmean allfst, np_std (map replicate_mean (seq 0 (Z.to_nat nrep)))),
       Ext (stdout e) (draws e + Z.to_nat nrep * length allfst) (opened e)).

(** A rendering of the numbers for concrete runs: a rational as
    [num/den], a standard deviation as [sqrt(num/den)]. *)
Definition exact_text (q : Qc) : string :=
  pretty (Qnum q) +:+ "/" +:+ pretty (Z.pos (Qden q)).
Definition exact_float_str : PyStr Qc := {| str := exact_text; repr := exact_text |}.
Definition std_text (v : stdval) : string :=
  match v with
  | NaN => "nan"
  | Sqrt q => "sqrt(" +:+ exact_text q +:+ ")"
  end.
Definition exact_std_str : PyStr stdval := {| str := std_text; repr := std_text |}.

(** ** A small data set for concrete runs *)

(** The collaborators of the specification over the input files
    [present]; distance bins [0,10), [10,20) and [0,1), [1,2). *)
Definition example_functions (present : list string) : bootstrap_func :=
  BootstrapFunc
    (checkFileExists_spec present)
    (read_spec (fun name => if decide (name ∈ present)
                            then Some (FreqsFile [] [] [] 0 []) else None))
    (fun name _ => read_spec (fun name => if decide (name ∈ present)
                                          then Some (LdFile [] [] [] [] 0 0) else None) name)
    (read_spec (fun name => if decide (name ∈ present) then Some ([], 0) else None))
    estimatePi_spec
    estimateFreqSpectrum_spec
    (estimate_decay_spec [Qc_of_Z 0; Qc_of_Z 10; Qc_of_Z 20])
    (estimate_decay_spec [Qc_of_Z 0; Qc_of_Z 1; Qc_of_Z 2])
    (estimateFst_spec (fun k => Z.of_nat k)).

(** Two regions with diversity numerators 0 and 2 and length 1 each; three
    sites with derived counts 1, 5, 9 out of 10; two site pairs at the
    physical distances [dists]. *)
Definition example_globals (rng : nat -> Z) (dists : list (list Qc)) : globals := {|
  g_i := Some 0;
  g_nsnps := Some 3;
  g_totalregions := Some 2;
  g_allRegionPI := Some [Qc_of_Z 0; Qc_of_Z 2];
  g_allseqlens := Some [1; 1];
  g_allRegionDER := Some [[1; 5]; [9]];
  g_allRegionANC := Some [[9; 5]; [1]];
  g_nhist := Some 2;
  g_random := Some rng;
  g_np := Some tt;
  g_ldfilename := Some "ld.txt";
  g_mafcutoffdprime := Some (Qc_of_Z 0);
  g_allRegionr2 := Some [[Q2Qc (1 # 2)]; [Q2Qc (1 # 4)]];
  g_allRegionDists := Some dists;
  g_nphysdisthist := Some 2;
  g_allRegionDprime := Some [[Q2Qc (1 # 2)]; [Q2Qc (1 # 4)]];
  g_allRegionGendists := Some [[Q2Qc (1 # 2)]; [Q2Qc (3 # 2)]];
  g_ngendisthist := Some 2
|}.

(** The random streams 0, 1, 2, 3, ... and 0, 0, 1, 1, 2, 2, ... *)
Definition counting (k : nat) : Z := Z.of_nat k.
Definition pairing (k : nat) : Z := Z.of_nat k / 2.

(** A run of the example from an empty world. *)
Definition example_run (present : list string) (G : globals) (args : Args)
    : outcome unit * world :=
  execute_bootstrap (float_str := exact_float_str) (std_str := exact_std_str)
    (example_functions present) G 3 args fresh.

(** One pair in each physical-distance bin; both pairs in the first. *)
Definition spread_dists : list (list Qc) := [[Qc_of_Z 5]; [Qc_of_Z 15]].
Definition close_dists : list (list Qc) := [[Qc_of_Z 5]; [Qc_of_Z 6]].

(** ** cms/dists/freqbins_func.py: files, directories and processes *)

(** What a path names.  A file holds text (its characters as they are
    on disk); a directory holds names, and has a size of its own. *)
Inductive node : Type :=
  | File (content : string)
  | Dir (names : list string) (size : Z).

Inductive os_exn : Type :=
  | Builtin (e : exn)
  | OSError (path : string)        (* IOError and its kin *)
  | AssertionError
  | CalledProcessError.

Inductive attempt (A : Type) : Type :=
  | Returned (a : A)
  | Threw (e : os_exn).
Arguments Returned {A} a.
Arguments Threw {A} e.

#[export] Instance node_eq_dec : EqDecision node.
Proof. solve_decision. Defined.
#[export] Instance os_exn_eq_dec : EqDecision os_exn.
Proof. solve_decision. Defined.
#[export] Instance attempt_eq_dec {A} `{EqDecision A} : EqDecision (attempt A).
Proof. solve_decision. Defined.

(** The file system by path, the console, and the commands that were
    run as sub-processes (their argument vectors, oldest first). *)
Record os : Type := Os {
  fs : gmap string node;
  console : list string;
  ran : list (list string)
}.

Definition IO (A : Type) : Type := os -> attempt A * os.

Definition io_ret {A} (a : A) : IO A := fun s => (Returned a, s).
Definition io_bind {A B} (m : IO A) (k : A -> IO B) : IO B :=
  fun s => match m s with
           | (Returned a, s') => k a s'
           | (Threw e, s') => (Threw e, s')
           end.
Definition io_lift {A} (r : result A) : IO A :=
  fun s => (match r with Ok a => Returned a | Raise e => Threw (Builtin e) end, s).

Notation "x <<- m ;; k" := (io_bind m (fun x => k))
  (at level 100, m at next level, right associativity) : py_scope.

Fixpoint io_for {A S} (xs : list A) (body : A -> S -> IO S) (s : S) : IO S :=
  match xs with
  | [] => io_ret s
  | x :: xs' => s' <<- body x s ;; io_for xs' body s'
  end.

Definition io_print (line : string) : IO unit :=
  fun s => (Returned tt, Os (fs s) (console s ++ [line]) (ran s)).

(** [os.path.isfile], [os.path.isdir], [os.path.getsize], [os.listdir] *)
Definition isfile (path : string) : IO bool :=
  fun s => (Returned match fs s !! path with Some (File _) => true | _ => false end, s).
Definition isdir (path : string) : IO bool :=
  fun s => (Returned match fs s !! path with Some (Dir _ _) => true | _ => false end, s).
Definition getsize (path : string) : IO Z :=
  fun s => (match fs s !! path with
            | Some (File content) => Returned (Z.of_nat (String.length content))
            | Some (Dir _ size) => Returned size
            | None => Threw (OSError path)
            end, s).
Definition listdir (path : string) : IO (list string) :=
  fun s => (match fs s !! path with
            | Some (Dir names _) => Returned names
            | _ => Threw (OSError path)
            end, s).

(** [open(path, 'r')]: the handle reads the file that [path] names. *)
Definition open_read (path : string) : IO string :=
  fun s => (match fs s !! path with
            | Some (File _) => Returned path
            | _ => Threw (OSError path)
            end, s).

(** [open(path, 'w')]: the file is created, or emptied. *)
Definition open_write (path : string) : IO string :=
  fun s => match fs s !! path with
           | Some (Dir _ _) => (Threw (OSError path), s)
           | _ => (Returned path, Os (<[path := File EmptyString]> (fs s)) (console s) (ran s))
           end.

(** [handle.write(text)]: the text is appended as it is (on a POSIX
    system a line feed is written as a line feed). *)
Definition file_write (handle text : string) : IO unit :=
  fun s => match fs s !! handle with
           | Some (File content) =>
               (Returned tt, Os (<[handle := File (content +:+ text)]> (fs s)) (console s) (ran s))
           | _ => (Threw (OSError handle), s)
           end.

(** A text cut after each line feed: every line with its line feed, the
    last one as it is. *)
Fixpoint split_lines (text : string) : list string :=
  match text with
  | EmptyString => []
  | String a text' =>
      if decide (a = ascii_of_nat 10) then nl :: split_lines text'
      else match split_lines text' with
           | line :: lines => String a line :: lines
           | [] => [String a EmptyString]
           end
  end.

(** What a handle opened with [open(path, 'r')] makes of the content of
    the file (text mode, universal newlines): a carriage return becomes a
    line feed, and a line feed that follows a carriage return is dropped,
    so that the line ends CR LF, CR and LF all read as LF.  [after_cr]:
    the character before was a carriage return. *)
Fixpoint translate_newlines (after_cr : bool) (content : string) : string :=
  match content with
  | EmptyString => EmptyString
  | String a content' =>
      if decide (a = ascii_of_nat 13)
      then String (ascii_of_nat 10) (translate_newlines true content')
      else if decide (a = ascii_of_nat 10) then
             if after_cr then translate_newlines false content'
             else String a (translate_newlines false content')
           else String a (translate_newlines false content')
  end.

Definition universal_newlines (content : string) : string :=
  translate_newlines false content.

(** The lines that iterating over a handle yields for a file that holds
    [content]. *)
Definition lines_of (content : string) : list string :=
  split_lines (universal_newlines content).

(** [for line in handle] *)
Definition readlines (handle : string) : IO (list string) :=
  fun s => (match fs s !! handle with
            | Some (File content) => Returned (lines_of content)
            | _ => Threw (OSError handle)
            end, s).

(** [needle in hay] on strings. *)
Fixpoint contains (needle hay : string) : bool :=
  String.prefix needle hay
  || match hay with
     | EmptyString => false
     | String _ hay' => contains needle hay'
     end.

Section whitespace.
(** The characters that [str.split()] takes for white space. *)
Variable isspace : ascii -> bool.

Definition starts_word (s : string) : bool :=
  match s with
  | String b _ => negb (isspace b)
  | EmptyString => false
  end.

(** [s.split()]: the runs of characters that are not white space. *)
Fixpoint split_whitespace (s : string) : list string :=
  match s with
  | EmptyString => []
  | String a s' =>
      if isspace a then split_whitespace s'
      else if starts_word s' then
             match split_whitespace s' with
             | word :: words => String a word :: words
             | [] => [String a EmptyString]
             end
           else String a EmptyString :: split_whitespace s'
  end.

Section write_bin_paramfile.
Context {B : Type} `{PyStr B}.

(** Lines 16-20: the line without its last entry, then the bounds. *)
Definition sweep_line (line : string) (bounds : list B) : result string :=
  let writestring := EmptyString in
  let entries := split_whitespace line in
  writestring <-- rfold (range (len entries - 1))
    (fun ientry writestring =>
       entry <-- subscript entries ientry ;;
       Ok (writestring +:+ (entry +:+ " ")))
    writestring ;;
  b0 <-- subscript bounds 0 ;;
  b1 <-- subscript bounds 1 ;;
  Ok (writestring +:+ (((str b0 +:+ "-") +:+ str b1) +:+ nl)).

Definition write_bin_paramfile (readfilename writefilename : string) (bounds : list B)
    : IO unit :=
  readfile <<- open_read readfilename ;;
  writefile <<- open_write writefilename ;;
  let foundSweep := false in
  lines <<- readlines readfile ;;
  foundSweep <<- io_for lines
    (fun line foundSweep =>
       if negb (contains "sweep_mult" line) then
         _ <<- file_write writefile line ;;
         io_ret true
       else
         writestring <<- io_lift (sweep_line line bounds) ;;
         _ <<- file_write writefile writestring ;;
         io_ret foundSweep)
    foundSweep ;;
  if bool_decide (foundSweep = false)
  then io_print "ERROR: did not find sweep parameters in inputfile."
  else io_ret tt.
End write_bin_paramfile.

(** A sub-process: whether the command succeeds, and what it leaves of
    the file system.  The same command may fail now and succeed later:
    the outcome also depends on how many commands ran before. *)
Variable check_output : nat -> list string -> gmap string node -> bool * gmap string node.

(** [subprocess.check_output(argv)] in a [try] whose [except] catches
    everything: whether it returned. *)
Definition try_check_output (argv : list string) : IO bool :=
  fun s => let r := check_output (length (ran s)) argv (fs s) in
           (Returned r.1, Os r.2 (console s) (ran s ++ [argv])).

(** Lines 33-39.  [None]: the loop is still turning when the fuel is
    used up. *)
Fixpoint try_until_it_works (fuel : nat) (argv : list string) (nAttempts : Z)
    : os -> option (attempt Z) * os :=
  fun s =>
    match fuel with
    | O => (None, s)
    | S fuel' =>
        let nAttempts := nAttempts + 1 in
        match try_check_output argv s with
        | (Returned true, s') => (Some (Returned nAttempts), s')
        | (Returned false, s') => try_until_it_works fuel' argv nAttempts s'
        | (Threw e, s') => (Some (Threw e), s')
        end
    end.

Definition run_traj_command (output cosibuild params : string) (maxAttempts : Z) : string :=
  "env COSI_NEWSIM=1 COSI_MAXATTEMPTS=" +:+ str maxAttempts +:+ " COSI_SAVE_TRAJ="
  +:+ output +:+ " " +:+ cosibuild +:+ " -p " +:+ params +:+ " --traj-only".

Definition run_traj (fuel : nat) (output cosibuild params : string) (maxAttempts : Z)
    : os -> option (attempt unit) * os :=
  fun s =>
    let commandstring := run_traj_command output cosibuild params maxAttempts in
    match io_print commandstring s with
    | (Threw e, s1) => (Some (Threw e), s1)
    | (Returned _, s1) =>
        match try_until_it_works fuel (split_whitespace commandstring) 0 s1 with
        | (None, s2) => (None, s2)
        | (Some (Threw e), s2) => (Some (Threw e), s2)
        | (Some (Returned nAttempts), s2) =>
            let '(r, s3) :=
              (_ <<- io_print ("found a trajectory in " +:+ str nAttempts +:+ " attempts.") ;;
               there <<- isfile output ;;
               if there : bool then io_ret tt
               else fun s => (Threw AssertionError, s)) s2 in
            (Some r, s3)
        end
    end.
End whitespace.

Definition default_maxAttempts : Z := 100.

(** Lines 78-88. *)
Definition check_file_len (filename : string) : IO Z :=
  there <<- isfile filename ;;
  filled <<- (if there : bool
              then size <<- getsize filename ;; io_ret (bool_decide (size > 0))
              else io_ret false) ;;
  if filled : bool then
    openfile <<- open_read filename ;;
    let iline := 0 in
    lines <<- readlines openfile ;;
    iline <<- io_for lines (fun line iline => io_ret (iline + 1)) iline ;;
    io_ret iline
  else io_ret 0.

(** Lines 61-68. *)
Definition check_bin_filled (directory : string) (numsims : Z) : IO bool :=
  filenames <<- listdir directory ;;
  nonempty <<- io_for filenames
    (fun x nonempty =>
       n <<- check_file_len x ;;
       io_ret (if decide (n <> 0) then nonempty ++ [x] else nonempty))
    [] ;;
  if decide (len filenames < numsims) then io_ret false else io_ret true.

(** Lines 89-98. *)
Definition check_create_file (filename : string) (checkOverwrite : bool) : IO bool :=
  if bool_decide (checkOverwrite = false) then io_ret true
  else
    there <<- isfile filename ;;
    free <<- (if negb there then io_ret true
              else size <<- getsize filename ;; io_ret (bool_decide (size = 0))) ;;
    if free : bool then io_ret true else io_ret false.


(** *** The text of a file and its lines *)

Definition text_of_lines (lines : list string) : string := foldr String.append EmptyString lines.

Fixpoint no_newline (s : string) : bool :=
  match s with
  | EmptyString => true
  | String a s' => negb (bool_decide (a = ascii_of_nat 10)) && no_newline s'
  end.

Fixpoint no_cr (s : string) : bool :=
  match s with
  | EmptyString => true
  | String a s' => negb (bool_decide (a = ascii_of_nat 13)) && no_cr s'
  end.

(** A line with its line feed, and a last line without one. *)
Definition terminated (line : string) : Prop :=
  exists body, line = body +:+ nl /\ no_newline body = true.
Definition unterminated (line : string) : Prop :=
  line <> EmptyString /\ no_newline line = true.

Inductive proper_lines : list string -> Prop :=
  | proper_nil : proper_lines []
  | proper_last line : unterminated line -> proper_lines [line]
  | proper_cons line lines :
      terminated line -> proper_lines lines -> proper_lines (line :: lines).

Fixpoint spaceless (isspace : ascii -> bool) (s : string) : bool :=
  match s with
  | EmptyString => true
  | String a s' => negb (isspace a) && spaceless isspace s'
  end.

(** An entry of [s.split()]: not empty, no white space in it. *)
Definition is_word (isspace : ascii -> bool) (w : string) : Prop :=
  spaceless isspace w = true /\ w <> EmptyString.

(** What lines 16-20 make of a line, in closed form. *)
Definition spaced (entries : list string) : string :=
  foldl (fun writestring entry => writestring +:+ (entry +:+ " ")) EmptyString entries.
Definition rewritten {B} `{PyStr B} (isspace : ascii -> bool) (b0 b1 : B) (line : string) : string :=
  if contains "sweep_mult" line
  then let entries := split_whitespace isspace line in
       spaced (take (length entries - 1) entries) +:+ (((str b0 +:+ "-") +:+ str b1) +:+ nl)
  else line.
Definition sweep_error : string := "ERROR: did not find sweep parameters in inputfile.".

(** A parameter file of two lines, the second one with the sweep. *)
Definition example_params : string :=
  "pop_define 1 european" +:+ nl +:+ "pop_event sweep_mult 1 0.5 .2-.9" +:+ nl.
Definition example_os : os := Os {[ "in.par" := File example_params ]} [] [].

(** The file system after [k] more runs of the command [argv], when
    [calls] commands ran before. *)
Fixpoint fs_after (check_output : nat -> list string -> gmap string node -> bool * gmap string node)
    (argv : list string) (calls : nat) (files : gmap string node) (k : nat)
    : gmap string node :=
  match k with
  | O => files
  | S k' => fs_after check_output argv (S calls) (check_output calls argv files).2 k'
  end.

(** A simulator that finds no trajectory, and one that finds a
    trajectory at its third run and saves it. *)
Definition never_works (calls : nat) (argv : list string) (files : gmap string node)
    : bool * gmap string node := (false, files).
Definition works_third_time (calls : nat) (argv : list string) (files : gmap string node)
    : bool * gmap string node :=
  if decide (calls < 2)%nat then (false, files)
  else (true, <[ "traj.txt" := File "trajectory" ]> files).

(** ** cms/cms_modeller.py: [execute_target_stats] *)

(** The parsed command line of the [target_stats] sub-command.
    [inputTpeds] has [type=list]: argparse hands over the characters of
    the argument, one string each. *)
Record TargetStatsArgs : Type := MkTargetStatsArgs {
  ts_inputTpeds : list string;
  ts_recomFile : string;
  ts_regions : string;
  ts_freqs : bool;
  ts_ld : bool;
  ts_fst : bool;
  ts_out : string
}.

(** [list(s)] *)
Definition list_of_str (s : string) : list string :=
  map (fun a => String a EmptyString) (list_ascii_of_string s).

(** Lines 87, 90 and 95: the three commands. *)
Definition freqCmd (args : TargetStatsArgs) (inputtped : string) (ipop : Z) : list string :=
  ["bootstrap_freq_popstats_regions "; inputtped; ts_recomFile args; ts_regions args;
   ts_out args +:+ "_freqs_" +:+ str ipop].
Definition ldCmd (args : TargetStatsArgs) (inputtped : string) (ipop : Z) : list string :=
  ["bootstrap_ld_popstats_regions "; inputtped; ts_recomFile args; ts_regions args;
   ts_out args +:+ "_ld_" +:+ str ipop].
Definition fstCmd (args : TargetStatsArgs) (inputtped inputtped2 : string) (ipop jpop : Z)
    : list string :=
  ["bootstrap_fst_popstats_regions "; inputtped; inputtped2; ts_recomFile args;
   ts_regions args; ts_out args +:+ "_fst_" +:+ str ipop +:+ "_" +:+ str jpop].

(** Lines 79-81. *)
Definition target_stats_inputtpeds (args : TargetStatsArgs) : list string :=
  let inputtpedstring := join EmptyString (ts_inputTpeds args) in
  split "," inputtpedstring.

(** Lines 83-96. *)
Definition target_stats_commands (args : TargetStatsArgs) : M (list (list string)) :=
  let inputtpeds := target_stats_inputtpeds args in
  let npops := len inputtpeds in
  for_each (range npops)
    (fun ipop allCmds =>
       inputtped <~ lift (subscript inputtpeds ipop) ;;
       allCmds <~ (if ts_freqs args
                   then mret (allCmds ++ [freqCmd args inputtped ipop])
                   else mret allCmds) ;;
       allCmds <~ (if ts_ld args
                   then mret (allCmds ++ [ldCmd args inputtped ipop])
                   else mret allCmds) ;;
       if ts_fst args
       then for_each (range2 (ipop + 1) npops)
              (fun jpop allCmds =>
                 inputtped2 <~ lift (subscript inputtpeds jpop) ;;
                 mret (allCmds ++ [fstCmd args inputtped inputtped2 ipop jpop]))
              allCmds
       else mret allCmds)
    [].

(** Lines 77-101.  Line 100 adds a list to a string. *)
Definition execute_target_stats (args : TargetStatsArgs) : M unit :=
  let npops := len (target_stats_inputtpeds args) in
  print (prefixstring +:+ "calculating summary statistics for " +:+ str npops
         +:+ " populations...") ;>
  allCmds <~ target_stats_commands args ;;
  for_each allCmds
    (fun command _ =>
       let command := map (fun x : string => x) command in   (* [str(x)] of a string *)
       raise (TypeError "can only concatenate str (not list) to str"))
    tt.

(** The commands of population [ipop], in closed form. *)
Definition population_commands (args : TargetStatsArgs) (ipop : Z) : list (list string) :=
  let inputtpeds := target_stats_inputtpeds args in
  let name j := default EmptyString (inputtpeds !! Z.to_nat j) in
  (if ts_freqs args then [freqCmd args (name ipop) ipop] else [])
  ++ (if ts_ld args then [ldCmd args (name ipop) ipop] else [])
  ++ (if ts_fst args
      then map (fun jpop => fstCmd args (name ipop) (name jpop) ipop jpop)
             (range2 (ipop + 1) (len inputtpeds))
      else []).

Fixpoint count_char (c : ascii) (s : string) : Z :=
  match s with
  | EmptyString => 0
  | String a s' => (if decide (a = c) then 1 else 0) + count_char c s'
  end.

(** Two populations, all three families of statistics. *)
Definition example_target_stats : TargetStatsArgs :=
  MkTargetStatsArgs (list_of_str "a.tped,b.tped") "map.txt" "regions.txt" true true true "out".

(** ** cms/cms_modeller.py: [execute_point] *)

Record PointArgs : Type := MkPointArgs {
  pt_inputParamFile : string;
  pt_nCoalescentReps : Z;
  pt_outputDir : string;
  pt_cosiBuild : string;
  pt_dropSings : option Qc;
  pt_genmapRandomRegions : bool;
  pt_stopAfterMinutes : option string;
  pt_calcError : option string;
  pt_plotStats : bool
}.

(** [s[i]] on a string. *)
Definition str_subscript (s : string) (i : Z) : result ascii :=
  subscript (list_ascii_of_string s) i.

(** Lines 287-290. *)
Definition point_statfilename (args : PointArgs) : result string :=
  let statfilename := pt_outputDir args in
  last <-- str_subscript (pt_outputDir args) (-1) ;;
  let statfilename :=
    if decide (last <> "/"%char) then statfilename +:+ "/" else statfilename in
  Ok (statfilename +:+ ("n" +:+ str (pt_nCoalescentReps args) +:+ "stats.txt")).

Section execute_point.
Context {float_str : PyStr Qc}.
(** [calc_error] and [read_error_dimensionsfile] of [model.error_func]. *)
Variables Stats Pops : Type.
Variable calc_error : string -> option (Stats * Pops) -> C Qc.
Variable read_error_dimensionsfile : string -> C (Stats * Pops).

(** Lines 295-302. *)
Definition point_command (args : PointArgs) (statfilename : string) : string :=
  let runStatsCommand :=
    pt_cosiBuild args +:+ " -p " +:+ pt_inputParamFile args +:+ " -n "
    +:+ str (pt_nCoalescentReps args) in
  let runStatsCommand :=
    match pt_dropSings args with
    | Some dropSings => runStatsCommand +:+ (" --drop-singletons " +:+ str dropSings)
    | None => runStatsCommand
    end in
  let runStatsCommand :=
    if pt_genmapRandomRegions args
    then runStatsCommand +:+ " --genmapRandomRegions" else runStatsCommand in
  let runStatsCommand :=
    match pt_stopAfterMinutes args with
    | Some minutes => runStatsCommand +:+ (" --stop-after-minutes " +:+ minutes)
    | None => runStatsCommand
    end in
  runStatsCommand +:+ ("--custom-stats > " +:+ statfilename).

Definition execute_point (args : PointArgs) : M unit :=
  print (prefixstring +:+ "generating " +:+ str (pt_nCoalescentReps args)
         +:+ " simulations from model: " +:+ pt_inputParamFile args) ;>
  statfilename <~ lift (point_statfilename args) ;;
  print (point_command args statfilename) ;>
  (match pt_calcError args with
   | Some calcError =>
       error <~ (if decide (calcError = EmptyString)
                 then call (calc_error statfilename None)
                 else dims <~ call (read_error_dimensionsfile calcError) ;;
                      call (calc_error statfilename (Some dims))) ;;
       print (prefixstring +:+ " error: " +:+ str error)
   | None => mret tt
   end) ;>
  if pt_plotStats args
  then print (prefixstring
              +:+ " must connect to plotting infrastructure, ensure consistency wrt matplotlib")
  else mret tt.
End execute_point.

(** ** What [execute_bootstrap] never does *)

(** [m] does not end in a division by zero. *)
Definition divides_safely {A} (m : M A) : Prop :=
  forall w, (m w).1 <> Finished (Raise ZeroDivisionError).

(** The functions [BF] with another reader of the frequency files. *)
Definition with_freqs_reader (reader : string -> C freqs_file) (BF : bootstrap_func)
    : bootstrap_func :=
  BootstrapFunc (checkFileExists BF) reader (readLDFile BF) (readFstFile BF)
    (estimatePi BF) (estimateFreqSpectrum BF) (estimater2decay BF)
    (estimatedprimedecay BF) (estimateFstByBootstrap_bysnp BF).

(** Two collaborators that differ at most in the value they return. *)
Definition same_effect {A} (c1 c2 : C A) : Prop :=
  forall e, (c1 e).2 = (c2 e).2
            /\ match (c1 e).1, (c2 e).1 with
               | Ok _, Ok _ => True
               | Raise e1, Raise e2 => e1 = e2
               | _, _ => False
               end.

(** Data without a single site or site pair. *)
Definition empty_globals : globals := {|
  g_i := Some 0;
  g_nsnps := Some 0;
  g_totalregions := Some 0;
  g_allRegionPI := Some [];
  g_allseqlens := Some [];
  g_allRegionDER := Some [];
  g_allRegionANC := Some [];
  g_nhist := Some 2;
  g_random := Some counting;
  g_np := Some tt;
  g_ldfilename := Some "ld.txt";
  g_mafcutoffdprime := Some (Qc_of_Z 0);
  g_allRegionr2 := Some [];
  g_allRegionDists := Some [];
  g_nphysdisthist := Some 2;
  g_allRegionDprime := Some [];
  g_allRegionGendists := Some [];
  g_ngendisthist := Some 2
|}.

(** Two readers of the frequency files that return different data. *)
Definition reads_nothing (name : string) : C freqs_file :=
  read_spec (fun _ => Some (FreqsFile [] [] [] 0 [])) name.
Definition reads_one_region (name : string) : C freqs_file :=
  read_spec (fun _ => Some (FreqsFile [Qc_of_Z 1] [[1]] [[9]] 1 [100])) name.

(** The two halves of a resample go together: they have the same
    length and every pair of them is a pair of the population. *)
Definition paired {A B} (pop1 : list A) (pop2 : list B) (rep : list A * list B) : Prop :=
  length rep.1 = length rep.2
  /\ Forall (fun p => p ∈ zip pop1 pop2) (zip rep.1 rep.2).

(** ** cms/tools/selscan.py *)

(** [int(x)] of a float: the integer part, towards zero. *)
Definition int_of_float (x : Qc) : Z := Z.quot (Qnum x) (Z.pos (Qden x)).

(** [SelscanFormatter._moving_avg] (lines 34-35), in exact arithmetic. *)
Definition _moving_avg (x prevAvg : Qc) (N : Z) : result Qc :=
  truediv
    (fadd (float_of_int (zsum (replicate (Z.to_nat (N - 1)) (int_of_float prevAvg)))) x)
    (float_of_int N).

(** [get_os_type] (lines 343-350) on the first field of [os.uname()]:
    without a [return] the function gives [None]. *)
Definition get_os_type (uname0 : string) : option string :=
  if decide (uname0 = "Darwin") then Some "osx"
  else if decide (uname0 = "Linux") then Some "linux"
  else None.

(** [get_selscan_binary_path] (lines 352-370). *)
Definition get_selscan_binary_path (os_type : option string) (full : bool) : string :=
  let selscanPath := "bin/" in
  let selscanPath :=
    if decide (os_type = Some "osx") then selscanPath +:+ "osx/"
    else if decide (os_type = Some "linux") then selscanPath +:+ "linux/"
    else if decide (os_type = Some "win") then selscanPath +:+ "win/"
    else selscanPath in
  if full then
    let selscanPath := selscanPath +:+ "selscan" in
    if decide (os_type = Some "win") then selscanPath +:+ ".exe" else selscanPath
  else selscanPath.

(** An element of a command line before [str] is applied to it. *)
Inductive arg : Type :=
  | Text (s : string)
  | Int (n : Z).

#[export] Instance arg_str : PyStr arg := {|
  str := fun a => match a with Text s => s | Int n => str n end;
  repr := fun a => match a with Text s => s | Int n => repr n end
|}.

(** Truth of an optional number: [None] and zero are false. *)
Definition truthy {A} (zero : A) `{EqDecision A} (x : option A) : option A :=
  match x with
  | Some v => if decide (v = zero) then None else Some v
  | None => None
  end.

Section SelscanTool.
(** [Tool.install_and_get_path] of the [tools] package, [os.path.abspath],
    the format ["{:.6}"] of a float, [log.debug] and a sub-process. *)
Variable install_and_get_path : IO string.
Variable abspath : string -> string.
Variable format_6 : Qc -> string.
Variable log_debug : string -> IO unit.
Variable check_output : nat -> list string -> gmap string node -> bool * gmap string node.

(** [subprocess.check_call(argv)] *)
Definition check_call (argv : list string) : IO unit :=
  fun s => let r := check_output (length (ran s)) argv (fs s) in
           (if r.1 then Returned tt else Threw CalledProcessError,
            Os r.2 (console s) (ran s ++ [argv])).

(** A name that the module binds nowhere. *)
Definition unbound {A} (name : string) : IO A :=
  fun s => (Threw (Builtin (NameError name)), s).

(** Lines 182-186, 210-214 and 237-241. *)
Definition threads_option (toolCmd : list arg) (threads : Z) : IO (list arg) :=
  if decide (threads > 0) then
    let toolCmd := toolCmd ++ [Text "--threads"] in
    io_ret (toolCmd ++ [Int threads])
  else
    (* [raise argparse.ArgumentTypeError(...)]: the module does not import argparse *)
    unbound "argparse".

(** Lines 187-192, 215-220 and 242-247. *)
Definition maf_gap_options (toolCmd : list arg) (maf : option Qc) (gap_scale : option Z)
    : list arg :=
  let toolCmd :=
    match truthy (Q2Qc 0) maf with
    | Some maf => (toolCmd ++ [Text "--maf"]) ++ [Text (format_6 maf)]
    | None => toolCmd
    end in
  match truthy 0 gap_scale with
  | Some gap_scale => (toolCmd ++ [Text "--gap-scale"]) ++ [Int gap_scale]
  | None => toolCmd
  end.

(** Lines 194-196, 222-224 and 249-251. *)
Definition run_tool (toolCmd : list arg) : IO unit :=
  let toolCmd := map str toolCmd in
  _ <<- log_debug (join " " toolCmd) ;;
  check_call toolCmd.

Definition execute_ehh (locus_id tped_file out_file : string) (window : option Z)
    (cutoff : option Qc) (max_extend : option Z) (threads : Z) (maf : option Qc)
    (gap_scale : option Z) : IO unit :=
  let out_file := abspath out_file in
  path <<- install_and_get_path ;;
  let toolCmd := [Text path] in
  let toolCmd := toolCmd ++ [Text "--ehh"] in
  let toolCmd := toolCmd ++ [Text locus_id] in
  let toolCmd := toolCmd ++ [Text "--tped"] in
  let toolCmd := toolCmd ++ [Text tped_file] in
  let toolCmd := toolCmd ++ [Text "--out"] in
  let toolCmd := toolCmd ++ [Text out_file] in
  let toolCmd :=
    match truthy 0 window with
    | Some window => (toolCmd ++ [Text "--ehh-win"]) ++ [Int window]
    | None => toolCmd
    end in
  let toolCmd :=
    match truthy (Q2Qc 0) cutoff with
    | Some cutoff => (toolCmd ++ [Text "--cutoff"]) ++ [Text (format_6 cutoff)]
    | None => toolCmd
    end in
  let toolCmd :=
    match truthy 0 max_extend with
    | Some max_extend => (toolCmd ++ [Text "--max-extend"]) ++ [Int max_extend]
    | None => toolCmd
    end in
  toolCmd <<- threads_option toolCmd threads ;;
  let toolCmd := maf_gap_options toolCmd maf gap_scale in
  run_tool toolCmd.

Definition execute_ihs (tped_file out_file : string) (threads : Z) (maf : option Qc)
    (gap_scale : option Z) (skip_low_freq trunc_ok : bool) : IO unit :=
  path <<- install_and_get_path ;;
  let toolCmd := [Text path] in
  let toolCmd := toolCmd ++ [Text "--ihs"] in
  let toolCmd := toolCmd ++ [Text "--tped"] in
  let toolCmd := toolCmd ++ [Text tped_file] in
  let toolCmd := toolCmd ++ [Text "--out"] in
  let toolCmd := toolCmd ++ [Text out_file] in
  let toolCmd := if skip_low_freq then toolCmd ++ [Text "--skip-low-freq"] else toolCmd in
  let toolCmd := if trunc_ok then toolCmd ++ [Text "--trunc-ok"] else toolCmd in
  toolCmd <<- threads_option toolCmd threads ;;
  let toolCmd := maf_gap_options toolCmd maf gap_scale in
  run_tool toolCmd.

Definition execute_xpehh (tped_file tped_ref_file out_file : string) (threads : Z)
    (maf : option Qc) (gap_scale : option Z) (trunc_ok : bool) : IO unit :=
  path <<- install_and_get_path ;;
  let toolCmd := [Text path] in
  let toolCmd := toolCmd ++ [Text "--xpehh"] in
  let toolCmd := toolCmd ++ [Text "--tped"] in
  let toolCmd := toolCmd ++ [Text tped_file] in
  let toolCmd := toolCmd ++ [Text "--tped-ref"] in
  let toolCmd := toolCmd ++ [Text tped_ref_file] in
  let toolCmd := toolCmd ++ [Text "--out"] in
  let toolCmd := toolCmd ++ [Text out_file] in
  let toolCmd := if trunc_ok then toolCmd ++ [Text "--trunc-ok"] else toolCmd in
  toolCmd <<- threads_option toolCmd threads ;;
  let toolCmd := maf_gap_options toolCmd maf gap_scale in
  run_tool toolCmd.
End SelscanTool.

Definition default_skip_low_freq : bool := true.
Definition default_trunc_ok : bool := false.


(** A tool that is installed already, and a log that keeps nothing. *)
Definition installed_tool : IO string := io_ret "bin/linux/selscan".
Definition no_log (message : string) : IO unit := io_ret tt.

(** ** What a run of [execute_bootstrap] writes *)

(** The world once [execute_bootstrap] has printed its first message
    (line 105) and opened the report file (line 107). *)
Definition started {float_str : PyStr Qc} (args : Args) (w : world) : world :=
  World []
    (Ext (stdout (outside w)
            ++ [prefixstring +:+ "running " +:+ str (nBootstrapReps args)
                +:+ " bootstrap estimates of summary statistics..."])
         (draws (outside w)) (opened (outside w))).

(** The first statement of [execute_bootstrap] that cannot run in the
    module as it stands: the name [i] of lines 117 and 185, the [len] of
    line 268. *)
Definition first_error (args : Args) : option exn :=
  match in_freqs args, in_ld args, in_fst args with
  | Some _, _, _ | None, Some _, _ => Some (NameError "i")
  | None, None, Some _ => Some (TypeError "object of type 'int' has no len()")
  | None, None, None => None
  end.

(** The lines of one population of the frequency statistics, from the
    values they stand for: the index; the mean of the diversity and the
    standard deviation of its replicates on one line; then mean and
    standard deviation, bin by bin, of the spectrum and of the ancestral
    proportions. *)
Definition freq_lines {float_str : PyStr Qc} {std_str : PyStr stdval}
    (ipop : Z) (pi_mean : Qc) (pi_replicates : list Qc)
    (sfs_mean : list Qc) (sfs_replicates : list (list Qc))
    (anc_mean : list Qc) (anc_replicates : list (list Qc)) : list (field * string) :=
  [ (IndexLine, str ipop +:+ nl);
    (PiMean, str pi_mean +:+ tab);
    (PiSE, str (np_std pi_replicates) +:+ nl);
    (SfsMean, str sfs_mean +:+ nl);
    (SfsSE, str (map np_std sfs_replicates) +:+ nl);
    (AncMean, str anc_mean +:+ nl);
    (AncSE, str (map np_std anc_replicates) +:+ nl) ].

(** The lines of one population of the LD statistics. *)
Definition ld_lines {float_str : PyStr Qc} {std_str : PyStr stdval}
    (ipop : Z) (r2_mean : list Qc) (r2_replicates : list (list Qc))
    (dprime_mean : list Qc) (dprime_replicates : list (list Qc)) : list (field * string) :=
  [ (IndexLine, str ipop +:+ nl);
    (R2Mean, str r2_mean +:+ nl);
    (R2SE, str (map np_std r2_replicates) +:+ nl);
    (DprimeMean, str dprime_mean +:+ nl);
    (DprimeSE, str (map np_std dprime_replicates) +:+ nl) ].

(** The estimates on the full sample (lines 127, 144-147, 194-195 and
    227-233): what the lines of the means hold. *)
Definition full_sample_pi (BF : bootstrap_func) (G : globals) (pi_mean : Qc) : Prop :=
  exists pis lens,
    g_allRegionPI G = Some pis /\ g_allseqlens G = Some lens
    /\ estimatePi BF pis lens = Ok pi_mean.

Definition full_sample_spectrum (BF : bootstrap_func) (G : globals)
    (sfs_mean anc_mean : list Qc) : Prop :=
  exists der anc nhist mafhist anchist,
    g_allRegionDER G = Some der /\ g_allRegionANC G = Some anc /\ g_nhist G = Some nhist
    /\ estimateFreqSpectrum BF (Regions der) (Regions anc) nhist = Ok (mafhist, anchist)
    /\ sfs_proportions mafhist = Ok sfs_mean
    /\ ratios anchist mafhist (range (len mafhist)) = Ok anc_mean.

Definition full_sample_r2 (BF : bootstrap_func) (G : globals) (r2_mean : list Qc) : Prop :=
  exists values dists sums counts,
    g_allRegionr2 G = Some values /\ g_allRegionDists G = Some dists
    /\ estimater2decay BF (Regions values) (Regions dists) = Ok (sums, counts)
    /\ ratios sums counts (range (len sums)) = Ok r2_mean.

Definition full_sample_dprime (BF : bootstrap_func) (G : globals) (dprime_mean : list Qc) : Prop :=
  exists values dists sums counts,
    g_allRegionDprime G = Some values /\ g_allRegionGendists G = Some dists
    /\ estimatedprimedecay BF (Regions values) (Regions dists) = Ok (sums, counts)
    /\ ratios sums (pseudocount counts) (range (len sums)) = Ok dprime_mean.

(** The line of the report that holds the standard error of a statistic
    (for the diversity, the end of the line that starts with its mean). *)
Definition se_line {std_str : PyStr stdval} (st : statistic) (ses : list stdval)
    : field * string :=
  match st with
  | Pi => (PiSE, str (default NaN (head ses)) +:+ nl)
  | Sfs => (SfsSE, str ses +:+ nl)
  | Anc => (AncSE, str ses +:+ nl)
  | R2 => (R2SE, str ses +:+ nl)
  | Dprime => (DprimeSE, str ses +:+ nl)
  end.

(** Two sites with a derived allele at frequency 1/10: of two frequency
    bins the second one is empty. *)
Definition low_frequency_globals : globals := {|
  g_i := Some 0;
  g_nsnps := Some 2;
  g_totalregions := Some 1;
  g_allRegionPI := Some [Qc_of_Z 1];
  g_allseqlens := Some [1];
  g_allRegionDER := Some [[1; 1]];
  g_allRegionANC := Some [[9; 9]];
  g_nhist := Some 2;
  g_random := Some counting;
  g_np := Some tt;
  g_ldfilename := None;
  g_mafcutoffdprime := None;
  g_allRegionr2 := None;
  g_allRegionDists := None;
  g_nphysdisthist := None;
  g_allRegionDprime := None;
  g_allRegionGendists := None;
  g_ngendisthist := None
|}.

(** * Properties *)

(** ** Generic facts about the Python fragments *)

Lemma comprehension_map {A B} (f : A -> result B) (g : A -> B) xs :
  (forall x, x ∈ xs -> f x = Ok (g x)) ->
  comprehension f xs = Ok (map g xs).
Proof.
  induction xs as [|x xs IH]; intros Hf; [reflexivity|].
  simpl. rewrite (Hf x) by left. simpl.
  rewrite IH by (intros y Hy; apply Hf; by right). reflexivity.
Qed.

Lemma subscript_nat {A} (l : list A) (i : nat) x :
  l !! i = Some x -> subscript l (Z.of_nat i) = Ok x.
Proof.
  intros Hx. pose proof (lookup_lt_Some _ _ _ Hx) as Hlt.
  unfold subscript. cbv zeta. repeat case_decide; try lia.
  by rewrite Nat2Z.id, Hx.
Qed.

Lemma length_range n : length (range n) = Z.to_nat n.
Proof. unfold range, range2. rewrite length_seqZ. f_equal. lia. Qed.

Lemma range_of_to_nat n : range (Z.of_nat (Z.to_nat n)) = range n.
Proof.
  destruct (decide (0 <= n)) as [Hn|Hn]; [by rewrite Z2Nat.id|].
  unfold range, range2. by rewrite !seqZ_nil by lia.
Qed.

Lemma lookup_range n (i : nat) :
  Z.of_nat i < n -> range n !! i = Some (Z.of_nat i).
Proof. intros Hi. unfold range, range2. rewrite lookup_seqZ_lt by lia. f_equal. Qed.

Lemma elem_of_range n i : i ∈ range n <-> 0 <= i < n.
Proof. unfold range, range2. rewrite elem_of_seqZ. lia. Qed.

Lemma split_no_sep c s : has_char c s = false -> split c s = [s].
Proof.
  induction s as [|a s IH]; simpl; [done|].
  destruct (decide (a = c)); [done|]. intros Hs. by rewrite IH.
Qed.

Lemma split_app c s1 s2 :
  has_char c s1 = false ->
  split c (s1 +:+ String c s2) = s1 :: split c s2.
Proof.
  induction s1 as [|a s1 IH]; simpl.
  - intros _. by rewrite decide_True.
  - destruct (decide (a = c)); [done|]. intros Hs. by rewrite IH.
Qed.

(** ** [get_bins] *)

Section get_bins_shape.
Context {F : Type} `{PyFloat F}.
Variable float_of_str : string -> option F.
Variable format_2f : F -> string.

(** Whatever the arithmetic, a range ["lo-hi"] and a bin count whose
    float is not zero give the edges [lo + binlen*i]. *)
Lemma get_bins_edges slo shi lo hi numbins :
  has_char "-" slo = false -> has_char "-" shi = false ->
  float_of_str slo = Some lo -> float_of_str shi = Some hi ->
  fis_zero (float_of_int numbins) = false ->
  fis_zero (float_of_int 2) = false ->
  let binlen := fquot (fsub hi lo) (float_of_int numbins) in
  let mid i := fquot (fadd (edge lo binlen i) (edge lo binlen (i + 1))) (float_of_int 2) in
  get_bins float_of_str format_2f (slo +:+ String "-" shi) numbins
  = Ok (Bins [lo; hi]
          (map (edge lo binlen) (range numbins))
          (map (edge lo binlen) (range2 1 (numbins + 1)))
          (map mid (range numbins))
          (map format_2f (map mid (range numbins)))).
Proof.
  intros Hslo Hshi Hlo Hhi Hn H2 binlen mid. unfold get_bins.
  rewrite split_app, split_no_sep by done. simpl.
  unfold parse_float. rewrite Hlo, Hhi. simpl.
  unfold truediv at 1. rewrite Hn. simpl.
  rewrite (comprehension_map _ (edge lo binlen)) by (intros; reflexivity). simpl.
  rewrite (comprehension_map _ (edge lo binlen)) by (intros; reflexivity). simpl.
  rewrite length_map, length_range, range_of_to_nat.
  rewrite (comprehension_map _ mid); [reflexivity|].
  intros i [Hi0 Hi]%elem_of_range.
  assert (Hin : Z.of_nat (Z.to_nat i) < numbins) by lia.
  rewrite <-(Z2Nat.id i) by done.
  erewrite subscript_nat; last first.
  { rewrite list_lookup_fmap, lookup_range by done. reflexivity. }
  simpl. erewrite subscript_nat; last first.
  { rewrite list_lookup_fmap. unfold range2.
    rewrite lookup_seqZ_lt by lia. reflexivity. }
  simpl. unfold truediv. rewrite H2. unfold mid.
  by rewrite (Z.add_comm 1).
Qed.
End get_bins_shape.

Lemma Qc_of_Z_not_zero n : n <> 0 -> fis_zero (Qc_of_Z n) = false.
Proof.
  intros Hn. simpl. apply bool_decide_eq_false. intros Hz.
  apply Hn, Z2Qc_inj. by rewrite Z2Qc_inj_0.
Qed.

Lemma edge_succ (lo w : Qc) i : edge lo w (i + 1) = (edge lo w i + w)%Qc.
Proof. unfold edge. simpl. rewrite Z2Qc_inj_add, Z2Qc_inj_1. ring. Qed.

Lemma edge_zero (lo w : Qc) : edge lo w 0 = lo.
Proof.
  unfold edge. change (float_of_int 0) with (Qc_of_Z 0).
  rewrite Z2Qc_inj_0. simpl. ring.
Qed.

Section get_bins_exact.
Variable float_of_str : string -> option Qc.
Variable format_2f : Qc -> string.

(** C10 (as amended): in exact arithmetic, for a positive [numbins] and
    a range written ["lo-hi"], [get_bins] returns [numbins] contiguous
    bins of equal width [(hi-lo)/numbins] that tile the range: the first
    starts at [lo], every bin ends one width after its start, the next
    bin starts where the previous ends, and every median is the midpoint
    of its bin. *)
Theorem get_bins_tiles_exact slo shi (lo hi : Qc) numbins :
  0 < numbins ->
  has_char "-" slo = false -> has_char "-" shi = false ->
  float_of_str slo = Some lo -> float_of_str shi = Some hi ->
  exists b, get_bins float_of_str format_2f (slo +:+ String "-" shi) numbins = Ok b
            /\ fullrange b = [lo; hi] /\ tiles lo hi numbins b.
Proof.
  intros Hn Hslo Hshi Hlo Hhi. eexists. split.
  { apply get_bins_edges; try done; by apply Qc_of_Z_not_zero; lia. }
  split; [done|]. set (w := fquot (fsub hi lo) (float_of_int numbins)).
  unfold tiles. simpl bin_starts. simpl bin_ends. simpl bin_medians.
  assert (Hstart : forall i s, map (edge lo w) (range numbins) !! i = Some s ->
            s = edge lo w (Z.of_nat i) /\ Z.of_nat i < numbins).
  { intros i s. rewrite list_lookup_fmap. unfold range, range2.
    destruct (seqZ 0 (numbins - 0) !! i) as [k|] eqn:Hk; [|done].
    apply lookup_seqZ in Hk as [-> Hk]. intros [= <-]. split; [done|lia]. }
  assert (Hend : forall i e, map (edge lo w) (range2 1 (numbins + 1)) !! i = Some e ->
            e = edge lo w (Z.of_nat i + 1)).
  { intros i e. rewrite list_lookup_fmap. unfold range2.
    destruct (seqZ 1 (numbins + 1 - 1) !! i) as [k|] eqn:Hk; [|done].
    apply lookup_seqZ in Hk as [-> Hk]. intros [= <-]. by rewrite Z.add_comm. }
  repeat split.
  - by rewrite length_map, length_range.
  - rewrite length_map. unfold range2. rewrite length_seqZ. f_equal. lia.
  - by rewrite length_map, length_range.
  - rewrite list_lookup_fmap, (lookup_range _ 0) by lia.
    simpl fmap. f_equal. apply edge_zero.
  - intros i s e [-> _]%Hstart ->%Hend. apply edge_succ.
  - intros i Hi. rewrite !list_lookup_fmap, lookup_range by lia.
    unfold range2. rewrite lookup_seqZ_lt by lia.
    by replace (1 + Z.of_nat i) with (Z.of_nat (S i)) by lia.
  - intros i s e Hs He. destruct (Hstart _ _ Hs) as [-> Hi].
    apply Hend in He as ->.
    by rewrite list_lookup_fmap, lookup_range by lia.
Qed.
End get_bins_exact.

Lemma get_bins_tiles_exact_witness :
  exists b, get_bins (F:=Qc) decimal_literal no_label default_freqRange default_numbins
            = Ok b
            /\ fullrange b = [Q2Qc (1 # 20); Q2Qc (19 # 20)]
            /\ tiles (Q2Qc (1 # 20)) (Q2Qc (19 # 20)) default_numbins b.
Proof.
  apply (get_bins_tiles_exact decimal_literal no_label ".05" ".95");
    [reflexivity | reflexivity | reflexivity | | ];
    unfold decimal_literal; simpl; f_equal; apply Qc_is_canon; reflexivity.
Defined.

(** C10 (as stated) fails in binary64 on the default arguments: bin 5
    ends at [0.05 + w*6] = 0.65000000000000002, one unit in the last place
    above [(0.05 + w*5) + w] = 0.64999999999999991. *)
Lemma get_bins_binary64_not_equal_width :
  exists b, get_bins (F:=float) decimal_literal no_label default_freqRange default_numbins
            = Ok b
            /\ fullrange b = [0.05%float; 0.95%float]
            /\ ~ tiles 0.05%float 0.95%float default_numbins b.
Proof.
  eexists. split; [vm_compute; reflexivity|]. split; [reflexivity|].
  intros (_ & _ & _ & _ & Hwidth & _).
  specialize (Hwidth 5%nat _ _ eq_refl eq_refl).
  apply (f_equal (fun x => PrimFloat.eqb x 0.65%float)) in Hwidth.
  vm_compute in Hwidth. discriminate.
Qed.

(** ** The proportions of the frequency spectrum *)

Lemma truediv_Qc (a b : Qc) : b <> Q2Qc 0 -> truediv a b = Ok (a / b)%Qc.
Proof. intros Hb. unfold truediv. simpl. by rewrite bool_decide_eq_false_2. Qed.

Lemma Qc_of_Z_eq_zero n : Qc_of_Z n = Q2Qc 0 <-> n = 0.
Proof. rewrite <-Z2Qc_inj_0. apply Z2Qc_inj_iff. Qed.

Lemma qsum_scaled (n : Qc) (l : list Z) :
  qsum (map (fun x => (Qc_of_Z x / n)%Qc) l) = (Qc_of_Z (zsum l) / n)%Qc.
Proof.
  induction l as [|x l IH]; simpl.
  - rewrite Z2Qc_inj_0. unfold Qcdiv. ring.
  - rewrite IH, Z2Qc_inj_add. unfold Qcdiv. ring.
Qed.

Lemma sfs_proportions_ok mafhist :
  zsum mafhist <> 0 ->
  sfs_proportions mafhist
  = Ok (map (fun x => (Qc_of_Z x / Qc_of_Z (zsum mafhist))%Qc) mafhist).
Proof.
  intros Hn. unfold sfs_proportions. apply comprehension_map.
  intros x _. apply truediv_Qc. by rewrite Qc_of_Z_eq_zero.
Qed.

(** C5: for a sample with at least one polymorphic site, the bin
    proportions of the frequency spectrum (every bin's count over the
    total count, lines 145-146 and 162-163) add up to one. *)
Theorem sfs_proportions_sum_to_one (mafhist : list Z) :
  zsum mafhist <> 0 ->
  exists sfs, sfs_proportions mafhist = Ok sfs
              /\ length sfs = length mafhist
              /\ qsum sfs = Q2Qc 1.
Proof.
  intros Hn. eexists. split; [by apply sfs_proportions_ok|].
  split; [by rewrite length_map|].
  rewrite qsum_scaled. apply Qcmult_inv_r. by rewrite Qc_of_Z_eq_zero.
Qed.

Lemma sfs_proportions_sum_to_one_witness :
  exists sfs, sfs_proportions [1; 2] = Ok sfs
              /\ length sfs = 2%nat /\ qsum sfs = Q2Qc 1.
Proof. apply (sfs_proportions_sum_to_one [1; 2]). vm_compute. discriminate. Defined.

(** An empty sample has no proportions: the total is zero. *)
Lemma sfs_proportions_no_sites (c : Z) (mafhist : list Z) :
  zsum (c :: mafhist) = 0 -> sfs_proportions (c :: mafhist) = Raise ZeroDivisionError.
Proof.
  intros Hz. unfold sfs_proportions. rewrite Hz. reflexivity.
Qed.

(** ** Nucleotide diversity *)

Lemma foldl_Qcplus (a : Qc) (l : list Qc) : foldl Qcplus a l = (a + qsum l)%Qc.
Proof.
  revert a. induction l as [|x l IH]; intros a; simpl.
  - ring.
  - rewrite IH. ring.
Qed.

Lemma py_sum_Qc (l : list Qc) : py_sum l = qsum l.
Proof.
  unfold py_sum. simpl fadd. rewrite foldl_Qcplus.
  change (float_of_int 0) with (Qc_of_Z 0). rewrite Z2Qc_inj_0. ring.
Qed.

Lemma zsum_all_zero (lens : list Z) : Forall (fun l => l = 0) lens -> zsum lens = 0.
Proof. induction 1 as [|l lens -> _ IH]; simpl; [done|]. by rewrite IH. Qed.

(** C6: the diversity estimate is the sum of the per-region numerators
    over the sum of the per-region lengths; on one region of length [L]
    with numerator [P] it is [P/L]; on the regions (2,100) and (4,200) it
    is 6/300 = 0.02; and when all sampled regions have length 0 the
    division by zero is raised, not coerced to a value. *)
Theorem estimatePi_weighted_mean (pis : list Qc) (lens : list Z) (P : Qc) (L : Z) :
  (zsum lens <> 0 ->
     estimatePi_spec pis lens = Ok (qsum pis / Qc_of_Z (zsum lens))%Qc)
  /\ (L <> 0 -> estimatePi_spec [P] [L] = Ok (P / Qc_of_Z L)%Qc)
  /\ estimatePi_spec [Qc_of_Z 2; Qc_of_Z 4] [100; 200] = Ok (Q2Qc (2 # 100))
  /\ (Forall (fun l => l = 0) lens ->
        estimatePi_spec pis lens = Raise ZeroDivisionError).
Proof.
  assert (Hgen : forall ps ls, zsum ls <> 0 ->
            estimatePi_spec ps ls = Ok (qsum ps / Qc_of_Z (zsum ls))%Qc).
  { intros ps ls Hl. unfold estimatePi_spec. rewrite py_sum_Qc.
    apply truediv_Qc. by rewrite Qc_of_Z_eq_zero. }
  repeat split.
  - apply Hgen.
  - intros HL. rewrite Hgen by (simpl; lia).
    replace (zsum [L]) with L by (simpl; lia).
    replace (qsum [P]) with P by (simpl; ring). done.
  - rewrite Hgen by (simpl; lia). f_equal. apply Qc_is_canon. reflexivity.
  - intros Hz. unfold estimatePi_spec. by rewrite (zsum_all_zero _ Hz).
Qed.

Lemma estimatePi_weighted_mean_witness :
  estimatePi_spec [Qc_of_Z 2; Qc_of_Z 4] [100; 200]
    = Ok (qsum [Qc_of_Z 2; Qc_of_Z 4] / Qc_of_Z (zsum [100; 200]))%Qc
  /\ estimatePi_spec [Qc_of_Z 3] [7] = Ok (Qc_of_Z 3 / Qc_of_Z 7)%Qc
  /\ estimatePi_spec [Qc_of_Z 2; Qc_of_Z 4] [0; 0] = Raise ZeroDivisionError.
Proof.
  destruct (estimatePi_weighted_mean [Qc_of_Z 2; Qc_of_Z 4] [100; 200] (Qc_of_Z 3) 7)
    as (Hmean & Hone & _ & _).
  destruct (estimatePi_weighted_mean [Qc_of_Z 2; Qc_of_Z 4] [0; 0] (Qc_of_Z 3) 7)
    as (_ & _ & _ & Hzero).
  split; [apply Hmean; vm_compute; discriminate|].
  split; [apply Hone; lia|].
  apply Hzero. repeat constructor.
Defined.

(** In binary64 too, 6/300 is the float that [0.02] denotes. *)
Example estimatePi_binary64 :
  exists x, estimatePi_spec (F:=float) [2%float; 4%float] [100; 200] = Ok x
            /\ PrimFloat.eqb x 0.02%float = true.
Proof. eexists. split; vm_compute; reflexivity. Qed.

(** ** Ratios per bin: ancestral proportions, r2 decay and D' decay *)

Lemma ratios_offset (pre_s : list Qc) (pre_c : list Z) sums counts :
  length pre_s = length pre_c ->
  (length sums <= length counts)%nat ->
  comprehension
    (fun u => a <-- subscript (pre_s ++ sums) u ;;
              c <-- subscript (pre_c ++ counts) u ;;
              truediv a (float_of_int c))
    (seqZ (len pre_s) (len sums))
  = comprehension ratio (zip sums counts).
Proof.
  revert pre_s pre_c counts.
  induction sums as [|a sums IH]; intros pre_s pre_c counts Hpre Hlen; [done|].
  destruct counts as [|c counts]; [simpl in Hlen; lia|].
  unfold len in *. rewrite seqZ_cons by (simpl; lia). simpl comprehension.
  rewrite (subscript_nat _ _ a) by (by rewrite lookup_app_r, Nat.sub_diag).
  rewrite Hpre.
  rewrite (subscript_nat _ _ c) by (by rewrite lookup_app_r, Nat.sub_diag).
  simpl rbind. unfold ratio at 1. simpl fst. simpl snd.
  specialize (IH (pre_s ++ [a]) (pre_c ++ [c]) counts).
  rewrite <-!(assoc_L (++)) in IH. simpl in IH.
  rewrite !length_app in IH. simpl in IH.
  replace (Z.succ (Z.of_nat (length pre_c))) with (Z.of_nat (length pre_s + 1)) by lia.
  simpl length. rewrite Nat2Z.inj_succ, Z.pred_succ.
  rewrite IH; [done|lia|simpl in Hlen; lia].
Qed.

Lemma ratios_zip sums counts :
  (length sums <= length counts)%nat ->
  ratios sums counts (range (len sums)) = comprehension ratio (zip sums counts).
Proof.
  intros Hlen. unfold ratios, range, range2. rewrite Z.sub_0_r.
  by apply (ratios_offset [] []).
Qed.

Lemma comprehension_ratio_nonzero (sc : list (Qc * Z)) :
  Forall (fun ac => ac.2 <> 0) sc ->
  comprehension ratio sc = Ok (map (fun ac => (ac.1 / Qc_of_Z ac.2)%Qc) sc).
Proof.
  intros Hnz. apply comprehension_map. intros ac Hac.
  apply truediv_Qc. rewrite Qc_of_Z_eq_zero.
  by apply (proj1 (Forall_forall _ _) Hnz).
Qed.

Lemma comprehension_ratio_zero (sc : list (Qc * Z)) :
  Exists (fun ac => ac.2 = 0) sc ->
  comprehension ratio sc = Raise ZeroDivisionError.
Proof.
  induction sc as [|[a c] sc IH]; intros Hex; [by apply Exists_nil in Hex|].
  simpl comprehension. destruct (decide (c = 0)) as [->|Hc]; [done|].
  unfold ratio at 1. simpl fst. simpl snd.
  rewrite truediv_Qc by (by rewrite Qc_of_Z_eq_zero). simpl rbind.
  apply Exists_cons in Hex as [Hex|Hex]; [done|]. by rewrite IH.
Qed.

Lemma pseudocount_nonzero (hist : list Z) : Forall (fun c => c <> 0) (pseudocount hist).
Proof.
  apply Forall_forall. intros c (c0 & -> & _)%list_elem_of_fmap.
  by case_decide.
Qed.

(** With the pseudo-count the ratio of every bin is defined; a bin with
    count 0 is divided by 1, so an empty bin with sum 0 has estimate 0. *)
Lemma ratios_pseudocount (sums : list Qc) (counts : list Z) :
  (length sums <= length counts)%nat ->
  ratios sums (pseudocount counts) (range (len sums))
  = Ok (zip_with (fun a c => if decide (c = 0) then a else (a / Qc_of_Z c)%Qc)
          sums counts).
Proof.
  intros Hlen. rewrite ratios_zip by (unfold pseudocount; by rewrite length_map).
  rewrite comprehension_ratio_nonzero; last first.
  { apply Forall_forall. intros [a c] Hac%elem_of_zip_r. simpl.
    by apply (proj1 (Forall_forall _ _) (pseudocount_nonzero counts)). }
  f_equal. clear Hlen. revert counts.
  induction sums as [|a sums IH]; intros [|c counts]; simpl; try done.
  rewrite IH. f_equal. case_decide; [|done].
  rewrite Z2Qc_inj_1. apply (right_id 1%Qc Qcdiv).
Qed.

(** Without it an empty bin is a division by zero. *)
Lemma ratios_empty_bin (sums : list Qc) (counts : list Z) (u : nat) :
  length sums = length counts ->
  counts !! u = Some 0 ->
  ratios sums counts (range (len sums)) = Raise ZeroDivisionError.
Proof.
  intros Hlen Hu. rewrite ratios_zip by lia.
  apply comprehension_ratio_zero, Exists_exists.
  destruct (lookup_lt_is_Some_2 sums u) as [a Ha].
  { rewrite Hlen. by eapply lookup_lt_Some. }
  exists (a, 0). split; [|done].
  apply list_elem_of_lookup. exists u. by rewrite lookup_zip_with, Ha, Hu.
Qed.

Lemma ratios_all_filled (sums : list Qc) (counts : list Z) :
  length sums = length counts ->
  Forall (fun c => c <> 0) counts ->
  ratios sums counts (range (len sums))
  = Ok (zip_with (fun a c => (a / Qc_of_Z c)%Qc) sums counts).
Proof.
  intros Hlen Hnz. rewrite ratios_zip by lia.
  rewrite comprehension_ratio_nonzero.
  - f_equal. clear. revert counts.
    induction sums as [|a sums IH]; intros [|c counts]; simpl; try done.
    by rewrite IH.
  - apply Forall_forall. intros [a c] Hac%elem_of_zip_r. simpl.
    by apply (proj1 (Forall_forall _ _) Hnz).
Qed.

(** ** Running a computation *)

Lemma mbind_ok {A B} (m : M A) (k : A -> M B) w a w' :
  m w = (Finished (Ok a), w') -> mbind m k w = k a w'.
Proof. unfold mbind. by intros ->. Qed.

Lemma mbind_inv {A B} (m : M A) (k : A -> M B) w b w2 :
  mbind m k w = (Finished (Ok b), w2) ->
  exists a w1, m w = (Finished (Ok a), w1) /\ k a w1 = (Finished (Ok b), w2).
Proof.
  unfold mbind. destruct (m w) as [[[a|e]|] w1]; try done. eauto.
Qed.

Lemma mret_inv {A} (a b : A) w w' :
  mret a w = (Finished (Ok b), w') -> b = a /\ w' = w.
Proof. by intros [= -> ->]. Qed.

Lemma global_inv {A} name (binding : option A) w a w' :
  global name binding w = (Finished (Ok a), w') -> binding = Some a /\ w' = w.
Proof. destruct binding; [by intros [= -> ->]|done]. Qed.

Lemma local_inv {A} name (binding : option A) w a w' :
  local name binding w = (Finished (Ok a), w') -> binding = Some a /\ w' = w.
Proof. destruct binding; [by intros [= -> ->]|done]. Qed.

Lemma lift_inv {A} (r : result A) w a w' :
  lift r w = (Finished (Ok a), w') -> r = Ok a /\ w' = w.
Proof. by intros [= -> ->]. Qed.

Lemma write_inv f s w u w' :
  write f s w = (Finished (Ok u), w') ->
  w' = World (report w ++ [(f, s)]) (outside w).
Proof. by intros [= _ <-]. Qed.

(** Take a successful run apart, statement by statement. *)
Ltac inv_run :=
  repeat match goal with
  | H : mbind _ _ _ = (Finished (Ok _), _) |- _ =>
      let a := fresh "v" in let w := fresh "w" in let Ha := fresh "Hrun" in
      apply mbind_inv in H as (a & w & Ha & H)
  | H : mret _ _ = (Finished (Ok _), _) |- _ => apply mret_inv in H as [? ?]; simplify_eq
  | H : global _ _ _ = (Finished (Ok _), _) |- _ =>
      let Hb := fresh "Hbound" in apply global_inv in H as [Hb ?]; subst
  | H : local _ _ _ = (Finished (Ok _), _) |- _ =>
      let Hb := fresh "Hbound" in apply local_inv in H as [Hb ?]; subst
  | H : lift _ _ = (Finished (Ok _), _) |- _ =>
      let Hb := fresh "Hpure" in apply lift_inv in H as [Hb ?]; subst
  | H : write _ _ _ = (Finished (Ok _), _) |- _ => apply write_inv in H; subst
  end.

Lemma for_each_invariant {A St} (I : nat -> St -> Prop) (xs : list A)
    (body : A -> St -> M St) s w s' w' :
  I O s ->
  (forall n x s w s1 w1,
     I n s -> body x s w = (Finished (Ok s1), w1) -> I (S n) s1) ->
  for_each xs body s w = (Finished (Ok s'), w') ->
  I (length xs) s'.
Proof.
  intros H0 Hstep.
  assert (Hgen : forall k s w, I k s ->
            for_each xs body s w = (Finished (Ok s'), w') -> I (k + length xs)%nat s').
  { induction xs as [|x xs IH]; intros k s0 w0 Hk Hrun; simpl in *.
    - apply mret_inv in Hrun as [-> _]. by rewrite Nat.add_0_r.
    - apply mbind_inv in Hrun as (s1 & w1 & Hbody & Hrun).
      rewrite <-Nat.add_succ_comm. eapply IH; [|done]. by eapply Hstep. }
  intros Hrun. by apply (Hgen 0%nat s w).
Qed.

Lemma while_invariant {St} (I : nat -> St -> Prop) fuel
    (cond : St -> M bool) (body : St -> M St) s w s' w' :
  I O s ->
  (forall n s w w1 s1 w2,
     I n s -> cond s w = (Finished (Ok true), w1) ->
     body s w1 = (Finished (Ok s1), w2) -> I (S n) s1) ->
  while fuel cond body s w = (Finished (Ok s'), w') ->
  exists n w0 w1, I n s' /\ cond s' w0 = (Finished (Ok false), w1).
Proof.
  intros H0 Hstep.
  assert (Hgen : forall k s w, I k s ->
            while fuel cond body s w = (Finished (Ok s'), w') ->
            exists n w0 w1, I n s' /\ cond s' w0 = (Finished (Ok false), w1)).
  { induction fuel as [|fuel IH]; intros k s0 w0 Hk Hrun; [done|].
    simpl in Hrun. apply mbind_inv in Hrun as ([] & w1 & Hcond & Hrun).
    - apply mbind_inv in Hrun as (s1 & w2 & Hbody & Hrun).
      eapply (IH (S k)); [|done]. by eapply Hstep.
    - apply mret_inv in Hrun as [-> ->]. eauto. }
  intros Hrun. by apply (Hgen 0%nat s w).
Qed.

Lemma rbind_inv {A B} (r : result A) (k : A -> result B) b :
  rbind r k = Ok b -> exists a, r = Ok a /\ k a = Ok b.
Proof. destruct r; [eauto|done]. Qed.

Lemma subscript_inv {A} (l : list A) (i : Z) x :
  0 <= i -> subscript l i = Ok x -> l !! Z.to_nat i = Some x.
Proof.
  intros Hi. unfold subscript. cbv zeta. repeat case_decide; try lia; try done.
  by destruct (l !! Z.to_nat i); intros [= ->].
Qed.

Lemma rfold_invariant {A St} (I : nat -> St -> Prop) (xs : list A)
    (body : A -> St -> result St) s s' :
  I O s ->
  (forall k x s s1, xs !! k = Some x -> I k s -> body x s = Ok s1 -> I (S k) s1) ->
  rfold xs body s = Ok s' ->
  I (length xs) s'.
Proof.
  revert I s. induction xs as [|x xs IH]; intros I s H0 Hstep Hrun; simpl in *.
  - by injection Hrun as <-.
  - apply rbind_inv in Hrun as (s1 & Hbody & Hrun).
    apply (IH (fun k => I (S k)) s1); [|naive_solver|done].
    by apply (Hstep 0%nat x s).
Qed.

(** ** Recording one replicate in the table of bins *)

Lemma record_bins_inv table values nbins table' :
  record_bins table values nbins = Ok table' ->
  length table' = length table
  /\ (forall i, (i < Z.to_nat nbins)%nat ->
        exists bin v, table !! i = Some bin /\ values !! i = Some v
                      /\ table' !! i = Some (bin ++ [v]))
  /\ (forall i, (Z.to_nat nbins <= i)%nat -> table' !! i = table !! i).
Proof.
  unfold record_bins. intros Hrun.
  rewrite <-(length_range nbins).
  eapply (rfold_invariant
    (fun k t => length t = length table
      /\ (forall i, (i < k)%nat ->
            exists bin v, table !! i = Some bin /\ values !! i = Some v
                          /\ t !! i = Some (bin ++ [v]))
      /\ (forall i, (k <= i)%nat -> t !! i = table !! i))); [| |exact Hrun].
  - split; [done|]. split; [lia|done].
  - intros k x t t1 Hx (Hlen & Hlow & Hhigh) Hstep.
    unfold range, range2 in Hx. apply lookup_seqZ in Hx as [-> Hk].
    rewrite Z.add_0_l in Hstep.
    apply rbind_inv in Hstep as (bin & Hbin%subscript_inv & Hstep); [|lia].
    apply rbind_inv in Hstep as (v & Hv%subscript_inv & [= <-]); [|lia].
    rewrite Nat2Z.id in *.
    pose proof (lookup_lt_Some _ _ _ Hbin) as Hlt.
    split; [by rewrite length_insert|]. split.
    + intros i Hi. destruct (decide (i = k)) as [->|Hne].
      * exists bin, v. rewrite <-Hhigh, Hbin by lia.
        by rewrite list_lookup_insert_eq.
      * rewrite list_lookup_insert_ne by done. apply Hlow. lia.
    + intros i Hi. rewrite list_lookup_insert_ne by lia. apply Hhigh. lia.
Qed.

(** A replicate adds exactly one value to each of the bins. *)
Lemma record_bins_lengths table values nbins table' n :
  length table = Z.to_nat nbins ->
  Forall (fun bin => length bin = n) table ->
  record_bins table values nbins = Ok table' ->
  length table' = Z.to_nat nbins /\ Forall (fun bin => length bin = S n) table'.
Proof.
  intros Hlen Hall (Hlen' & Hlow & _)%record_bins_inv.
  split; [congruence|]. apply Forall_lookup. intros i bin' Hi.
  destruct (Hlow i) as (bin & v & Hbin & _ & Hnew).
  { apply lookup_lt_Some in Hi. lia. }
  assert (bin' = bin ++ [v]) as -> by congruence.
  rewrite length_app. simpl.
  rewrite (proj1 (Forall_lookup _ _) Hall i bin Hbin). lia.
Qed.

Lemma empty_bins_lengths n :
  length (empty_bins n) = Z.to_nat n
  /\ Forall (fun bin => length bin = O) (empty_bins n).
Proof.
  unfold empty_bins. split; [apply length_replicate|].
  apply Forall_forall. by intros bin ->%elem_of_replicate_inv.
Qed.

(** ** The standard error *)

(** The radicands are not negative, so that two standard deviations
    stand for the same real number only if their radicands are equal. *)
Lemma square_nonneg (x : Qc) : (0 <= x * x)%Qc.
Proof.
  destruct (Qclt_le_dec x 0) as [Hneg|Hpos].
  - replace (x * x)%Qc with ((- x) * (- x))%Qc by ring.
    assert (0 <= - x)%Qc.
    { apply Qclt_le_weak in Hneg. apply Qcle_minus_iff in Hneg.
      by rewrite Qcplus_0_l in Hneg. }
    by apply Qcmult_nonneg_nonneg.
  - by apply Qcmult_nonneg_nonneg.
Qed.

Lemma sq_dev_nonneg (l : list Qc) : (0 <= sq_dev l)%Qc.
Proof.
  unfold sq_dev. generalize (qmean l) as m. intros m.
  induction l as [|x l IH]; simpl; [done|].
  apply Qcplus_nonneg_nonneg; [apply square_nonneg|apply IH].
Qed.

Lemma quotient_nonneg (a : Qc) (n : Z) : (0 <= a)%Qc -> 0 < n -> (0 <= a / Qc_of_Z n)%Qc.
Proof.
  intros Ha Hn. unfold Qcdiv. apply Qcmult_nonneg_nonneg; [done|].
  apply Qclt_le_weak, Qcinv_pos.
  apply (proj1 (Z2Qc_inj_lt 0 n)) in Hn. by rewrite Z2Qc_inj_0 in Hn.
Qed.

Lemma np_std_radicand (l : list Qc) (q : Qc) : np_std l = Sqrt q -> (0 <= q)%Qc.
Proof.
  destruct l as [|x l]; [done|]. intros [= <-].
  apply quotient_nonneg; [apply sq_dev_nonneg|simpl; lia].
Qed.

Lemma sample_std_radicand (l : list Qc) (q : Qc) : sample_std l = Sqrt q -> (0 <= q)%Qc.
Proof.
  destruct l as [|x [|y l]]; [done..|]. intros [= <-].
  apply quotient_nonneg; [apply sq_dev_nonneg|simpl; lia].
Qed.

Lemma real_value_inj (a b : Qc) :
  (0 <= a)%Qc -> (0 <= b)%Qc ->
  real_value (Sqrt a) = real_value (Sqrt b) -> a = b.
Proof.
  intros Ha Hb [= Hsqrt]. apply Qc_is_canon, eqR_Qeq, sqrt_inj; [| |done].
  - replace 0%R with (Q2R 0) by (unfold Q2R; simpl; lra). by apply Qle_Rle.
  - replace 0%R with (Q2R 0) by (unfold Q2R; simpl; lra). by apply Qle_Rle.
Qed.

(** The standard deviation of a single value is zero. *)
Lemma np_std_single (x : Qc) : np_std [x] = Sqrt (Q2Qc 0).
Proof.
  unfold np_std, sq_dev, qmean. cbn [length map qsum foldr]. f_equal.
  change (Qc_of_Z (Z.of_nat 1)) with (Qc_of_Z 1). rewrite Z2Qc_inj_1.
  rewrite !(right_id 1%Qc Qcdiv). ring.
Qed.


Lemma std_of_bins_acc G tables acc w ses w' :
  for_each tables
    (fun x acc => _ <~ global "np" (g_np G) ;; mret (acc ++ [np_std x])) acc w
  = (Finished (Ok ses), w') ->
  ses = acc ++ map np_std tables.
Proof.
  revert w acc. induction tables as [|x tables IH]; intros w acc Hrun; simpl in Hrun.
  - apply mret_inv in Hrun as [-> _]. simpl. by rewrite (right_id_L [] (++)).
  - apply mbind_inv in Hrun as (acc1 & w1 & Hstep & Hrun). inv_run.
    apply IH in Hrun as ->. by rewrite <-(assoc_L (++)).
Qed.

Lemma std_of_bins_inv G tables w ses w' :
  std_of_bins G tables w = (Finished (Ok ses), w') -> ses = map np_std tables.
Proof. apply std_of_bins_acc. Qed.

Lemma more_replicates_inv R table w b w' :
  more_replicates R table w = (Finished (Ok b), w') ->
  exists first, table !! 0%nat = Some first /\ b = bool_decide (len first < R).
Proof.
  unfold more_replicates. intros Hrun. inv_run.
  match goal with H : subscript _ _ = Ok _ |- _ => apply subscript_inv in H; [|done] end.
  eauto.
Qed.

(** The table a [while] loop of the LD statistics leaves behind has
    [nbootstraprep] values in each of its [nbins] bins. *)
Lemma while_table_filled R nbins fuel body w table w' :
  (forall n t w1 t1 w2, filled nbins n t ->
     body t w1 = (Finished (Ok t1), w2) -> filled nbins (S n) t1) ->
  while fuel (more_replicates R) body (empty_bins nbins) w = (Finished (Ok table), w') ->
  filled nbins (Z.to_nat R) table.
Proof.
  intros Hbody Hrun.
  apply (while_invariant (fun n t => filled nbins n t /\ Z.of_nat n <= Z.max R 0))
    in Hrun as (n & w0 & w1 & [Hfill Hn] & Hcond).
  - apply more_replicates_inv in Hcond as (first & Hfirst & Hstop).
    symmetry in Hstop. apply bool_decide_eq_false in Hstop.
    destruct Hfill as [Hlen Hall].
    pose proof (proj1 (Forall_lookup _ _) Hall _ _ Hfirst) as Hfirst_len.
    simpl in Hfirst_len. unfold len in Hstop. replace (Z.to_nat R) with n by lia. by split.
  - split; [|lia]. split; apply empty_bins_lengths.
  - intros n t w0 w1 t1 w2 [Hfill Hn] Hcond Hstep. split; [by eapply Hbody|].
    apply more_replicates_inv in Hcond as (first & Hfirst & Hgo).
    symmetry in Hgo. apply bool_decide_eq_true in Hgo.
    destruct Hfill as [Hlen Hall].
    pose proof (proj1 (Forall_lookup _ _) Hall _ _ Hfirst) as Hfirst_len.
    simpl in Hfirst_len. unfold len in Hgo. lia.
Qed.

Ltac same_binding :=
  repeat match goal with
  | H1 : ?x = Some ?a, H2 : ?x = Some ?b |- _ =>
      assert (b = a) by congruence; subst b; clear H2
  end.

Section standard_error.
Context (BF : bootstrap_func) (G : globals).
Context {float_str : PyStr Qc} {std_str : PyStr stdval}.
Variable fuel : nat.
Variable R : Z.

Lemma pi_block_inv w mean ests se w' :
  pi_block BF G R w = (Finished (Ok (mean, ests, se)), w') ->
  length ests = Z.to_nat R /\ se = np_std ests.
Proof.
  unfold pi_block. intros Hrun. inv_run.
  split; [|done]. rewrite <-length_range.
  match goal with H : for_each _ _ _ _ = _ |- _ =>
    apply (for_each_invariant (fun n (l : list Qc) => length l = n)) in H; [done..|]
  end.
  intros n j l w1 l1 w2 Hl Hstep. inv_run. rewrite length_app. simpl. lia.
Qed.

Lemma sfs_block_inv w res w' :
  sfs_block BF G R w = (Finished (Ok res), w') ->
  exists nhist,
    filled nhist (Z.to_nat R) (sfs_table res) /\ sfs_se res = map np_std (sfs_table res)
    /\ filled nhist (Z.to_nat R) (anc_table res) /\ anc_se res = map np_std (anc_table res).
Proof.
  unfold sfs_block. intros Hrun. inv_run. same_binding.
  repeat match goal with H : std_of_bins _ _ _ = _ |- _ => apply std_of_bins_inv in H end.
  subst. simpl.
  match goal with Hn : g_nhist G = Some ?nh, H : for_each _ _ _ _ = _ |- _ =>
    exists nh;
    apply (for_each_invariant (fun n (t : list (list Qc) * list (list Qc)) =>
             filled nh n t.1 /\ filled nh n t.2)) in H
  end.
  - match goal with H : filled _ (length (range R)) _ /\ _ |- _ =>
      rewrite length_range in H; destruct H as [? ?] end.
    done.
  - simpl. split; split; apply empty_bins_lengths.
  - intros n j t w1 t1 w2 [[Hl1 Ha1] [Hl2 Ha2]] Hstep. inv_run. same_binding. simpl.
    split; [eapply (record_bins_lengths t.1)|eapply (record_bins_lengths t.2)]; eauto.
Qed.

Lemma r2_block_inv w mean table ses w' :
  r2_block BF G fuel R w = (Finished (Ok (mean, table, ses)), w') ->
  exists nbins, filled nbins (Z.to_nat R) table /\ ses = map np_std table.
Proof.
  unfold r2_block. intros Hrun. inv_run.
  match goal with H : std_of_bins _ _ _ = _ |- _ => apply std_of_bins_inv in H as -> end.
  match goal with H : g_nphysdisthist G = Some ?n |- _ => exists n; rename H into Hbins end.
  split; [|done].
  match goal with H : while _ _ _ _ _ = _ |- _ => eapply while_table_filled; [|exact H] end.
  intros n t w1 t1 w2 [Hlen Hall] Hstep. inv_run. same_binding.
  eapply record_bins_lengths; eauto.
Qed.

Lemma dprime_block_inv w mean table ses w' :
  dprime_block BF G fuel R w = (Finished (Ok (mean, table, ses)), w') ->
  exists nbins, filled nbins (Z.to_nat R) table /\ ses = map np_std table.
Proof.
  unfold dprime_block. intros Hrun. inv_run.
  match goal with H : std_of_bins _ _ _ = _ |- _ => apply std_of_bins_inv in H as -> end.
  match goal with H : g_ngendisthist G = Some ?n |- _ => exists n; rename H into Hbins end.
  split; [|done].
  match goal with H : while _ _ _ _ _ = _ |- _ => eapply while_table_filled; [|exact H] end.
  intros n t w1 t1 w2 [Hlen Hall] Hstep. inv_run. same_binding.
  eapply record_bins_lengths; eauto.
Qed.

End standard_error.

(** The standard deviation that numpy computes by default is not the
    sample standard deviation with divisor [n - 1]: of the values 0 and 2
    it is 1 and not the square root of 2, and of a single value it is 0
    and not undefined. *)
Lemma np_std_is_not_sample_std :
  np_std [Qc_of_Z 0; Qc_of_Z 2] = Sqrt (Qc_of_Z 1)
  /\ sample_std [Qc_of_Z 0; Qc_of_Z 2] = Sqrt (Qc_of_Z 2)
  /\ real_value (np_std [Qc_of_Z 0; Qc_of_Z 2])
     <> real_value (sample_std [Qc_of_Z 0; Qc_of_Z 2])
  /\ (forall x, np_std [x] = Sqrt (Q2Qc 0) /\ sample_std [x] = NaN).
Proof.
  assert (Hnp : np_std [Qc_of_Z 0; Qc_of_Z 2] = Sqrt (Qc_of_Z 1)) by compute_done.
  assert (Hsample : sample_std [Qc_of_Z 0; Qc_of_Z 2] = Sqrt (Qc_of_Z 2)) by compute_done.
  split; [done|]. split; [done|]. split.
  - rewrite Hnp, Hsample. intros Heq.
    apply real_value_inj in Heq; [|compute_done|compute_done].
    apply Z2Qc_inj in Heq. discriminate.
  - intros x. split; [apply np_std_single|done].
Qed.

(** ** The proportions and the empty bins, inside the run *)

Lemma sfs_proportions_inv mafhist sfs :
  sfs_proportions mafhist = Ok sfs -> sfs <> [] -> qsum sfs = Q2Qc 1.
Proof.
  intros Hrun Hne. destruct mafhist as [|c mafhist].
  { injection Hrun as <-. done. }
  destruct (decide (zsum (c :: mafhist) = 0)) as [Hz|Hz].
  { by rewrite sfs_proportions_no_sites in Hrun. }
  rewrite sfs_proportions_ok in Hrun by done. injection Hrun as <-.
  change (qsum (map (fun x => (Qc_of_Z x / Qc_of_Z (zsum (c :: mafhist)))%Qc)
                  (c :: mafhist)) = Q2Qc 1).
  rewrite qsum_scaled. apply Qcmult_inv_r. by rewrite Qc_of_Z_eq_zero.
Qed.

(** The proportions that [execute_bootstrap] writes as the mean of the
    spectrum add up to one. *)
Lemma sfs_block_mean_sums_to_one BF G
    {float_str : PyStr Qc} {std_str : PyStr stdval} R w res w' :
  sfs_block BF G R w = (Finished (Ok res), w') ->
  sfs_mean res <> [] -> qsum (sfs_mean res) = Q2Qc 1.
Proof.
  unfold sfs_block. intros Hrun. inv_run. simpl. by eapply sfs_proportions_inv.
Qed.

(** Whatever the data, an empty distance bin in the full sample stops the
    r2 decay at its mean (line 195), before anything of it is written. *)
Lemma r2_block_empty_bin BF G
    {float_str : PyStr Qc} {std_str : PyStr stdval} fuel R w
    values dists sums counts (u : nat) :
  g_allRegionr2 G = Some values -> g_allRegionDists G = Some dists ->
  estimater2decay BF (Regions values) (Regions dists) = Ok (sums, counts) ->
  length sums = length counts ->
  counts !! u = Some 0 ->
  r2_block BF G fuel R w = (Finished (Raise ZeroDivisionError), w).
Proof.
  intros Hvalues Hdists Hhist Hlen Hu. unfold r2_block.
  rewrite Hvalues, Hdists. cbv [global mbind mret lift]. rewrite Hhist. simpl.
  by rewrite (ratios_empty_bin sums counts u).
Qed.

(** ** Resampling *)

Lemma for_each_ext {A St} (xs : list A) (body1 body2 : A -> St -> M St) s w :
  (forall x s w, body1 x s w = body2 x s w) ->
  for_each xs body1 s w = for_each xs body2 s w.
Proof.
  intros Hext. revert s w. induction xs as [|x xs IH]; intros s w; [done|].
  simpl. unfold mbind. rewrite Hext. by destruct (body2 x s w) as [[[s1|e]|] w1].
Qed.

Lemma subscript_in_range {A} (l : list A) (i : Z) :
  0 <= i < len l -> exists x, subscript l i = Ok x /\ x ∈ l.
Proof.
  intros Hi. unfold len in Hi.
  destruct (lookup_lt_is_Some_2 l (Z.to_nat i)) as [x Hx]; [lia|].
  exists x. split; [|by eapply list_elem_of_lookup_2].
  rewrite <-(Z2Nat.id i) by lia. by apply subscript_nat.
Qed.

Lemma after_draws_0 w : after_draws 0 w = w.
Proof. destruct w as [r [o d f]]. unfold after_draws. simpl. by rewrite Nat.add_0_r. Qed.

Lemma after_draws_S n w :
  after_draws n (World (report w)
                  (Ext (stdout (outside w)) (S (draws (outside w))) (opened (outside w))))
  = after_draws (S n) w.
Proof. unfold after_draws. simpl. do 2 f_equal. lia. Qed.

Lemma pick_pair_run {A B} (rng : nat -> Z) (pop1 : list A) (pop2 : list B) rep w :
  (length pop1 <= length pop2)%nat ->
  pop1 <> [] ->
  exists x y,
    pick_pair rng (len pop1) pop1 pop2 rep w
    = (Finished (Ok (rep.1 ++ [x], rep.2 ++ [y])),
       World (report w)
         (Ext (stdout (outside w)) (S (draws (outside w))) (opened (outside w))))
    /\ x ∈ pop1 /\ y ∈ pop2.
Proof.
  intros Hlen Hne.
  assert (Hpos : 0 < len pop1).
  { unfold len. destruct pop1; [done|simpl; lia]. }
  set (index := 0 + rng (draws (outside w)) mod (len pop1 - 1 - 0 + 1)).
  assert (Hindex : 0 <= index < len pop1).
  { subst index. replace (len pop1 - 1 - 0 + 1) with (len pop1) by lia.
    pose proof (Z.mod_pos_bound (rng (draws (outside w))) (len pop1) Hpos). lia. }
  destruct (subscript_in_range pop1 index Hindex) as (x & Hx & Hxin).
  destruct (subscript_in_range pop2 index) as (y & Hy & Hyin).
  { unfold len in *. lia. }
  exists x, y. split; [|done].
  unfold pick_pair, mbind, randint. rewrite decide_False by lia.
  fold index. unfold lift. by rewrite Hx, Hy.
Qed.

(** Every pass of the loop draws one member of the population, so the
    resample has as many members as the loop has passes. *)
Lemma pick_loop {A B} (rng : nat -> Z) (pop1 : list A) (pop2 : list B)
    (passes : list Z) acc w :
  (length pop1 <= length pop2)%nat ->
  (passes <> [] -> pop1 <> []) ->
  exists r1 r2,
    for_each passes (fun _ rep => pick_pair rng (len pop1) pop1 pop2 rep) acc w
    = (Finished (Ok (acc.1 ++ r1, acc.2 ++ r2)), after_draws (length passes) w)
    /\ length r1 = length passes /\ length r2 = length passes
    /\ Forall (fun x => x ∈ pop1) r1 /\ Forall (fun y => y ∈ pop2) r2.
Proof.
  intros Hlen Hne. revert acc w.
  induction passes as [|k passes IH]; intros acc w.
  - exists [], []. simpl. rewrite !(right_id_L [] (++)), after_draws_0.
    by destruct acc.
  - assert (Hpop : pop1 <> []) by (by apply Hne).
    destruct (pick_pair_run rng pop1 pop2 acc w Hlen Hpop) as (x & y & Hpick & Hx & Hy).
    simpl for_each. rewrite (mbind_ok _ _ _ _ _ Hpick).
    destruct (IH (fun _ => Hpop) (acc.1 ++ [x], acc.2 ++ [y])
                (World (report w)
                   (Ext (stdout (outside w)) (S (draws (outside w))) (opened (outside w)))))
      as (r1 & r2 & Hrun & Hl1 & Hl2 & Hin1 & Hin2).
    exists (x :: r1), (y :: r2). rewrite Hrun, after_draws_S. simpl.
    rewrite <-!(assoc_L (++)). simpl.
    repeat split; try (f_equal; done); by constructor.
Qed.

Lemma resample_regions_run G rng pis lens w :
  g_random G = Some rng ->
  g_allRegionPI G = Some pis -> g_allseqlens G = Some lens ->
  g_totalregions G = Some (len pis) ->
  length lens = length pis ->
  exists rep,
    resample_regions G w = (Finished (Ok rep), after_draws (length pis) w)
    /\ length rep.1 = length pis /\ length rep.2 = length pis
    /\ Forall (fun x => x ∈ pis) rep.1 /\ Forall (fun y => y ∈ lens) rep.2.
Proof.
  intros Hrng Hpis Hlens Htotal Hlen. unfold resample_regions.
  rewrite Htotal, Hrng, Hpis, Hlens.
  unfold global at 1. unfold mbind at 1. unfold mret at 1.
  rewrite (for_each_ext _ _ (fun _ rep => pick_pair rng (len pis) pis lens rep));
    last first.
  { intros k rep w0. reflexivity. }
  destruct (pick_loop rng pis lens (range (len pis)) ([], []) w)
    as (r1 & r2 & Hrun & Hl1 & Hl2 & Hin1 & Hin2); [lia| |].
  { destruct pis; [|done]. by intros []. }
  rewrite length_range in *. unfold len in *. rewrite Nat2Z.id in *.
  exists (r1, r2). by rewrite Hrun.
Qed.

Lemma resample_sites_run G rng (der anc : list (list Z)) w :
  g_random G = Some rng ->
  g_allRegionDER G = Some der -> g_allRegionANC G = Some anc ->
  g_nsnps G = Some (len (flattenList der)) ->
  length (flattenList anc) = length (flattenList der) ->
  exists rep,
    resample_sites G w
    = (Finished (Ok rep), after_draws (length (flattenList der)) w)
    /\ length rep.1 = length (flattenList der)
    /\ length rep.2 = length (flattenList der)
    /\ Forall (fun x => x ∈ flattenList der) rep.1
    /\ Forall (fun y => y ∈ flattenList anc) rep.2.
Proof.
  intros Hrng Hder Hanc Hnsnps Hlen. unfold resample_sites.
  rewrite Hanc, Hder, Hnsnps, Hrng.
  unfold global at 1 2 3. unfold mbind at 1 2 3. unfold mret at 1 2 3.
  rewrite (for_each_ext _ _
    (fun _ rep => pick_pair rng (len (flattenList der))
                    (flattenList der) (flattenList anc) rep)); last first.
  { intros k rep w0. reflexivity. }
  destruct (pick_loop rng (flattenList der) (flattenList anc)
              (range (len (flattenList der))) ([], []) w)
    as (r1 & r2 & Hrun & Hl1 & Hl2 & Hin1 & Hin2); [lia| |].
  { destruct (flattenList der); [|done]. by intros []. }
  rewrite length_range in *. unfold len in *. rewrite Nat2Z.id in *.
  exists (r1, r2). by rewrite Hrun.
Qed.

Lemma resample_pairs_run G rng name1 name2 (values dists : list (list Qc)) w :
  g_random G = Some rng ->
  length (flattenList dists) = length (flattenList values) ->
  exists rep,
    resample_pairs G name1 name2 (Some values) (Some dists) w
    = (Finished (Ok rep), after_draws (length (flattenList values)) w)
    /\ length rep.1 = length (flattenList values)
    /\ length rep.2 = length (flattenList values)
    /\ Forall (fun x => x ∈ flattenList values) rep.1
    /\ Forall (fun y => y ∈ flattenList dists) rep.2.
Proof.
  intros Hrng Hlen. unfold resample_pairs. rewrite Hrng.
  unfold global at 1 2. unfold mbind at 1 2. unfold mret at 1 2.
  rewrite (for_each_ext _ _
    (fun _ rep => pick_pair rng (len (flattenList values))
                    (flattenList values) (flattenList dists) rep)); last first.
  { intros k rep w0. reflexivity. }
  destruct (pick_loop rng (flattenList values) (flattenList dists)
              (range (len (flattenList values))) ([], []) w)
    as (r1 & r2 & Hrun & Hl1 & Hl2 & Hin1 & Hin2); [lia| |].
  { destruct (flattenList values); [|done]. by intros []. }
  rewrite length_range in *. unfold len in *. rewrite Nat2Z.id in *.
  exists (r1, r2). by rewrite Hrun.
Qed.

(** A resample that was drawn has as many members as its loop made
    passes: the value of [totalregions] for the regions, of [nsnps] for
    the sites, the length of the flattened population for the site pairs. *)
Lemma resample_regions_size G w rep w' :
  resample_regions G w = (Finished (Ok rep), w') ->
  exists n, g_totalregions G = Some n
            /\ length rep.1 = Z.to_nat n /\ length rep.2 = Z.to_nat n.
Proof.
  unfold resample_regions. intros Hrun. inv_run.
  match goal with H : g_totalregions G = Some ?n |- _ => exists n; split; [done|] end.
  rewrite <-length_range.
  match goal with H : for_each _ _ _ _ = _ |- _ =>
    apply (for_each_invariant (fun k (r : list Qc * list Z) =>
             length r.1 = k /\ length r.2 = k)) in H; [done|done|]
  end.
  intros k x r w1 r1 w2 [H1 H2] Hstep. inv_run. simpl. rewrite !length_app. simpl. lia.
Qed.

Lemma resample_sites_size G w rep w' :
  resample_sites G w = (Finished (Ok rep), w') ->
  exists n, g_nsnps G = Some n
            /\ length rep.1 = Z.to_nat n /\ length rep.2 = Z.to_nat n.
Proof.
  unfold resample_sites. intros Hrun. inv_run.
  match goal with H : g_nsnps G = Some ?n |- _ => exists n; split; [done|] end.
  rewrite <-length_range.
  match goal with H : for_each _ _ _ _ = _ |- _ =>
    apply (for_each_invariant (fun k (r : list Z * list Z) =>
             length r.1 = k /\ length r.2 = k)) in H; [done|done|]
  end.
  intros k x r w1 r1 w2 [H1 H2] Hstep. inv_run. simpl. rewrite !length_app. simpl. lia.
Qed.

Lemma resample_pairs_size G name1 name2 values dists w rep w' :
  resample_pairs G name1 name2 values dists w = (Finished (Ok rep), w') ->
  exists population, values = Some population
    /\ length rep.1 = length (flattenList population)
    /\ length rep.2 = length (flattenList population).
Proof.
  unfold resample_pairs. intros Hrun. inv_run.
  match goal with H : for_each (range (len (flattenList ?p))) _ _ _ = _ |- _ =>
    exists p; split; [done|];
    apply (for_each_invariant (fun k (r : list Qc * list Qc) =>
             length r.1 = k /\ length r.2 = k)) in H
  end.
  - rewrite length_range in *. unfold len in *. by rewrite Nat2Z.id in *.
  - done.
  - intros k x r w1 r1 w2 [H1 H2] Hstep. inv_run. simpl. rewrite !length_app. simpl. lia.
Qed.

(** ** Empty bins *)

(** C4 (as amended): the ancestral proportion of a bin is the sum of the
    bin over its count (lines 147 and 166).  When no bin is empty every
    bin has its proportion; when some bin has no site the division by
    zero is raised and no placeholder takes its place. *)
Theorem ancestral_proportion_needs_filled_bins (anchist : list Qc) (mafhist : list Z) :
  length anchist = length mafhist ->
  (Forall (fun c => c <> 0) mafhist ->
     ratios anchist mafhist (range (len mafhist))
     = Ok (zip_with (fun a c => (a / Qc_of_Z c)%Qc) anchist mafhist))
  /\ (Exists (fun c => c = 0) mafhist ->
        ratios anchist mafhist (range (len mafhist)) = Raise ZeroDivisionError).
Proof.
  intros Hlen. unfold len. rewrite <-Hlen. split.
  - by apply ratios_all_filled.
  - intros (c & [u Hu]%list_elem_of_lookup & ->)%Exists_exists.
    by apply (ratios_empty_bin _ _ u).
Qed.

Lemma ancestral_proportion_needs_filled_bins_witness :
  ratios [Qc_of_Z 9; Qc_of_Z 6] [1; 2] (range (len [1; 2]))
    = Ok (zip_with (fun a c => (a / Qc_of_Z c)%Qc) [Qc_of_Z 9; Qc_of_Z 6] [1; 2])
  /\ ratios [Qc_of_Z 9; Qc_of_Z 0] [3; 0] (range (len [3; 0]))
     = Raise ZeroDivisionError.
Proof.
  destruct (ancestral_proportion_needs_filled_bins
              [Qc_of_Z 9; Qc_of_Z 6] [1; 2] eq_refl) as [Hfilled _].
  destruct (ancestral_proportion_needs_filled_bins
              [Qc_of_Z 9; Qc_of_Z 0] [3; 0] eq_refl) as [_ Hempty].
  split.
  - apply Hfilled. repeat constructor; lia.
  - apply Hempty. apply Exists_cons_tl, Exists_cons_hd. reflexivity.
Defined.

(** C4 (as stated) fails: on a histogram whose second frequency bin holds
    no site, the ancestral proportions of the full sample (line 147) and
    of a replicate (line 166) raise the division by zero; no placeholder
    is computed for the bin, and nothing is recorded for the replicate
    (lines 167-168 are not reached). *)
Lemma ancestral_proportion_raises_on_empty_bin :
  let anchist := [Qc_of_Z 27; Qc_of_Z 0] in
  let mafhist := [3; 0] in
  ratios anchist mafhist (range (len mafhist)) = Raise ZeroDivisionError
  /\ (repanc <-- ratios anchist mafhist (range 2) ;;
      record_bins (empty_bins 2) repanc 2) = Raise ZeroDivisionError.
Proof.
  assert (Hraise : ratios [Qc_of_Z 27; Qc_of_Z 0] [3; 0] (range 2) = Raise ZeroDivisionError).
  { by apply (ratios_empty_bin [Qc_of_Z 27; Qc_of_Z 0] [3; 0] 1). }
  split; [exact Hraise|]. by rewrite Hraise.
Qed.

(** ** Input files *)

Lemma split_cons c s : exists piece pieces, split c s = piece :: pieces.
Proof.
  destruct s as [|a s]; simpl; [eauto|].
  destruct (decide (a = c)); [eauto|]. destruct (split c s); eauto.
Qed.

Lemma range_len_cons {A} (x : A) (l : list A) :
  range (len (x :: l)) = 0 :: range2 1 (len (x :: l)).
Proof.
  unfold range, range2, len. rewrite seqZ_cons by (simpl; lia).
  f_equal; f_equal; simpl; lia.
Qed.

Section input_files.
Context (BF : bootstrap_func) (G : globals).
Context {float_str : PyStr Qc} {std_str : PyStr stdval}.
Variable fuel : nat.

(** As the module stands, the first population of a frequency or LD run
    stops at the unbound name [i] (lines 117 and 185). *)
Lemma freq_section_unbound_i R s w :
  g_i G = None ->
  freq_section BF G R s w = (Finished (Raise (NameError "i")), w).
Proof.
  intros Hi. unfold freq_section.
  destruct (split_cons "," (join_chars s)) as (piece & pieces & ->).
  rewrite range_len_cons. simpl for_each. unfold freq_population.
  rewrite Hi. reflexivity.
Qed.

Lemma ld_section_unbound_i R s w :
  g_i G = None ->
  ld_section BF G fuel R s w = (Finished (Raise (NameError "i")), w).
Proof.
  intros Hi. unfold ld_section.
  destruct (split_cons "," (join_chars s)) as (piece & pieces & ->).
  rewrite range_len_cons. simpl for_each. unfold ld_population.
  rewrite Hi. reflexivity.
Qed.

Lemma execute_bootstrap_unbound_i (args : Args) s w :
  g_i G = None ->
  in_freqs args = Some s ->
  let r := execute_bootstrap BF G fuel args w in
  r.1 = Finished (Raise (NameError "i")) /\ report r.2 = [].
Proof.
  intros Hi Hfreqs. unfold execute_bootstrap. rewrite Hfreqs.
  cbv [mbind print open_w when_given]. by rewrite freq_section_unbound_i.
Qed.

(** The Fst loop never starts: [len] of the integer [npopcomp] (line 268). *)
Lemma fst_section_type_error R s w :
  fst_section BF R s w
  = (Finished (Raise (TypeError "object of type 'int' has no len()")), w).
Proof. reflexivity. Qed.
End input_files.

(** C8: the file of a population is selected with the name [i], not with
    the loop variable [ipop].  As the module stands [i] is unbound and a
    frequency or LD run stops at once with a [NameError]; were [i] bound,
    say to 0, every population would read the file of index 0; and the
    Fst loop takes [len] of the integer [npopcomp], so that no pair file
    is ever read. *)
Theorem population_file_not_selected_by_loop_variable :
  (forall BF fuel R s w,
     freq_section (float_str := exact_float_str) (std_str := exact_std_str)
       BF module_globals R s w = (Finished (Raise (NameError "i")), w)
     /\ ld_section (float_str := exact_float_str) (std_str := exact_std_str)
          BF module_globals fuel R s w = (Finished (Raise (NameError "i")), w))
  /\ (let r := example_run ["a"; "b"] module_globals
                 (MkArgs 2 (Some "a,b") None None "out") in
      r.1 = Finished (Raise (NameError "i")) /\ report r.2 = [])
  /\ (exists w',
        example_run ["a"; "b"] (example_globals counting spread_dists)
          (MkArgs 2 (Some "a,b") None None "out") = (Finished (Ok tt), w')
        /\ opened (outside w') = ["a"; "a"; "a"; "a"])
  /\ (forall G,
        let r := example_run ["a"; "b"] G (MkArgs 2 None None (Some "a,b") "out") in
        r.1 = Finished (Raise (TypeError "object of type 'int' has no len()"))
        /\ report r.2 = [] /\ opened (outside r.2) = []).
Proof.
  split; [|split; [|split]].
  - intros BF fuel R s w. split.
    + by apply freq_section_unbound_i.
    + by apply ld_section_unbound_i.
  - by apply (execute_bootstrap_unbound_i _ _ _ _ "a,b").
  - eexists. split; [vm_compute; reflexivity|reflexivity].
  - intros G. by repeat split.
Qed.

(** ** The module as it stands *)

(** With none of the free names bound, a run that is given an input stops
    at the first statement that reads one: it has printed its first
    message and opened the report file, and nothing else. *)
Section as_shipped.
Context (BF : bootstrap_func).
Context {float_str : PyStr Qc} {std_str : PyStr stdval}.
Variable fuel : nat.

Lemma execute_bootstrap_as_shipped (args : Args) (w : world) (e : exn) :
  first_error args = Some e ->
  execute_bootstrap BF module_globals fuel args w = (Finished (Raise e), started args w).
Proof.
  unfold first_error, execute_bootstrap. intros He.
  cbv [mbind print open_w]. fold (started args w).
  destruct (in_freqs args) as [s|] eqn:Hfreqs; simpl when_given.
  { injection He as <-. by rewrite freq_section_unbound_i. }
  destruct (in_ld args) as [s|] eqn:Hld; simpl when_given.
  { injection He as <-. cbv [mret]. by rewrite ld_section_unbound_i. }
  destruct (in_fst args) as [s|] eqn:Hfst; [|done].
  injection He as <-. reflexivity.
Qed.

Lemma execute_bootstrap_writes_nothing (args : Args) (w : world) :
  let r := execute_bootstrap BF module_globals fuel args w in
  report r.2 = []
  /\ draws (outside r.2) = draws (outside w)
  /\ opened (outside r.2) = opened (outside w).
Proof.
  destruct (first_error args) as [e|] eqn:He.
  - intros r. unfold r. by rewrite (execute_bootstrap_as_shipped args w e).
  - unfold first_error in He. intros r. unfold r, execute_bootstrap.
    destruct (in_freqs args), (in_ld args), (in_fst args); try done.
Qed.
End as_shipped.

Lemma blocks_as_shipped BF {float_str : PyStr Qc} {std_str : PyStr stdval} fuel R st w :
  exists name,
    replicates_and_se BF module_globals fuel R st w = (Finished (Raise (NameError name)), w).
Proof. destruct st; eexists; reflexivity. Qed.

Lemma first_error_given (args : Args) :
  in_freqs args <> None \/ in_ld args <> None \/ in_fst args <> None ->
  exists e, first_error args = Some e.
Proof.
  unfold first_error.
  destruct (in_freqs args), (in_ld args), (in_fst args); eauto. intros [|[|]]; done.
Qed.

(** C7: as the module stands, a run that names an input file stops before
    the lines that check and read it (the name [i] of lines 117 and 185,
    the [len] of line 268), whether the file exists or not and whatever
    the collaborators would do: the run raises, no statistic is computed
    and no random number drawn, no input file is asked for, and the report
    holds nothing, not even an index line. *)
Theorem missing_input_writes_nothing (BF : bootstrap_func)
    {float_str : PyStr Qc} {std_str : PyStr stdval} (fuel : nat) (args : Args) (w : world) :
  let r := execute_bootstrap BF module_globals fuel args w in
  report r.2 = []
  /\ file_text r.2 = EmptyString
  /\ draws (outside r.2) = draws (outside w)
  /\ opened (outside r.2) = opened (outside w)
  /\ (in_freqs args <> None \/ in_ld args <> None \/ in_fst args <> None ->
      exists e, r = (Finished (Raise e), started args w)).
Proof.
  intros r.
  destruct (execute_bootstrap_writes_nothing BF fuel args w) as (Hreport & Hdraws & Hopened).
  fold r in Hreport, Hdraws, Hopened.
  split; [done|]. split; [unfold file_text; by rewrite Hreport|].
  split; [done|]. split; [done|].
  intros [e He]%first_error_given. exists e.
  by apply execute_bootstrap_as_shipped.
Qed.

(** C1: as the module stands no standard error is reported, for any
    replicate count: a run with frequency or LD input stops at the
    unbound name [i] and a run with Fst input at [len] of an integer,
    with an empty report; and the lines that record the replicates of a
    statistic and take their standard deviation stop at an unbound name
    before a replicate is recorded. *)
Theorem standard_error_never_reported (BF : bootstrap_func)
    {float_str : PyStr Qc} {std_str : PyStr stdval} (fuel : nat) (args : Args) (w : world) :
  let r := execute_bootstrap BF module_globals fuel args w in
  report r.2 = []
  /\ (in_freqs args <> None -> r.1 = Finished (Raise (NameError "i")))
  /\ (in_ld args <> None -> r.1 = Finished (Raise (NameError "i")))
  /\ (in_freqs args = None -> in_ld args = None -> in_fst args <> None ->
      r.1 = Finished (Raise (TypeError "object of type 'int' has no len()")))
  /\ (forall st, exists name,
        replicates_and_se BF module_globals fuel (nBootstrapReps args) st w
        = (Finished (Raise (NameError name)), w)).
Proof.
  intros r.
  destruct (execute_bootstrap_writes_nothing BF fuel args w) as (Hreport & _).
  split; [done|].
  assert (Hrun : forall e, first_error args = Some e -> r.1 = Finished (Raise e)).
  { intros e He. unfold r. by rewrite (execute_bootstrap_as_shipped BF fuel args w e). }
  unfold first_error in Hrun.
  split; [|split; [|split]].
  - intros Hfreqs. apply Hrun. by destruct (in_freqs args).
  - intros Hld. apply Hrun. by destruct (in_freqs args), (in_ld args).
  - intros Hfreqs Hld Hfst. apply Hrun. rewrite Hfreqs, Hld. by destruct (in_fst args).
  - intros st. apply blocks_as_shipped.
Qed.

(** C2: as the module stands no resample is drawn: a run draws no random
    number, and the resampling loop of every statistic stops at an
    unbound name.  Of the three loops only that of the site pairs takes
    its number of passes from the population ([len(flatr2)], lines 206 and
    244): a resample of the pairs has as many members as there are pairs.
    The loops over the regions and over the sites make [totalregions] and
    [nsnps] passes, names that the module binds nowhere: a resample has as
    many members as the name holds, whatever the number of regions or
    sites. *)
Theorem resample_size_left_to_free_names :
  (forall BF (float_str : PyStr Qc) (std_str : PyStr stdval) fuel args w,
     draws (outside (execute_bootstrap BF module_globals fuel args w).2) = draws (outside w))
  /\ (forall st w, exists name,
        resample_size module_globals st w = (Finished (Raise (NameError name)), w))
  /\ (forall G name1 name2 values dists w rep w',
        resample_pairs G name1 name2 values dists w = (Finished (Ok rep), w') ->
        exists population,
          values = Some population
          /\ length rep.1 = length (flattenList population)
          /\ length rep.2 = length (flattenList population))
  /\ (forall G w rep w',
        resample_regions G w = (Finished (Ok rep), w') ->
        exists n, g_totalregions G = Some n
                  /\ length rep.1 = Z.to_nat n /\ length rep.2 = Z.to_nat n)
  /\ (forall G w rep w',
        resample_sites G w = (Finished (Ok rep), w') ->
        exists n, g_nsnps G = Some n
                  /\ length rep.1 = Z.to_nat n /\ length rep.2 = Z.to_nat n).
Proof.
  split; [|split; [|split; [|split]]].
  - intros BF float_str std_str fuel args w.
    by destruct (execute_bootstrap_writes_nothing BF fuel args w) as (_ & Hdraws & _).
  - intros st w. destruct st; eexists; reflexivity.
  - apply resample_pairs_size.
  - apply resample_regions_size.
  - apply resample_sites_size.
Qed.

(** C3: as the module stands an LD run stops at the unbound name [i]
    (line 185) before any estimate.  Past that line, the full-sample mean
    of the r2 decay (line 195) divides by the raw counts: a distance bin
    without a pair (its count a Python integer 0) raises the division by
    zero before anything of the decay is written, while the computation of
    the three sibling paths (lines 214-217, 229-233 and 252-255), which
    sets the count of an empty bin to 1, gives that bin its sum, 0 for the
    sum 0. *)
Theorem r2_mean_divides_by_empty_bin :
  (forall BF (float_str : PyStr Qc) (std_str : PyStr stdval) fuel args w,
     in_freqs args = None -> in_ld args <> None ->
     execute_bootstrap BF module_globals fuel args w
     = (Finished (Raise (NameError "i")), started args w))
  /\ (forall BF G (float_str : PyStr Qc) (std_str : PyStr stdval) fuel R w
             values dists sums counts (u : nat),
        g_allRegionr2 G = Some values -> g_allRegionDists G = Some dists ->
        estimater2decay BF (Regions values) (Regions dists) = Ok (sums, counts) ->
        length sums = length counts ->
        counts !! u = Some 0 ->
        r2_block BF G fuel R w = (Finished (Raise ZeroDivisionError), w))
  /\ (forall (sums : list Qc) (counts : list Z) (u : nat) (a : Qc),
        length sums = length counts ->
        counts !! u = Some 0 -> sums !! u = Some a ->
        exists estimate,
          ratios sums (pseudocount counts) (range (len sums)) = Ok estimate
          /\ estimate !! u = Some a).
Proof.
  split; [|split].
  - intros BF float_str std_str fuel args w Hfreqs Hld.
    apply execute_bootstrap_as_shipped. unfold first_error. rewrite Hfreqs.
    by destruct (in_ld args).
  - intros BF G float_str std_str fuel R w values dists sums counts u.
    apply r2_block_empty_bin.
  - intros sums counts u a Hlen Hcount Hsum. eexists.
    split; [apply ratios_pseudocount; lia|].
    rewrite lookup_zip_with, Hsum, Hcount. reflexivity.
Qed.

(** X28: the ancestral proportions have no guard for an empty bin.  When
    the histogram of the full sample counts sites but none in some bin,
    [execute_bootstrap] stops at line 147 with ZeroDivisionError, before
    any line of the spectrum is written. *)
Theorem empty_frequency_bin_stops_the_spectrum (BF : bootstrap_func) (G : globals)
    {float_str : PyStr Qc} {std_str : PyStr stdval} (R : Z) (w : world)
    der anc nhist mafhist anchist (u : nat) :
  g_allRegionDER G = Some der -> g_allRegionANC G = Some anc -> g_nhist G = Some nhist ->
  estimateFreqSpectrum BF (Regions der) (Regions anc) nhist = Ok (mafhist, anchist) ->
  length anchist = length mafhist ->
  zsum mafhist <> 0 ->
  mafhist !! u = Some 0 ->
  sfs_block BF G R w = (Finished (Raise ZeroDivisionError), w).
Proof.
  intros Hder Hanc Hnhist Hhist Hlen Hsites Hu. unfold sfs_block.
  rewrite Hder, Hanc, Hnhist. cbv [global mbind mret lift]. rewrite Hhist. simpl.
  rewrite sfs_proportions_ok by done.
  unfold len. rewrite <-Hlen. fold (len anchist).
  by rewrite (ratios_empty_bin anchist mafhist u).
Qed.

Lemma empty_frequency_bin_stops_the_spectrum_witness :
  sfs_block (float_str := exact_float_str) (std_str := exact_std_str)
    (example_functions []) low_frequency_globals 2 fresh
  = (Finished (Raise ZeroDivisionError), fresh).
Proof.
  apply (empty_frequency_bin_stops_the_spectrum (example_functions []) low_frequency_globals
           2 fresh [[1; 1]] [[9; 9]] 2 [2; 0] [Qc_of_Z 18; Qc_of_Z 0] 1);
    try reflexivity.
  - apply (bool_decide_unpack _). vm_compute. exact I.
  - done.
Defined.

(** X29: were [i] bound, the index line of a population of the frequency
    statistics would be in the report (line 119) before the existence of
    its input file is looked into (line 120): when [checkFileExists]
    raises, the run stops with the index line written and nothing else. *)
Theorem index_line_is_written_before_the_file_is_checked (BF : bootstrap_func) (G : globals)
    {float_str : PyStr Qc} {std_str : PyStr stdval} (R : Z)
    names ipop i name w e ext' :
  g_i G = Some i ->
  subscript names i = Ok name ->
  checkFileExists BF name
    (Ext (stdout (outside w)
            ++ [prefixstring +:+ "reading allele frequency statistics from: " +:+ name])
         (draws (outside w)) (opened (outside w)))
  = (Raise e, ext') ->
  freq_population BF G R names ipop w
  = (Finished (Raise e), World (report w ++ [(IndexLine, str ipop +:+ nl)]) ext').
Proof.
  intros Hi Hname Hcheck. unfold freq_population. rewrite Hi.
  cbv [global mbind mret lift]. rewrite Hname.
  cbv [print write call mbind]. simpl. by rewrite Hcheck.
Qed.

Lemma index_line_is_written_before_the_file_is_checked_witness :
  exists ext',
    freq_population (float_str := exact_float_str) (std_str := exact_std_str)
      (example_functions []) (example_globals counting spread_dists) 2 ["missing.txt"] 0 fresh
    = (Finished (Raise (Collaborator "missing input file")),
       World [(IndexLine, "0" +:+ nl)] ext').
Proof.
  eexists.
  apply (index_line_is_written_before_the_file_is_checked
           (float_str := exact_float_str) (std_str := exact_std_str)
           (example_functions []) (example_globals counting spread_dists) 2
           ["missing.txt"] 0 0 "missing.txt" fresh); reflexivity.
Defined.

(** ** The layout of the report *)

Lemma matches_app new1 new2 spec1 spec2 :
  matches new1 spec1 -> matches new2 spec2 -> matches (new1 ++ new2) (spec1 ++ spec2).
Proof. apply Forall2_app. Qed.

Lemma emits_bind {A B} (m : M A) (k : A -> M B) spec1 spec2 :
  emits m spec1 -> (forall a, emits (k a) spec2) ->
  emits (mbind m k) (spec1 ++ spec2).
Proof.
  intros Hm Hk w. destruct (Hm w) as (new1 & Hrep1 & (d1 & r1 & -> & Hd1) & Hok1).
  unfold mbind. destruct (m w) as [[[a|e]|] w1] eqn:Hrun; simpl in *.
  - destruct (Hk a w1) as (new2 & Hrep2 & (d2 & r2 & -> & Hd2) & Hok2).
    exists (new1 ++ new2). split; [by rewrite Hrep2, Hrep1, (assoc_L (++))|]. split.
    + exists ((d1 ++ r1) ++ d2), r2. split; [by rewrite !(assoc_L (++))|].
      apply matches_app; [by eapply Hok1|done].
    + intros b Hb. apply matches_app; [by eapply Hok1|by eapply Hok2].
  - exists new1. split; [done|]. split; [|done].
    exists d1, (r1 ++ spec2). by rewrite (assoc_L (++)).
  - exists new1. split; [done|]. split; [|done].
    exists d1, (r1 ++ spec2). by rewrite (assoc_L (++)).
Qed.

Lemma quiet_intro {A} (m : M A) : (forall w, report (m w).2 = report w) -> quiet m.
Proof.
  intros Hm w. exists []. rewrite (right_id_L [] (++)). split; [done|].
  split; [by exists [], []; split; [|constructor]|by constructor].
Qed.

Lemma quiet_mret {A} (a : A) : quiet (mret a).
Proof. by apply quiet_intro. Qed.
Lemma quiet_raise {A} e : quiet (@raise A e).
Proof. by apply quiet_intro. Qed.
Lemma quiet_lift {A} (r : result A) : quiet (lift r).
Proof. by apply quiet_intro. Qed.
Lemma quiet_print s : quiet (print s).
Proof. by apply quiet_intro. Qed.
Lemma quiet_global {A} name (b : option A) : quiet (global name b).
Proof. apply quiet_intro. by destruct b. Qed.
Lemma quiet_local {A} name (b : option A) : quiet (local name b).
Proof. apply quiet_intro. by destruct b. Qed.
Lemma quiet_call {A} (c : C A) : quiet (call c).
Proof. apply quiet_intro. intros w. unfold call. by destruct (c (outside w)). Qed.
Lemma quiet_randint rng a b : quiet (randint rng a b).
Proof. apply quiet_intro. intros w. unfold randint. by case_decide. Qed.
Lemma quiet_len_of_int n : quiet (len_of_int n).
Proof. by apply quiet_intro. Qed.

Lemma quiet_bind {A B} (m : M A) (k : A -> M B) :
  quiet m -> (forall a, quiet (k a)) -> quiet (mbind m k).
Proof. intros Hm Hk. by apply (emits_bind m k [] []). Qed.

Lemma quiet_for_each {A St} (xs : list A) (body : A -> St -> M St) s :
  (forall x s, quiet (body x s)) -> quiet (for_each xs body s).
Proof.
  intros Hbody. revert s. induction xs as [|x xs IH]; intros s; simpl.
  - apply quiet_mret.
  - by apply quiet_bind.
Qed.

Lemma quiet_while {St} fuel (cond : St -> M bool) (body : St -> M St) s :
  (forall s, quiet (cond s)) -> (forall s, quiet (body s)) ->
  quiet (while fuel cond body s).
Proof.
  intros Hcond Hbody. revert s. induction fuel as [|fuel IH]; intros s; simpl.
  - by apply quiet_intro.
  - apply quiet_bind; [done|]. intros [].
    + by apply quiet_bind.
    + apply quiet_mret.
Qed.

Lemma emits_bind_quiet {A B} (m : M A) (k : A -> M B) spec :
  quiet m -> (forall a, emits (k a) spec) -> emits (mbind m k) spec.
Proof. intros Hm Hk. by apply (emits_bind m k [] spec). Qed.

Lemma emits_write f s (P : string -> Prop) : P s -> emits (write f s) [(f, P)].
Proof.
  intros HP w. exists [(f, s)]. split; [done|].
  assert (matches [(f, s)] [(f, P)]) by (by repeat constructor).
  split; [by exists [(f, P)], []|done].
Qed.

Lemma emits_bind_write {B} f s (k : unit -> M B) (P : string -> Prop) spec :
  P s -> (forall u, emits (k u) spec) -> emits (mbind (write f s) k) ((f, P) :: spec).
Proof.
  intros HP Hk. apply (emits_bind (write f s) k [(f, P)] spec); [|done].
  by apply emits_write.
Qed.

Lemma emits_bind_block {A B} (m : M A) (k : A -> M B) spec1 spec2 spec :
  spec = spec1 ++ spec2 ->
  emits m spec1 -> (forall a, emits (k a) spec2) -> emits (mbind m k) spec.
Proof. intros ->. apply emits_bind. Qed.

Lemma emits_for_each {A} (xs : list A) (body : A -> unit -> M unit)
    (layout : A -> list chunk_spec) u :
  (forall x u, emits (body x u) (layout x)) ->
  emits (for_each xs body u) (concat (map layout xs)).
Proof.
  intros Hbody. revert u. induction xs as [|x xs IH]; intros u; simpl.
  - apply quiet_mret.
  - by apply emits_bind.
Qed.

Create HintDb quiet.
#[local] Hint Resolve quiet_mret quiet_raise quiet_lift quiet_print quiet_global
  quiet_local quiet_call quiet_randint quiet_len_of_int : quiet.

(** Walk through a block: the statements that do not write, then the
    writes against the head of the expected layout. *)
Ltac quiet_steps :=
  repeat first
    [ progress intros
    | progress cbv zeta
    | solve [auto with quiet]
    | apply quiet_bind
    | apply quiet_for_each
    | apply quiet_while
    | match goal with |- quiet (if ?b then _ else _) => destruct b end
    | match goal with |- quiet (match ?x with _ => _ end) => destruct x end ].

Ltac emit_steps :=
  repeat first
    [ progress intros
    | progress cbv zeta
    | apply emits_bind_write; [unfold text_of; eauto|]
    | apply emits_bind_quiet; [solve [quiet_steps]|]
    | match goal with |- emits ?m [] => change (quiet m); solve [quiet_steps] end ].

Section report_layout.
Context (BF : bootstrap_func) (G : globals).
Context {float_str : PyStr Qc} {std_str : PyStr stdval}.
Variable fuel : nat.
Variable R : Z.

Lemma resample_regions_quiet : quiet (resample_regions G).
Proof. unfold resample_regions. quiet_steps. Qed.

Lemma resample_sites_quiet : quiet (resample_sites G).
Proof. unfold resample_sites. quiet_steps. Qed.

Lemma resample_pairs_quiet n1 n2 v d : quiet (resample_pairs G n1 n2 v d).
Proof. unfold resample_pairs. quiet_steps. Qed.

Lemma std_of_bins_quiet t : quiet (std_of_bins G t).
Proof. unfold std_of_bins. quiet_steps. Qed.

Lemma more_replicates_quiet t : quiet (more_replicates R t).
Proof. unfold more_replicates. quiet_steps. Qed.

#[local] Hint Resolve resample_regions_quiet resample_sites_quiet
  resample_pairs_quiet std_of_bins_quiet more_replicates_quiet : quiet.

Lemma pi_block_emits :
  emits (pi_block BF G R) [(PiMean, text_of Qc tab); (PiSE, text_of stdval nl)].
Proof. unfold pi_block. emit_steps. Qed.

Lemma sfs_block_emits :
  emits (sfs_block BF G R)
    [ (SfsMean, text_of (list Qc) nl); (SfsSE, text_of (list stdval) nl);
      (AncMean, text_of (list Qc) nl); (AncSE, text_of (list stdval) nl) ].
Proof. unfold sfs_block. emit_steps. Qed.

Lemma r2_block_emits :
  emits (r2_block BF G fuel R)
    [(R2Mean, text_of (list Qc) nl); (R2SE, text_of (list stdval) nl)].
Proof. unfold r2_block. emit_steps. Qed.

Lemma dprime_block_emits :
  emits (dprime_block BF G fuel R)
    [(DprimeMean, text_of (list Qc) nl); (DprimeSE, text_of (list stdval) nl)].
Proof. unfold dprime_block. emit_steps. Qed.

Lemma freq_population_emits names ipop :
  emits (freq_population BF G R names ipop) (freq_layout ipop).
Proof.
  unfold freq_population, freq_layout. emit_steps.
  eapply emits_bind_block; [|apply pi_block_emits|]; [reflexivity|]. intros _.
  eapply emits_bind_block; [|apply sfs_block_emits|]; [reflexivity|]. intros _.
  apply quiet_mret.
Qed.

Lemma ld_population_emits names ipop :
  emits (ld_population BF G fuel R names ipop) (ld_layout ipop).
Proof.
  unfold ld_population, ld_layout. emit_steps.
  eapply emits_bind_block; [|apply r2_block_emits|]; [reflexivity|]. intros _.
  eapply emits_bind_block; [|apply dprime_block_emits|]; [reflexivity|]. intros _.
  apply quiet_mret.
Qed.

Lemma freq_section_emits s :
  emits (freq_section BF G R s) (section_layout freq_layout (Some s)).
Proof. unfold freq_section. apply emits_for_each. intros. apply freq_population_emits. Qed.

Lemma ld_section_emits s :
  emits (ld_section BF G fuel R s) (section_layout ld_layout (Some s)).
Proof. unfold ld_section. apply emits_for_each. intros. apply ld_population_emits. Qed.

Lemma fst_comparison_emits names icomp allfst :
  emits (fst_comparison BF R names icomp allfst)
    [(FstLine, fun s => exists (mean : Qc) (se : stdval),
                 s = str icomp +:+ tab +:+ str mean +:+ tab +:+ str se +:+ nl)].
Proof. unfold fst_comparison. emit_steps. Qed.
Lemma fst_section_quiet s : quiet (fst_section BF R s).
Proof. apply quiet_intro. intros w. by rewrite fst_section_type_error. Qed.
End report_layout.

Section report_order.
Context (BF : bootstrap_func) (G : globals).
Context {float_str : PyStr Qc} {std_str : PyStr stdval}.
Variable fuel : nat.

Lemma when_given_emits (arg : option string) (section : string -> M unit)
    (layout : Z -> list chunk_spec) :
  (forall s, emits (section s) (section_layout layout (Some s))) ->
  emits (when_given arg section) (section_layout layout arg).
Proof. intros Hsection. destruct arg; simpl; [apply Hsection|apply quiet_mret]. Qed.

(** Whatever was asked for, and in whatever order: what a run writes is a
    beginning of the frequency section followed by the LD section, and
    all of it when the run returns.  The Fst section writes nothing. *)
Lemma execute_bootstrap_layout (args : Args) (w : world) :
  let r := execute_bootstrap BF G fuel args w in
  (exists written rest,
     report_layout args = written ++ rest /\ matches (report r.2) written)
  /\ (r.1 = Finished (Ok tt) -> matches (report r.2) (report_layout args)).
Proof.
  intros r.
  assert (Hrun : exists new,
            report r.2 = [] ++ new
            /\ (exists written rest,
                  report_layout args = written ++ rest /\ matches new written)
            /\ (forall u, r.1 = Finished (Ok u) -> matches new (report_layout args))).
  { subst r. unfold execute_bootstrap.
    match goal with |- context [mbind open_w ?k] => set (sections := k tt) end.
    assert (Hsections : emits sections (report_layout args)).
    { subst sections. unfold report_layout.
      apply emits_bind; [apply when_given_emits, freq_section_emits|]. intros _.
      rewrite <-(right_id_L [] (++) (section_layout ld_layout (in_ld args))).
      apply emits_bind; [apply when_given_emits, ld_section_emits|]. intros _.
      apply quiet_bind; [|intros _; apply quiet_print].
      destruct (in_fst args); [apply fst_section_quiet|apply quiet_mret]. }
    exact (Hsections
             (World [] (Ext (stdout (outside w)
                ++ [prefixstring +:+ "running " +:+ str (nBootstrapReps args)
                    +:+ " bootstrap estimates of summary statistics..."])
                (draws (outside w)) (opened (outside w))))). }
  destruct Hrun as (new & Hrep & Hprefix & Hok). simpl in Hrep. rewrite Hrep.
  split; [done|apply Hok].
Qed.
End report_order.

(** ** What the lines of the report hold *)

Lemma quiet_report {A} (m : M A) w : quiet m -> report (m w).2 = report w.
Proof.
  intros Hq. destruct (Hq w) as (new & Hrep & (written & rest & Hspec & Hmatch) & _).
  symmetry in Hspec. apply app_eq_nil in Hspec as [-> ->].
  inversion Hmatch; subst. by rewrite Hrep, app_nil_r.
Qed.

Lemma quiet_run {A} (m : M A) w r w' : quiet m -> m w = (r, w') -> report w' = report w.
Proof. intros Hq Hrun. by rewrite <-(quiet_report m w Hq), Hrun. Qed.

Section what_is_written.
Context (BF : bootstrap_func) (G : globals).
Context {float_str : PyStr Qc} {std_str : PyStr stdval}.
Variable fuel : nat.
Variable R : Z.

#[local] Hint Resolve quiet_mret quiet_raise quiet_lift quiet_print quiet_global
  quiet_local quiet_call quiet_randint quiet_len_of_int
  resample_regions_quiet resample_sites_quiet
  resample_pairs_quiet std_of_bins_quiet more_replicates_quiet : quiet.

Lemma pi_block_writes w mean ests se w' :
  pi_block BF G R w = (Finished (Ok (mean, ests, se)), w') ->
  report w' = report w ++ [(PiMean, str mean +:+ tab); (PiSE, str (np_std ests) +:+ nl)]
  /\ full_sample_pi BF G mean.
Proof.
  unfold pi_block. intros Hrun. inv_run. split; [|by eexists _, _].
  match goal with H : for_each _ _ _ _ = _ |- _ =>
    apply quiet_run in H; [simpl in H|quiet_steps] end.
  simpl. match goal with H : report _ = _ |- _ => rewrite H end.
  by rewrite <-(assoc_L (++)).
Qed.

Lemma sfs_block_writes w res w' :
  sfs_block BF G R w = (Finished (Ok res), w') ->
  report w' = report w
    ++ [ (SfsMean, str (sfs_mean res) +:+ nl);
         (SfsSE, str (map np_std (sfs_table res)) +:+ nl);
         (AncMean, str (anc_mean res) +:+ nl);
         (AncSE, str (map np_std (anc_table res)) +:+ nl) ]
  /\ full_sample_spectrum BF G (sfs_mean res) (anc_mean res).
Proof.
  unfold sfs_block. intros Hrun. inv_run. same_binding.
  repeat match goal with H : std_of_bins _ _ ?w1 = (_, ?w2) |- _ =>
    let Hs := fresh "Hse" in
    pose proof (std_of_bins_inv _ _ _ _ _ H) as Hs;
    apply quiet_run in H; [|quiet_steps] end.
  match goal with H : for_each _ _ _ _ = _ |- _ =>
    apply quiet_run in H; [|quiet_steps] end.
  subst. simpl. split.
  - repeat match goal with H : report _ = report _ |- _ => rewrite H; clear H end.
    by rewrite <-!(assoc_L (++)).
  - match goal with H : estimateFreqSpectrum _ _ _ _ = Ok ?h |- _ => destruct h as [mafhist anchist] end.
    by eexists _, _, _, _, _.
Qed.

Lemma r2_block_writes w mean table ses w' :
  r2_block BF G fuel R w = (Finished (Ok (mean, table, ses)), w') ->
  report w' = report w
    ++ [(R2Mean, str mean +:+ nl); (R2SE, str (map np_std table) +:+ nl)]
  /\ full_sample_r2 BF G mean.
Proof.
  unfold r2_block. intros Hrun. inv_run.
  match goal with H : std_of_bins _ _ ?w1 = (_, ?w2) |- _ =>
    pose proof (std_of_bins_inv _ _ _ _ _ H) as Hse;
    apply quiet_run in H; [|quiet_steps] end.
  match goal with H : while _ _ _ _ _ = _ |- _ =>
    apply quiet_run in H; [|quiet_steps] end.
  subst. simpl. split.
  - repeat match goal with H : report _ = report _ |- _ => rewrite H; clear H end.
    simpl. by rewrite <-!(assoc_L (++)).
  - match goal with H : estimater2decay _ _ _ = Ok ?h |- _ => destruct h as [sums counts] end.
    by eexists _, _, _, _.
Qed.

Lemma dprime_block_writes w mean table ses w' :
  dprime_block BF G fuel R w = (Finished (Ok (mean, table, ses)), w') ->
  report w' = report w
    ++ [(DprimeMean, str mean +:+ nl); (DprimeSE, str (map np_std table) +:+ nl)]
  /\ full_sample_dprime BF G mean.
Proof.
  unfold dprime_block. intros Hrun. inv_run.
  match goal with H : std_of_bins _ _ ?w1 = (_, ?w2) |- _ =>
    pose proof (std_of_bins_inv _ _ _ _ _ H) as Hse;
    apply quiet_run in H; [|quiet_steps] end.
  match goal with H : while _ _ _ _ _ = _ |- _ =>
    apply quiet_run in H; [|quiet_steps] end.
  subst. simpl. split.
  - repeat match goal with H : report _ = report _ |- _ => rewrite H; clear H end.
    simpl. by rewrite <-!(assoc_L (++)).
  - match goal with H : estimatedprimedecay _ _ _ = Ok ?h |- _ => destruct h as [sums counts] end.
    by eexists _, _, _, _.
Qed.
End what_is_written.

Section populations.
Context (BF : bootstrap_func) (G : globals).
Context {float_str : PyStr Qc} {std_str : PyStr stdval}.
Variable fuel : nat.
Variable R : Z.

#[local] Hint Resolve quiet_mret quiet_raise quiet_lift quiet_print quiet_global
  quiet_local quiet_call quiet_randint quiet_len_of_int : quiet.

(** The statements of a population that do not write: the report is the
    same before and after. *)
Ltac skip_quiet :=
  repeat match goal with
  | H : ?m ?w1 = (Finished (Ok _), ?w2) |- _ =>
      lazymatch m with
      | pi_block _ _ _ => fail
      | sfs_block _ _ _ => fail
      | r2_block _ _ _ _ => fail
      | dprime_block _ _ _ _ => fail
      | _ => apply quiet_run in H; [|solve [quiet_steps]]
      end
  end.

Lemma freq_population_writes names ipop w w' :
  freq_population BF G R names ipop w = (Finished (Ok tt), w') ->
  exists pi_mean pi_replicates sfs_mean sfs_replicates anc_mean anc_replicates,
    report w' = report w
      ++ freq_lines ipop pi_mean pi_replicates sfs_mean sfs_replicates anc_mean anc_replicates
    /\ full_sample_pi BF G pi_mean
    /\ full_sample_spectrum BF G sfs_mean anc_mean
    /\ length pi_replicates = Z.to_nat R
    /\ Forall (fun bin => length bin = Z.to_nat R) sfs_replicates
    /\ Forall (fun bin => length bin = Z.to_nat R) anc_replicates.
Proof.
  unfold freq_population. intros Hrun. inv_run. skip_quiet.
  match goal with H : pi_block _ _ _ _ = (Finished (Ok ?v), _) |- _ =>
    destruct v as [[pi_mean ests] se];
    pose proof (pi_block_inv _ _ _ _ _ _ _ _ H) as [Hests _];
    apply pi_block_writes in H as [Hpi Hpi_mean] end.
  match goal with H : sfs_block _ _ _ _ = (Finished (Ok ?res), _) |- _ =>
    pose proof (sfs_block_inv _ _ _ _ _ _ H) as (nhist & [_ Hsfs] & _ & [_ Hanc] & _);
    apply sfs_block_writes in H as [Hwritten Hmeans];
    exists pi_mean, ests, (sfs_mean res), (sfs_table res), (anc_mean res), (anc_table res)
  end.
  repeat split; try done.
  rewrite Hwritten, Hpi. simpl in *.
  repeat match goal with H : report _ = _ |- _ => rewrite H; clear H end.
  simpl. by rewrite <-!(assoc_L (++)).
Qed.

Lemma ld_population_writes names ipop w w' :
  ld_population BF G fuel R names ipop w = (Finished (Ok tt), w') ->
  exists r2_mean r2_replicates dprime_mean dprime_replicates,
    report w' = report w
      ++ ld_lines ipop r2_mean r2_replicates dprime_mean dprime_replicates
    /\ full_sample_r2 BF G r2_mean
    /\ full_sample_dprime BF G dprime_mean
    /\ Forall (fun bin => length bin = Z.to_nat R) r2_replicates
    /\ Forall (fun bin => length bin = Z.to_nat R) dprime_replicates.
Proof.
  unfold ld_population. intros Hrun. inv_run. skip_quiet.
  match goal with H : r2_block _ _ _ _ _ = (Finished (Ok ?v), _) |- _ =>
    destruct v as [[r2_mean r2_table] r2_se];
    pose proof (r2_block_inv _ _ _ _ _ _ _ _ _ H) as (n1 & [_ Hr2] & _);
    apply r2_block_writes in H as [Hr2_written Hr2_mean] end.
  match goal with H : dprime_block _ _ _ _ _ = (Finished (Ok ?v), _) |- _ =>
    destruct v as [[dprime_mean dprime_table] dprime_se];
    pose proof (dprime_block_inv _ _ _ _ _ _ _ _ _ H) as (n2 & [_ Hdprime] & _);
    apply dprime_block_writes in H as [Hdprime_written Hdprime_mean] end.
  exists r2_mean, r2_table, dprime_mean, dprime_table.
  repeat split; try done.
  rewrite Hdprime_written, Hr2_written. simpl in *.
  repeat match goal with H : report _ = _ |- _ => rewrite H; clear H end.
  simpl. by rewrite <-!(assoc_L (++)).
Qed.
End populations.

Lemma matches_fields new spec : matches new spec -> map fst new = map fst spec.
Proof. induction 1 as [|chunk sp new spec [Hf _] _ IH]; [done|]. simpl. by rewrite Hf, IH. Qed.


Ltac prefix_cases H :=
  lazymatch type of H with
  | _ = ?l ++ _ =>
      destruct l as [|? ?];
      [ intros Heq; vm_compute in Heq; discriminate Heq
      | simpl in H; first [discriminate H | injection H as <- H; prefix_cases H] ]
  end.


(** X27: for each statistic, when the lines that record its replicates
    and report its standard error return, every bin holds [R] replicate
    values, the line of the standard error in the report is the text of
    their standard deviation with divisor [R] (numpy's default), bin by
    bin, and for one replicate it is zero. *)
Theorem reported_standard_error_is_np_std (BF : bootstrap_func) (G : globals)
    {float_str : PyStr Qc} {std_str : PyStr stdval} (fuel : nat) (R : Z)
    (st : statistic) w table ses w' :
  replicates_and_se BF G fuel R st w = (Finished (Ok (table, ses)), w') ->
  Forall (fun bin => length bin = Z.to_nat R) table
  /\ ses = map np_std table
  /\ (exists before after,
        report w' = report w ++ before ++ se_line st (map np_std table) :: after)
  /\ (R = 1 -> Forall (fun se => se = Sqrt (Q2Qc 0)) ses).
Proof.
  intros Hrun.
  assert (Hmain : Forall (fun bin => length bin = Z.to_nat R) table
                  /\ ses = map np_std table
                  /\ exists before after,
                       report w' = report w ++ before ++ se_line st (map np_std table) :: after).
  { destruct st; simpl in Hrun; inv_run.
    - destruct v as [[mean ests] se].
      match goal with H : pi_block _ _ _ _ = _ |- _ =>
        pose proof (pi_block_inv _ _ _ _ _ _ _ _ H) as [Hlen ->];
        apply pi_block_writes in H as [Hwritten _] end.
      simpl. split; [by repeat constructor|]. split; [done|].
      by exists [(PiMean, str mean +:+ tab)], [].
    - match goal with H : sfs_block _ _ _ _ = _ |- _ =>
        pose proof (sfs_block_inv _ _ _ _ _ _ H) as (n & [_ H1] & H2 & _);
        apply sfs_block_writes in H as [Hwritten _] end.
      split; [done|]. split; [done|].
      eexists [_], [_; _]. exact Hwritten.
    - match goal with H : sfs_block _ _ _ _ = _ |- _ =>
        pose proof (sfs_block_inv _ _ _ _ _ _ H) as (n & _ & _ & [_ H1] & H2);
        apply sfs_block_writes in H as [Hwritten _] end.
      split; [done|]. split; [done|].
      eexists [_; _; _], []. exact Hwritten.
    - destruct v as [[mean tbl] se].
      match goal with H : r2_block _ _ _ _ _ = _ |- _ =>
        pose proof (r2_block_inv _ _ _ _ _ _ _ _ _ H) as (n & [_ H1] & H2);
        apply r2_block_writes in H as [Hwritten _] end.
      split; [done|]. split; [done|].
      eexists [_], []. exact Hwritten.
    - destruct v as [[mean tbl] se].
      match goal with H : dprime_block _ _ _ _ _ = _ |- _ =>
        pose proof (dprime_block_inv _ _ _ _ _ _ _ _ _ H) as (n & [_ H1] & H2);
        apply dprime_block_writes in H as [Hwritten _] end.
      split; [done|]. split; [done|].
      eexists [_], []. exact Hwritten. }
  destruct Hmain as (Hlen & -> & Hwritten). split; [done|]. split; [done|]. split; [done|].
  intros ->. apply Forall_fmap. eapply Forall_impl; [exact Hlen|].
  intros [|x [|y bin]] Hbin; simpl in Hbin; try done. apply np_std_single.
Qed.

Lemma reported_standard_error_is_np_std_witness :
  exists table ses w',
    replicates_and_se (float_str := exact_float_str) (std_str := exact_std_str)
      (example_functions []) (example_globals pairing spread_dists) 3 2 Pi fresh
    = (Finished (Ok (table, ses)), w')
    /\ Forall (fun bin => length bin = Z.to_nat 2) table
    /\ ses = map np_std table
    /\ (exists before after,
          report w' = report fresh ++ before
                        ++ se_line (std_str := exact_std_str) Pi (map np_std table) :: after)
    /\ (2 = 1 -> Forall (fun se => se = Sqrt (Q2Qc 0)) ses).
Proof.
  eexists _, _, _. split; [vm_compute; reflexivity|].
  eapply (reported_standard_error_is_np_std (float_str := exact_float_str)
            (std_str := exact_std_str) (example_functions [])
            (example_globals pairing spread_dists) 3 2 Pi fresh).
  vm_compute. reflexivity.
Defined.

(** ** Enough fuel *)

Lemma halts_bind {A B} (m : M A) (k : A -> M B) :
  halts m -> (forall a, halts (k a)) -> halts (mbind m k).
Proof.
  intros Hm Hk w. unfold mbind. specialize (Hm w).
  destruct (m w) as [[[a|e]|] w1]; simpl in *; [apply Hk|done|done].
Qed.

Lemma halts_finished {A} (m : M A) :
  (forall w, exists r, (m w).1 = Finished r) -> halts m.
Proof. intros Hm w. destruct (Hm w) as [r ->]. done. Qed.

Lemma halts_mret {A} (a : A) : halts (mret a).
Proof. apply halts_finished. eauto. Qed.
Lemma halts_raise {A} e : halts (@raise A e).
Proof. apply halts_finished. eauto. Qed.
Lemma halts_lift {A} (r : result A) : halts (lift r).
Proof. apply halts_finished. eauto. Qed.
Lemma halts_print s : halts (print s).
Proof. apply halts_finished. eauto. Qed.
Lemma halts_write f s : halts (write f s).
Proof. apply halts_finished. eauto. Qed.
Lemma halts_open_w : halts open_w.
Proof. apply halts_finished. eauto. Qed.
Lemma halts_global {A} name (b : option A) : halts (global name b).
Proof. apply halts_finished. intros w. destruct b; simpl; eauto. Qed.
Lemma halts_local {A} name (b : option A) : halts (local name b).
Proof. apply halts_finished. intros w. destruct b; simpl; eauto. Qed.
Lemma halts_call {A} (c : C A) : halts (call c).
Proof.
  apply halts_finished. intros w. unfold call. destruct (c (outside w)). simpl. eauto.
Qed.
Lemma halts_randint rng a b : halts (randint rng a b).
Proof. apply halts_finished. intros w. unfold randint. case_decide; simpl; eauto. Qed.
Lemma halts_len_of_int n : halts (len_of_int n).
Proof. apply halts_finished. eauto. Qed.

Lemma halts_for_each {A St} (xs : list A) (body : A -> St -> M St) s :
  (forall x s, halts (body x s)) -> halts (for_each xs body s).
Proof.
  intros Hbody. revert s. induction xs as [|x xs IH]; intros s; simpl.
  - apply halts_mret.
  - by apply halts_bind.
Qed.

(** A [while] loop whose guard can hold at most [bound] times has enough
    with [bound + 1] units of fuel. *)
Lemma halts_while {St} (I : nat -> St -> Prop) (bound fuel : nat)
    (cond : St -> M bool) (body : St -> M St) s :
  (forall s, halts (cond s)) -> (forall s, halts (body s)) ->
  I O s ->
  (forall n s w w1 s1 w2,
     I n s -> cond s w = (Finished (Ok true), w1) ->
     body s w1 = (Finished (Ok s1), w2) -> I (S n) s1) ->
  (forall n s w w1, I n s -> cond s w = (Finished (Ok true), w1) -> (n < bound)%nat) ->
  (bound < fuel)%nat ->
  halts (while fuel cond body s).
Proof.
  intros Hcond Hbody H0 Hstep Hbound Hfuel.
  assert (Hgen : forall fuel n s, I n s -> (n <= bound)%nat -> (bound < n + fuel)%nat ->
            halts (while fuel cond body s)).
  { clear fuel Hfuel s H0. induction fuel as [|fuel IH]; intros n s Hn Hle Hlt; [lia|].
    intros w. simpl. unfold mbind.
    pose proof (Hcond s w) as Hc.
    destruct (cond s w) as [[[[]|e]|] w1] eqn:Hrun; simpl in *; try done.
    pose proof (Hbody s w1) as Hb.
    destruct (body s w1) as [[[s1|e]|] w2] eqn:Hrun2; simpl in *; try done.
    pose proof (Hbound n s w w1 Hn Hrun).
    apply (IH (S n)); [by eapply Hstep|lia|lia]. }
  apply (Hgen fuel 0%nat); [done|lia|lia].
Qed.

Create HintDb halts.
#[local] Hint Resolve halts_mret halts_raise halts_lift halts_print halts_write
  halts_open_w halts_global halts_local halts_call halts_randint halts_len_of_int
  : halts.

Lemma halts_bind_global {A B} name (b : option A) (k : A -> M B) :
  (forall v, b = Some v -> halts (k v)) -> halts (mbind (global name b) k).
Proof. intros Hk. destruct b as [v|]; [by apply (Hk v)|done]. Qed.

Ltac halts_steps :=
  repeat first
    [ progress intros
    | progress cbv zeta
    | solve [auto with halts]
    | apply halts_bind_global
    | apply halts_bind
    | apply halts_for_each
    | match goal with |- halts (if ?b then _ else _) => destruct b end
    | match goal with |- halts (match ?x with _ => _ end) => destruct x end ].

Section enough_fuel.
Context (BF : bootstrap_func) (G : globals).
Context {float_str : PyStr Qc} {std_str : PyStr stdval}.
Variable fuel : nat.
Variable R : Z.
Hypothesis enough : (Z.to_nat R < fuel)%nat.

Lemma resample_regions_halts : halts (resample_regions G).
Proof. unfold resample_regions. halts_steps. Qed.

Lemma resample_sites_halts : halts (resample_sites G).
Proof. unfold resample_sites. halts_steps. Qed.

Lemma resample_pairs_halts n1 n2 v d : halts (resample_pairs G n1 n2 v d).
Proof. unfold resample_pairs. halts_steps. Qed.

Lemma std_of_bins_halts t : halts (std_of_bins G t).
Proof. unfold std_of_bins. halts_steps. Qed.

Lemma more_replicates_halts t : halts (more_replicates R t).
Proof. unfold more_replicates. halts_steps. Qed.

Lemma more_replicates_bound nbins n t w w1 :
  filled nbins n t ->
  more_replicates R t w = (Finished (Ok true), w1) -> (n < Z.to_nat R)%nat.
Proof.
  intros [Hlen Hall] (first & Hfirst & Hgo)%more_replicates_inv.
  symmetry in Hgo. apply bool_decide_eq_true in Hgo.
  pose proof (proj1 (Forall_lookup _ _) Hall _ _ Hfirst) as Hfirst_len.
  simpl in Hfirst_len. unfold len in Hgo. lia.
Qed.

#[local] Hint Resolve resample_regions_halts resample_sites_halts
  resample_pairs_halts std_of_bins_halts more_replicates_halts : halts.

Lemma r2_block_halts : halts (r2_block BF G fuel R).
Proof.
  unfold r2_block. halts_steps.
  match goal with |- halts (while _ _ _ (empty_bins ?nbins)) =>
    apply (halts_while (fun n t => filled nbins n t) (Z.to_nat R))
  end; try done.
  - halts_steps.
  - halts_steps.
  - split; apply empty_bins_lengths.
  - intros n t w1 w2 t1 w3 [Hlen Hall] _ Hstep. inv_run. same_binding.
    eapply record_bins_lengths; eauto.
  - intros n t w1 w2. apply more_replicates_bound.
Qed.

Lemma dprime_block_halts : halts (dprime_block BF G fuel R).
Proof.
  unfold dprime_block. halts_steps.
  match goal with |- halts (while _ _ _ (empty_bins ?nbins)) =>
    apply (halts_while (fun n t => filled nbins n t) (Z.to_nat R))
  end; try done.
  - halts_steps.
  - halts_steps.
  - split; apply empty_bins_lengths.
  - intros n t w1 w2 t1 w3 [Hlen Hall] _ Hstep. inv_run. same_binding.
    eapply record_bins_lengths; eauto.
  - intros n t w1 w2. apply more_replicates_bound.
Qed.

Lemma pi_block_halts : halts (pi_block BF G R).
Proof. unfold pi_block. halts_steps. Qed.

Lemma sfs_block_halts : halts (sfs_block BF G R).
Proof. unfold sfs_block. halts_steps. Qed.

#[local] Hint Resolve r2_block_halts dprime_block_halts pi_block_halts sfs_block_halts
  : halts.

Lemma freq_section_halts s : halts (freq_section BF G R s).
Proof. unfold freq_section, freq_population. halts_steps. Qed.

Lemma ld_section_halts s : halts (ld_section BF G fuel R s).
Proof. unfold ld_section, ld_population. halts_steps. Qed.

Lemma fst_section_halts s : halts (fst_section BF R s).
Proof. unfold fst_section, fst_comparison. halts_steps. Qed.
End enough_fuel.

(** X23: with more fuel than replicates, [execute_bootstrap] finishes: it
    returns or raises.  The two [while] loops of the LD statistics add
    one replicate to every bin at each pass, so they stop after
    [nBootstrapReps] passes whatever the data and the collaborators. *)
Lemma execute_bootstrap_halts (BF : bootstrap_func) (G : globals)
    {float_str : PyStr Qc} {std_str : PyStr stdval} (fuel : nat) (args : Args) :
  (Z.to_nat (nBootstrapReps args) < fuel)%nat ->
  halts (execute_bootstrap BF G fuel args).
Proof.
  intros Hfuel. unfold execute_bootstrap, when_given.
  pose proof (freq_section_halts BF G (nBootstrapReps args)).
  pose proof (ld_section_halts BF G fuel (nBootstrapReps args) Hfuel).
  pose proof (fst_section_halts BF (nBootstrapReps args)).
  halts_steps.
Qed.

(** * More of the code *)

(** ** Strings and loops *)


Lemma string_app_cons a (s1 s2 : string) : String a s1 +:+ s2 = String a (s1 +:+ s2).
Proof. reflexivity. Qed.

Lemma string_app_assoc (s1 s2 s3 : string) : (s1 +:+ s2) +:+ s3 = s1 +:+ (s2 +:+ s3).
Proof. induction s1 as [|a s1 IH]; [done|]. by rewrite !string_app_cons, IH. Qed.

Lemma string_app_nil_r (s : string) : s +:+ EmptyString = s.
Proof. induction s as [|a s IH]; [done|]. by rewrite string_app_cons, IH. Qed.

Lemma rfold_app {A St} (xs ys : list A) (body : A -> St -> result St) s :
  rfold (xs ++ ys) body s = (s' <-- rfold xs body s ;; rfold ys body s').
Proof.
  revert s. induction xs as [|x xs IH]; intros s; simpl; [done|].
  destruct (body x s); simpl; [apply IH|done].
Qed.

Lemma range_succ n : 0 <= n -> range (n + 1) = range n ++ [n].
Proof.
  intros Hn. unfold range, range2. rewrite !Z.sub_0_r, seqZ_app by lia.
  by rewrite (seqZ_cons (0 + n)), (seqZ_nil (Z.succ (0 + n))) by lia.
Qed.

Lemma rfold_subscript {A St} (es : list A) (g : St -> A -> St) (n : nat) acc :
  (n <= length es)%nat ->
  rfold (range (Z.of_nat n))
    (fun i acc => e <-- subscript es i ;; Ok (g acc e)) acc
  = Ok (foldl g acc (take n es)).
Proof.
  induction n as [|n IH]; intros Hn; [done|].
  rewrite Nat2Z.inj_succ, <-Z.add_1_r, range_succ, rfold_app by lia.
  rewrite IH by lia. simpl.
  destruct (lookup_lt_is_Some_2 es n) as [e He]; [lia|].
  rewrite (subscript_nat _ _ _ He). simpl.
  by rewrite (take_S_r _ _ _ He), foldl_app.
Qed.


(** *** [write_bin_paramfile] *)

Section write_bin_paramfile_facts.
Context {B : Type} `{PyStr B}.
Variable isspace : ascii -> bool.

Lemma sweep_line_ok line (bounds : list B) b0 b1 :
  bounds !! 0%nat = Some b0 -> bounds !! 1%nat = Some b1 ->
  contains "sweep_mult" line = true ->
  sweep_line isspace line bounds = Ok (rewritten isspace b0 b1 line).
Proof.
  intros H0 H1 Hsweep. unfold sweep_line, rewritten. rewrite Hsweep. cbv zeta.
  set (entries := split_whitespace isspace line).
  rewrite <-(range_of_to_nat (len entries - 1)).
  replace (Z.to_nat (len entries - 1)) with (length entries - 1)%nat by (unfold len; lia).
  rewrite (rfold_subscript entries (fun w e => w +:+ (e +:+ " "))) by lia. simpl.
  pose proof (subscript_nat _ _ _ H0) as E0. change (Z.of_nat 0) with 0 in E0.
  pose proof (subscript_nat _ _ _ H1) as E1. change (Z.of_nat 1) with 1 in E1.
  by rewrite E0, E1.
Qed.

Lemma os_eta (s : os) : Os (fs s) (console s) (ran s) = s.
Proof. by destruct s. Qed.

Lemma io_bind_ok {A C} (m : IO A) (k : A -> IO C) s a s' :
  m s = (Returned a, s') -> io_bind m k s = k a s'.
Proof. intros Hm. unfold io_bind. by rewrite Hm. Qed.

Lemma file_write_ok handle text content s :
  fs s !! handle = Some (File content) ->
  file_write handle text s
  = (Returned tt, Os (<[handle := File (content +:+ text)]> (fs s)) (console s) (ran s)).
Proof. intros Hh. unfold file_write. by rewrite Hh. Qed.

Lemma write_loop (writefile : string) (bounds : list B) b0 b1 lines :
  bounds !! 0%nat = Some b0 -> bounds !! 1%nat = Some b1 ->
  forall foundSweep content s,
    fs s !! writefile = Some (File content) ->
    io_for lines
      (fun line foundSweep =>
         if negb (contains "sweep_mult" line) then
           _ <<- file_write writefile line ;;
           io_ret true
         else
           writestring <<- io_lift (sweep_line isspace line bounds) ;;
           _ <<- file_write writefile writestring ;;
           io_ret foundSweep)
      foundSweep s
    = (Returned (foundSweep || existsb (fun line => negb (contains "sweep_mult" line)) lines),
       Os (<[writefile := File (content +:+ text_of_lines (map (rewritten isspace b0 b1) lines))]>
             (fs s))
          (console s) (ran s)).
Proof.
  intros H0 H1. induction lines as [|line lines IH]; intros found content s Hw.
  { simpl. unfold io_ret. rewrite orb_false_r, string_app_nil_r, insert_id by done.
    by rewrite os_eta. }
  simpl io_for.
  destruct (contains "sweep_mult" line) eqn:Hline; simpl negb; cbv iota.
  - erewrite io_bind_ok; last first.
    { erewrite io_bind_ok; last first.
      { unfold io_lift. by rewrite (sweep_line_ok line bounds b0 b1). }
      erewrite io_bind_ok; [reflexivity|by apply file_write_ok]. }
    rewrite (IH found (content +:+ rewritten isspace b0 b1 line)) by apply lookup_insert_eq.
    simpl. rewrite Hline. simpl. by rewrite insert_insert_eq, string_app_assoc.
  - erewrite io_bind_ok; last first.
    { erewrite io_bind_ok; [reflexivity|by apply file_write_ok]. }
    rewrite (IH true (content +:+ line)) by apply lookup_insert_eq.
    simpl. rewrite Hline. simpl. rewrite orb_true_r.
    rewrite insert_insert_eq, string_app_assoc.
    unfold rewritten at 2. by rewrite Hline.
Qed.

(** The run of [write_bin_paramfile] on a file and two bounds. *)
Lemma write_bin_paramfile_run readfilename writefilename (bounds : list B) b0 b1 content s :
  fs s !! readfilename = Some (File content) ->
  readfilename <> writefilename ->
  (forall names size, fs s !! writefilename <> Some (Dir names size)) ->
  bounds !! 0%nat = Some b0 -> bounds !! 1%nat = Some b1 ->
  write_bin_paramfile isspace readfilename writefilename bounds s
  = (Returned tt,
     Os (<[writefilename := File (text_of_lines (map (rewritten isspace b0 b1) (lines_of content)))]>
           (fs s))
        (console s
         ++ if forallb (contains "sweep_mult") (lines_of content) then [sweep_error] else [])
        (ran s)).
Proof.
  intros Hr Hne Hw H0 H1. unfold write_bin_paramfile.
  unfold io_bind at 1, open_read. rewrite Hr.
  unfold io_bind at 1, open_write.
  assert (Hopen : match fs s !! writefilename with
                  | Some (Dir _ _) => (Threw (OSError writefilename), s)
                  | _ => (Returned writefilename,
                          Os (<[writefilename := File EmptyString]> (fs s)) (console s) (ran s))
                  end
                  = (Returned writefilename,
                     Os (<[writefilename := File EmptyString]> (fs s)) (console s) (ran s))).
  { destruct (fs s !! writefilename) as [[c|names size]|] eqn:E; try done. by destruct (Hw names size). }
  rewrite Hopen. unfold io_bind at 1, readlines. simpl fs.
  rewrite lookup_insert_ne, Hr by done.
  unfold io_bind at 1.
  rewrite (write_loop writefilename bounds b0 b1 _ H0 H1 false EmptyString)
    by apply lookup_insert_eq.
  simpl. rewrite insert_insert_eq.
  assert (Hflag : existsb (fun line => negb (contains "sweep_mult" line)) (lines_of content)
                  = negb (forallb (contains "sweep_mult") (lines_of content))).
  { induction (lines_of content) as [|l ls IHl]; [done|]. simpl. rewrite IHl.
    by destruct (contains "sweep_mult" l), (forallb (contains "sweep_mult") ls). }
  rewrite Hflag. destruct (forallb (contains "sweep_mult") (lines_of content)); simpl.
  - reflexivity.
  - unfold io_ret. by rewrite app_nil_r.
Qed.
End write_bin_paramfile_facts.

(** *** Lines *)

Lemma text_of_split_lines (text : string) : text_of_lines (split_lines text) = text.
Proof.
  induction text as [|a text IH]; [done|]. simpl.
  destruct (decide (a = ascii_of_nat 10)) as [->|Ha].
  - simpl. by rewrite IH.
  - destruct (split_lines text) as [|line lines]; simpl in *.
    + by rewrite <-IH.
    + by rewrite string_app_cons, IH.
Qed.

Lemma split_lines_terminated line rest :
  terminated line -> split_lines (line +:+ rest) = line :: split_lines rest.
Proof.
  intros (body & -> & Hbody). induction body as [|a body IH].
  - done.
  - simpl in Hbody. apply andb_prop in Hbody as [Ha Hbody].
    apply negb_true_iff, bool_decide_eq_false in Ha.
    rewrite !string_app_cons. simpl. rewrite decide_False by done.
    by rewrite IH.
Qed.

Lemma split_lines_unterminated line : unterminated line -> split_lines line = [line].
Proof.
  intros [Hne Hline]. induction line as [|a line IH]; [done|].
  simpl in Hline. apply andb_prop in Hline as [Ha Hline].
  apply negb_true_iff, bool_decide_eq_false in Ha.
  simpl. rewrite decide_False by done.
  destruct line as [|b line]; [done|]. by rewrite IH.
Qed.

Lemma split_lines_text_of_lines lines :
  proper_lines lines -> split_lines (text_of_lines lines) = lines.
Proof.
  induction 1 as [|line Hline|line lines Hline Hlines IH]; simpl.
  - done.
  - rewrite string_app_nil_r. by apply split_lines_unterminated.
  - by rewrite split_lines_terminated, IH.
Qed.

Lemma split_lines_proper text : proper_lines (split_lines text).
Proof.
  induction text as [|a text IH]; simpl; [constructor|].
  destruct (decide (a = ascii_of_nat 10)) as [->|Ha].
  - apply proper_cons; [|done]. by exists EmptyString.
  - assert (Hneg : negb (bool_decide (a = ascii_of_nat 10)) = true).
    { by apply negb_true_iff, bool_decide_eq_false. }
    inversion IH as [|line [Hne Hline]|line lines (body & -> & Hbody) Hlines]; subst.
    + apply proper_last. split; [done|]. simpl. by rewrite Hneg.
    + apply proper_last. split; [done|]. simpl. by rewrite Hneg, Hline.
    + apply proper_cons; [|done]. exists (String a body). split; [done|].
      simpl. by rewrite Hneg, Hbody.
Qed.

Lemma no_cr_app s1 s2 : no_cr (s1 +:+ s2) = no_cr s1 && no_cr s2.
Proof.
  induction s1 as [|a s1 IH]; [done|].
  rewrite string_app_cons. simpl. by rewrite IH, andb_assoc.
Qed.

Lemma no_cr_text_of_lines lines : no_cr (text_of_lines lines) = forallb no_cr lines.
Proof.
  induction lines as [|line lines IH]; [done|]. simpl. by rewrite no_cr_app, IH.
Qed.

(** What is read holds no carriage return, and a content without one is
    read as it is. *)
Lemma translate_newlines_no_cr after_cr content :
  no_cr (translate_newlines after_cr content) = true.
Proof.
  revert after_cr. induction content as [|a content IH]; intros after_cr; [done|].
  simpl. destruct (decide (a = ascii_of_nat 13)) as [->|Ha]; [simpl; apply IH|].
  assert (Hneg : negb (bool_decide (a = ascii_of_nat 13)) = true).
  { by apply negb_true_iff, bool_decide_eq_false. }
  destruct (decide (a = ascii_of_nat 10)); [destruct after_cr|]; simpl;
    rewrite ?Hneg; apply IH.
Qed.

Lemma translate_newlines_id content :
  no_cr content = true -> translate_newlines false content = content.
Proof.
  induction content as [|a content IH]; [done|]. simpl.
  intros [Ha Hcontent]%andb_prop. apply negb_true_iff, bool_decide_eq_false in Ha.
  rewrite decide_False by done. rewrite IH by done. by destruct (decide (a = ascii_of_nat 10)).
Qed.

Lemma universal_newlines_no_cr content : no_cr (universal_newlines content) = true.
Proof. apply translate_newlines_no_cr. Qed.

Lemma universal_newlines_id content :
  no_cr content = true -> universal_newlines content = content.
Proof. apply translate_newlines_id. Qed.

Lemma universal_newlines_nonempty content :
  content <> EmptyString -> universal_newlines content <> EmptyString.
Proof.
  destruct content as [|a content]; [done|]. intros _. unfold universal_newlines. simpl.
  destruct (decide (a = ascii_of_nat 13)); [done|].
  by destruct (decide (a = ascii_of_nat 10)).
Qed.

Lemma text_of_lines_of content : text_of_lines (lines_of content) = universal_newlines content.
Proof. apply text_of_split_lines. Qed.

Lemma lines_of_proper content : proper_lines (lines_of content).
Proof. apply split_lines_proper. Qed.

Lemma lines_of_no_cr content : forallb no_cr (lines_of content) = true.
Proof. by rewrite <-no_cr_text_of_lines, text_of_lines_of, universal_newlines_no_cr. Qed.

(** Lines without a carriage return are read back as they were written. *)
Lemma lines_of_text_of_lines lines :
  proper_lines lines -> forallb no_cr lines = true -> lines_of (text_of_lines lines) = lines.
Proof.
  intros Hproper Hcr. unfold lines_of.
  rewrite universal_newlines_id by (by rewrite no_cr_text_of_lines).
  by apply split_lines_text_of_lines.
Qed.

(** *** White space *)

Section sweep_lines.
Context {B : Type} `{PyStr B}.
Variable isspace : ascii -> bool.
Hypothesis space_is_space : isspace " " = true.
Hypothesis newline_is_space : isspace (ascii_of_nat 10) = true.
Hypothesis dash_is_no_space : isspace "-" = false.
Hypothesis cr_is_space : isspace (ascii_of_nat 13) = true.

Lemma split_whitespace_word t c s :
  is_word isspace t -> isspace c = true ->
  split_whitespace isspace (t +:+ String c s) = t :: split_whitespace isspace s.
Proof.
  intros [Ht Hne] Hc. induction t as [|a t IH]; [done|].
  simpl in Ht. apply andb_prop in Ht as [Ha Ht]. apply negb_true_iff in Ha.
  rewrite string_app_cons. simpl. rewrite Ha.
  destruct t as [|b t].
  - simpl. by rewrite Hc.
  - rewrite IH by done. simpl in Ht. apply andb_prop in Ht as [Hb _].
    rewrite string_app_cons. simpl. by rewrite Hb.
Qed.

Lemma split_whitespace_words s : Forall (is_word isspace) (split_whitespace isspace s).
Proof.
  induction s as [|a s IH]; simpl; [constructor|].
  destruct (isspace a) eqn:Ha; [done|].
  destruct (starts_word isspace s) eqn:Hs.
  - inversion IH as [|w ws [Hw Hne] Hws Heq]; subst.
    + repeat constructor; simpl; [by rewrite Ha|done].
    + constructor; [|done]. split; [|done]. simpl. by rewrite Ha, Hw.
  - constructor; [|done]. split; [|done]. simpl. by rewrite Ha.
Qed.

Lemma spaced_from (writestring : string) entries :
  foldl (fun writestring entry => writestring +:+ (entry +:+ " ")) writestring entries
  = writestring +:+ text_of_lines (map (fun entry => entry +:+ " ") entries).
Proof.
  revert writestring. induction entries as [|e es IH]; intros w; simpl.
  - by rewrite string_app_nil_r.
  - by rewrite IH, string_app_assoc.
Qed.

Lemma split_whitespace_spaced entries rest :
  Forall (is_word isspace) entries ->
  split_whitespace isspace (spaced entries +:+ rest)
  = entries ++ split_whitespace isspace rest.
Proof.
  unfold spaced. rewrite spaced_from. change (EmptyString +:+ ?x) with x.
  induction 1 as [|e es He Hes IH]; simpl; [done|].
  rewrite !string_app_assoc. change (" " +:+ ?x) with (String " " x).
  by rewrite split_whitespace_word, IH.
Qed.

Lemma spaceless_app s1 s2 :
  spaceless isspace (s1 +:+ s2) = spaceless isspace s1 && spaceless isspace s2.
Proof.
  induction s1 as [|a s1 IH]; [done|].
  rewrite string_app_cons. simpl. by rewrite IH, andb_assoc.
Qed.

Lemma no_newline_app s1 s2 : no_newline (s1 +:+ s2) = no_newline s1 && no_newline s2.
Proof.
  induction s1 as [|a s1 IH]; [done|].
  rewrite string_app_cons. simpl. by rewrite IH, andb_assoc.
Qed.

Lemma spaceless_no_newline s : spaceless isspace s = true -> no_newline s = true.
Proof.
  induction s as [|a s IH]; [done|]. simpl.
  intros [Ha Hs]%andb_prop. rewrite IH by done. rewrite andb_true_r.
  apply negb_true_iff, bool_decide_eq_false. intros ->.
  by rewrite newline_is_space in Ha.
Qed.

Lemma spaceless_no_cr s : spaceless isspace s = true -> no_cr s = true.
Proof.
  induction s as [|a s IH]; [done|]. simpl.
  intros [Ha Hs]%andb_prop. rewrite IH by done. rewrite andb_true_r.
  apply negb_true_iff, bool_decide_eq_false. intros ->.
  by rewrite cr_is_space in Ha.
Qed.

Lemma no_cr_spaced entries : Forall (is_word isspace) entries -> no_cr (spaced entries) = true.
Proof.
  unfold spaced. rewrite spaced_from. change (EmptyString +:+ ?x) with x.
  induction 1 as [|e es [He _] Hes IH]; simpl; [done|].
  rewrite !no_cr_app, IH, (spaceless_no_cr e) by done. done.
Qed.

Lemma no_newline_spaced entries : Forall (is_word isspace) entries -> no_newline (spaced entries) = true.
Proof.
  unfold spaced. rewrite spaced_from. change (EmptyString +:+ ?x) with x.
  induction 1 as [|e es [He _] Hes IH]; simpl; [done|].
  rewrite !no_newline_app, IH, (spaceless_no_newline e) by done. done.
Qed.

Section bounds.
Variables b0 b1 : B.
Hypothesis b0_spaceless : spaceless isspace (str b0) = true.
Hypothesis b1_spaceless : spaceless isspace (str b1) = true.

Lemma bounds_word : is_word isspace ((str b0 +:+ "-") +:+ str b1).
Proof.
  split.
  - rewrite !spaceless_app, b0_spaceless, b1_spaceless. simpl.
    by rewrite dash_is_no_space.
  - destruct (str b0); done.
Qed.

Lemma take_words n entries : Forall (is_word isspace) entries -> Forall (is_word isspace) (take n entries).
Proof. apply Forall_take. Qed.

Lemma rewritten_terminated line :
  contains "sweep_mult" line = true -> terminated (rewritten isspace b0 b1 line).
Proof.
  intros Hline. unfold rewritten. rewrite Hline. cbv zeta.
  rewrite <-string_app_assoc. eexists. split; [reflexivity|].
  rewrite no_newline_app, no_newline_spaced
    by apply take_words, split_whitespace_words.
  apply spaceless_no_newline, bounds_word.
Qed.

Lemma rewritten_no_cr line : no_cr line = true -> no_cr (rewritten isspace b0 b1 line) = true.
Proof.
  intros Hline. unfold rewritten. destruct (contains "sweep_mult" line); [|done].
  cbv zeta. rewrite !no_cr_app, no_cr_spaced by apply take_words, split_whitespace_words.
  by rewrite (spaceless_no_cr (str b0)), (spaceless_no_cr (str b1)).
Qed.

Lemma rewritten_lines_no_cr lines :
  forallb no_cr lines = true -> forallb no_cr (map (rewritten isspace b0 b1) lines) = true.
Proof.
  induction lines as [|line lines IH]; [done|]. simpl.
  intros [Hline Hlines]%andb_prop. by rewrite rewritten_no_cr, IH.
Qed.

Lemma rewritten_idem line :
  rewritten isspace b0 b1 (rewritten isspace b0 b1 line) = rewritten isspace b0 b1 line.
Proof.
  destruct (contains "sweep_mult" line) eqn:Hline; last first.
  { unfold rewritten. by rewrite !Hline. }
  set (kept := take (length (split_whitespace isspace line) - 1)
                 (split_whitespace isspace line)).
  set (bounds := (str b0 +:+ "-") +:+ str b1).
  assert (Hrw : rewritten isspace b0 b1 line = spaced kept +:+ (bounds +:+ nl)).
  { unfold rewritten. by rewrite Hline. }
  assert (Hkept : Forall (is_word isspace) kept) by apply take_words, split_whitespace_words.
  assert (Hsplit : split_whitespace isspace (rewritten isspace b0 b1 line) = kept ++ [bounds]).
  { rewrite Hrw, split_whitespace_spaced by done.
    change (bounds +:+ nl) with (bounds +:+ String (ascii_of_nat 10) EmptyString).
    by rewrite split_whitespace_word by (done || apply bounds_word). }
  unfold rewritten at 1.
  destruct (contains "sweep_mult" (rewritten isspace b0 b1 line)); [|done].
  cbv zeta. rewrite Hsplit, length_app. simpl.
  replace (length kept + 1 - 1)%nat with (length kept) by lia.
  by rewrite take_app_length, Hrw.
Qed.

Lemma rewritten_proper lines :
  proper_lines lines -> proper_lines (map (rewritten isspace b0 b1) lines).
Proof.
  induction 1 as [|line Hline|line lines Hline Hlines IH]; simpl.
  - constructor.
  - destruct (contains "sweep_mult" line) eqn:Hsweep.
    + apply proper_cons; [by apply rewritten_terminated|constructor].
    + unfold rewritten. rewrite Hsweep. by apply proper_last.
  - apply proper_cons; [|done].
    destruct (contains "sweep_mult" line) eqn:Hsweep.
    + by apply rewritten_terminated.
    + unfold rewritten. by rewrite Hsweep.
Qed.
End bounds.
End sweep_lines.

(** *** What [write_bin_paramfile] writes *)

Lemma forallb_true_Forall {A} (f : A -> bool) l :
  Forall (fun x => f x = true) l -> forallb f l = true.
Proof. induction 1 as [|x l Hx Hl IH]; [done|]. simpl. by rewrite Hx, IH. Qed.

Lemma forallb_false_Exists {A} (f : A -> bool) l :
  Exists (fun x => f x = false) l -> forallb f l = false.
Proof.
  induction 1 as [x l Hx|x l Hl IH]; simpl; [by rewrite Hx|].
  rewrite IH. apply andb_false_r.
Qed.

(** X4: [write_bin_paramfile] writes one line for every line it reads
    (a line of the input ends at CR LF, CR or LF, and is read with LF).  A
    line that does not mention [sweep_mult] is copied as it was read; a
    line that does loses its last entry, has its other entries separated
    by single spaces, and ends with the two bounds [b0-b1] and a line
    feed.  No other file is touched. *)
Theorem write_bin_paramfile_rewrites_lines {B : Type} `{PyStr B} (isspace : ascii -> bool)
    readfilename writefilename (bounds : list B) b0 b1 content s :
  isspace " "%char = true -> isspace (ascii_of_nat 10) = true -> isspace "-"%char = false ->
  isspace (ascii_of_nat 13) = true ->
  spaceless isspace (str b0) = true -> spaceless isspace (str b1) = true ->
  fs s !! readfilename = Some (File content) ->
  readfilename <> writefilename ->
  (forall names size, fs s !! writefilename <> Some (Dir names size)) ->
  bounds !! 0%nat = Some b0 -> bounds !! 1%nat = Some b1 ->
  exists out s',
    write_bin_paramfile isspace readfilename writefilename bounds s = (Returned tt, s')
    /\ fs s' = <[writefilename := File out]> (fs s)
    /\ lines_of out = map (rewritten isspace b0 b1) (lines_of content).
Proof.
  intros Hsp Hnl Hdash Hcr Hb0 Hb1 Hr Hne Hw H0 H1.
  eexists _, _. split; [by apply (write_bin_paramfile_run isspace _ _ bounds b0 b1 content)|].
  split; [reflexivity|].
  apply lines_of_text_of_lines.
  - apply rewritten_proper; try done. apply lines_of_proper.
  - apply rewritten_lines_no_cr; try done. apply lines_of_no_cr.
Qed.

Lemma write_bin_paramfile_rewrites_lines_witness :
  exists out s',
    write_bin_paramfile Ascii.is_space "in.par" "out.par" [5; 95] example_os = (Returned tt, s')
    /\ fs s' = <[ "out.par" := File out]> (fs example_os)
    /\ lines_of out = map (rewritten Ascii.is_space 5 95) (lines_of example_params).
Proof.
  apply (write_bin_paramfile_rewrites_lines Ascii.is_space "in.par" "out.par" [5; 95] 5 95
           example_params example_os); try reflexivity; try done.
Defined.

(** X5: the message that no sweep parameters were found is printed
    exactly when every line of the input mentions [sweep_mult] (an empty
    input included): the flag is set by the lines that are copied, not
    by the sweep lines.  An input without any sweep line is copied as it
    was read (its line ends as line feeds), and when it has a line
    nothing is reported. *)
Theorem write_bin_paramfile_error_message {B : Type} `{PyStr B} (isspace : ascii -> bool)
    readfilename writefilename (bounds : list B) b0 b1 content s :
  fs s !! readfilename = Some (File content) ->
  readfilename <> writefilename ->
  (forall names size, fs s !! writefilename <> Some (Dir names size)) ->
  bounds !! 0%nat = Some b0 -> bounds !! 1%nat = Some b1 ->
  let r := write_bin_paramfile isspace readfilename writefilename bounds s in
  r.1 = Returned tt
  /\ (Forall (fun line => contains "sweep_mult" line = true) (lines_of content) ->
      console r.2 = console s ++ [sweep_error])
  /\ (Exists (fun line => contains "sweep_mult" line = false) (lines_of content) ->
      console r.2 = console s)
  /\ (Forall (fun line => contains "sweep_mult" line = false) (lines_of content) ->
      fs r.2 !! writefilename = Some (File (universal_newlines content))).
Proof.
  intros Hr Hne Hw H0 H1 r. unfold r.
  rewrite (write_bin_paramfile_run isspace _ _ bounds b0 b1 content) by done.
  simpl. split; [done|]. split; [|split].
  - intros Hall. by rewrite forallb_true_Forall.
  - intros Hsome. by rewrite forallb_false_Exists, app_nil_r.
  - intros Hnone. rewrite lookup_insert_eq. do 2 f_equal.
    rewrite <-(text_of_lines_of content). f_equal.
    induction Hnone as [|line lines Hline Hlines IH]; [done|]. simpl.
    rewrite IH. unfold rewritten. by rewrite Hline.
Qed.

Lemma write_bin_paramfile_error_message_witness :
  let r := write_bin_paramfile Ascii.is_space "in.par" "out.par" [5; 95] example_os in
  r.1 = Returned tt
  /\ (Forall (fun line => contains "sweep_mult" line = true) (lines_of example_params) ->
      console r.2 = console example_os ++ [sweep_error])
  /\ (Exists (fun line => contains "sweep_mult" line = false) (lines_of example_params) ->
      console r.2 = console example_os)
  /\ (Forall (fun line => contains "sweep_mult" line = false) (lines_of example_params) ->
      fs r.2 !! "out.par" = Some (File (universal_newlines example_params))).
Proof.
  apply (write_bin_paramfile_error_message Ascii.is_space "in.par" "out.par" [5; 95] 5 95
           example_params example_os); try reflexivity; try done.
Defined.

(** X6: rewriting the output of [write_bin_paramfile] with the same
    bounds gives the same file again. *)
Theorem write_bin_paramfile_idempotent {B : Type} `{PyStr B} (isspace : ascii -> bool)
    readfilename writefilename again (bounds : list B) b0 b1 content s :
  isspace " "%char = true -> isspace (ascii_of_nat 10) = true -> isspace "-"%char = false ->
  isspace (ascii_of_nat 13) = true ->
  spaceless isspace (str b0) = true -> spaceless isspace (str b1) = true ->
  fs s !! readfilename = Some (File content) ->
  readfilename <> writefilename -> writefilename <> again ->
  (forall names size, fs s !! writefilename <> Some (Dir names size)) ->
  (forall names size, fs s !! again <> Some (Dir names size)) ->
  bounds !! 0%nat = Some b0 -> bounds !! 1%nat = Some b1 ->
  exists out s1 s2,
    write_bin_paramfile isspace readfilename writefilename bounds s = (Returned tt, s1)
    /\ write_bin_paramfile isspace writefilename again bounds s1 = (Returned tt, s2)
    /\ fs s1 !! writefilename = Some (File out)
    /\ fs s2 !! again = Some (File out).
Proof.
  intros Hsp Hnl Hdash Hcr Hb0 Hb1 Hr Hne Hne2 Hw Hw2 H0 H1.
  eexists _, _, _. split; [by apply (write_bin_paramfile_run isspace _ _ bounds b0 b1 content)|].
  split.
  { apply (write_bin_paramfile_run isspace _ _ bounds b0 b1); try done.
    - apply lookup_insert_eq.
    - intros names size. simpl. rewrite lookup_insert_ne by done. apply Hw2. }
  simpl. split; [apply lookup_insert_eq|].
  rewrite lookup_insert_eq. do 2 f_equal.
  rewrite lines_of_text_of_lines; last first.
  { apply rewritten_lines_no_cr; try done. apply lines_of_no_cr. }
  { apply rewritten_proper; try done. apply lines_of_proper. }
  rewrite map_map. f_equal. apply map_ext. intros line. by apply rewritten_idem.
Qed.

Lemma write_bin_paramfile_idempotent_witness :
  exists out s1 s2,
    write_bin_paramfile Ascii.is_space "in.par" "out.par" [5; 95] example_os = (Returned tt, s1)
    /\ write_bin_paramfile Ascii.is_space "out.par" "again.par" [5; 95] s1 = (Returned tt, s2)
    /\ fs s1 !! "out.par" = Some (File out)
    /\ fs s2 !! "again.par" = Some (File out).
Proof.
  apply (write_bin_paramfile_idempotent Ascii.is_space "in.par" "out.par" "again.par"
           [5; 95] 5 95 example_params example_os); try reflexivity; try done.
Defined.

(** X7: when the file to read and the file to write are the same file,
    opening it for writing empties it before a line is read: the file is
    left empty and the missing sweep parameters are reported, whatever
    the file held and whatever the bounds. *)
Theorem write_bin_paramfile_same_file_is_emptied {B : Type} `{PyStr B}
    (isspace : ascii -> bool) filename (bounds : list B) content s :
  fs s !! filename = Some (File content) ->
  write_bin_paramfile isspace filename filename bounds s
  = (Returned tt,
     Os (<[filename := File EmptyString]> (fs s)) (console s ++ [sweep_error]) (ran s)).
Proof.
  intros Hf. unfold write_bin_paramfile.
  unfold io_bind at 1, open_read. rewrite Hf.
  unfold io_bind at 1, open_write. rewrite Hf.
  unfold io_bind at 1, readlines. simpl fs. rewrite lookup_insert_eq.
  reflexivity.
Qed.

Lemma write_bin_paramfile_same_file_is_emptied_witness :
  write_bin_paramfile Ascii.is_space "in.par" "in.par" [5; 95] example_os
  = (Returned tt,
     Os (<[ "in.par" := File EmptyString]> (fs example_os))
        (console example_os ++ [sweep_error]) (ran example_os)).
Proof.
  apply (write_bin_paramfile_same_file_is_emptied Ascii.is_space "in.par" [5; 95]
           example_params example_os).
  reflexivity.
Defined.

Section short_bounds.
Context {B : Type} `{PyStr B}.
Variable isspace : ascii -> bool.

Lemma sweep_line_short line (bounds : list B) :
  (length bounds < 2)%nat -> sweep_line isspace line bounds = Raise IndexError.
Proof.
  intros Hshort. unfold sweep_line. cbv zeta.
  set (entries := split_whitespace isspace line).
  rewrite <-(range_of_to_nat (len entries - 1)).
  replace (Z.to_nat (len entries - 1)) with (length entries - 1)%nat by (unfold len; lia).
  rewrite (rfold_subscript entries (fun w e => w +:+ (e +:+ " "))) by lia. simpl.
  destruct bounds as [|b0 [|b1 bounds]]; [done|done|simpl in Hshort; lia].
Qed.

Lemma io_for_app {A St} (xs ys : list A) (body : A -> St -> IO St) st s :
  io_for (xs ++ ys) body st s
  = io_bind (io_for xs body st) (fun st' => io_for ys body st') s.
Proof.
  revert st s. induction xs as [|x xs IH]; intros st s; [done|].
  simpl. unfold io_bind. destruct (body x st s) as [[a|e] s']; [|done].
  rewrite IH. reflexivity.
Qed.

Lemma copy_loop (writefile : string) (bounds : list B) lines :
  Forall (fun line => contains "sweep_mult" line = false) lines ->
  forall foundSweep content s,
    fs s !! writefile = Some (File content) ->
    io_for lines
      (fun line foundSweep =>
         if negb (contains "sweep_mult" line) then
           _ <<- file_write writefile line ;;
           io_ret true
         else
           writestring <<- io_lift (sweep_line isspace line bounds) ;;
           _ <<- file_write writefile writestring ;;
           io_ret foundSweep)
      foundSweep s
    = (Returned (foundSweep || bool_decide (lines <> [])),
       Os (<[writefile := File (content +:+ text_of_lines lines)]> (fs s))
          (console s) (ran s)).
Proof.
  induction 1 as [|line lines Hline Hlines IH]; intros found content s Hw.
  { simpl. unfold io_ret.
    by rewrite orb_false_r, string_app_nil_r, insert_id, os_eta. }
  simpl io_for. rewrite Hline. simpl negb. cbv iota.
  erewrite io_bind_ok; last first.
  { erewrite io_bind_ok; [reflexivity|by apply file_write_ok]. }
  rewrite (IH true (content +:+ line)) by apply lookup_insert_eq. simpl.
  by rewrite orb_true_r, insert_insert_eq, string_app_assoc.
Qed.
End short_bounds.

(** X8: the bounds are looked at only when a line with [sweep_mult] is
    met.  With fewer than two bounds the first such line raises
    IndexError, after the lines before it were written; an input without
    such a line is copied as it was read (its line ends as line feeds),
    whatever the bounds. *)
Theorem write_bin_paramfile_needs_two_bounds {B : Type} `{PyStr B} (isspace : ascii -> bool)
    readfilename writefilename (bounds : list B) content before s :
  fs s !! readfilename = Some (File content) ->
  readfilename <> writefilename ->
  (forall names size, fs s !! writefilename <> Some (Dir names size)) ->
  (length bounds < 2)%nat ->
  Forall (fun line => contains "sweep_mult" line = false) before ->
  ((exists sweep after,
      lines_of content = before ++ sweep :: after /\ contains "sweep_mult" sweep = true) ->
   write_bin_paramfile isspace readfilename writefilename bounds s
   = (Threw (Builtin IndexError),
      Os (<[writefilename := File (text_of_lines before)]> (fs s)) (console s) (ran s)))
  /\ (lines_of content = before ->
      (write_bin_paramfile isspace readfilename writefilename bounds s).1 = Returned tt
      /\ fs (write_bin_paramfile isspace readfilename writefilename bounds s).2
         !! writefilename = Some (File (universal_newlines content))).
Proof.
  intros Hr Hne Hw Hshort Hbefore.
  assert (Hopen : open_write writefilename s
                  = (Returned writefilename,
                     Os (<[writefilename := File EmptyString]> (fs s)) (console s) (ran s))).
  { unfold open_write.
    destruct (fs s !! writefilename) as [[c|names size]|] eqn:E; try done.
    by destruct (Hw names size). }
  set (s1 := Os (<[writefilename := File EmptyString]> (fs s)) (console s) (ran s)).
  assert (Hw1 : fs s1 !! writefilename = Some (File EmptyString)) by apply lookup_insert_eq.
  assert (Hlines : readlines readfilename s1 = (Returned (lines_of content), s1)).
  { unfold readlines. simpl. by rewrite lookup_insert_ne, Hr. }
  split.
  - intros (sweep & after & Hcontent & Hsweep). unfold write_bin_paramfile.
    erewrite io_bind_ok; [|unfold open_read; by rewrite Hr].
    erewrite io_bind_ok; [|exact Hopen].
    erewrite io_bind_ok; [|exact Hlines].
    rewrite Hcontent. unfold io_bind at 1. rewrite io_for_app.
    erewrite io_bind_ok;
      [|exact (copy_loop isspace writefilename bounds before Hbefore false EmptyString s1 Hw1)].
    simpl io_for. rewrite Hsweep. simpl negb. cbv iota.
    unfold io_bind at 1. unfold io_bind at 1. unfold io_lift.
    rewrite sweep_line_short by done. simpl.
    by rewrite insert_insert_eq.
  - intros Hcontent. unfold write_bin_paramfile.
    erewrite io_bind_ok; [|unfold open_read; by rewrite Hr].
    erewrite io_bind_ok; [|exact Hopen].
    erewrite io_bind_ok; [|exact Hlines].
    rewrite Hcontent.
    erewrite io_bind_ok;
      [|exact (copy_loop isspace writefilename bounds before Hbefore false EmptyString s1 Hw1)].
    assert (Htext : EmptyString +:+ text_of_lines before = universal_newlines content).
    { by rewrite <-Hcontent, text_of_lines_of. }
    rewrite Htext.
    destruct (bool_decide (false || bool_decide (before <> []) = false));
      simpl; by rewrite insert_insert_eq, lookup_insert_eq.
Qed.

Lemma write_bin_paramfile_needs_two_bounds_witness :
  ((exists sweep after,
      lines_of example_params = ["pop_define 1 european" +:+ nl] ++ sweep :: after
      /\ contains "sweep_mult" sweep = true) ->
   write_bin_paramfile Ascii.is_space "in.par" "out.par" [5] example_os
   = (Threw (Builtin IndexError),
      Os (<[ "out.par" := File (text_of_lines ["pop_define 1 european" +:+ nl])]>
            (fs example_os))
         (console example_os) (ran example_os)))
  /\ (lines_of example_params = ["pop_define 1 european" +:+ nl] ->
      (write_bin_paramfile Ascii.is_space "in.par" "out.par" [5] example_os).1 = Returned tt
      /\ fs (write_bin_paramfile Ascii.is_space "in.par" "out.par" [5] example_os).2
         !! "out.par" = Some (File (universal_newlines example_params))).
Proof.
  apply (write_bin_paramfile_needs_two_bounds Ascii.is_space "in.par" "out.par" [5]
           example_params ["pop_define 1 european" +:+ nl] example_os);
    try reflexivity; try done.
  - simpl. lia.
  - by repeat constructor.
Defined.

(** *** [run_traj] *)

Section run_traj_facts.
Variable isspace : ascii -> bool.
Variable check_output : nat -> list string -> gmap string node -> bool * gmap string node.

Lemma try_until_it_works_fails argv :
  (forall calls files, (check_output calls argv files).1 = false) ->
  forall fuel nAttempts s,
    let r := try_until_it_works check_output fuel argv nAttempts s in
    r.1 = None /\ console r.2 = console s /\ ran r.2 = ran s ++ replicate fuel argv.
Proof.
  intros Hfails. induction fuel as [|fuel IH]; intros n s; simpl.
  { by rewrite app_nil_r. }
  unfold try_check_output. rewrite Hfails.
  destruct (IH (n + 1) (Os (check_output (length (ran s)) argv (fs s)).2 (console s)
                          (ran s ++ [argv]))) as (Hnone & Hconsole & Hran).
  split; [done|]. split; [done|]. rewrite Hran. simpl. by rewrite <-app_assoc.
Qed.

Lemma try_until_first_success argv (k : nat) :
  forall fuel nAttempts s,
    (k < fuel)%nat ->
    (forall i, (i < k)%nat ->
       (check_output (length (ran s) + i) argv
          (fs_after check_output argv (length (ran s)) (fs s) i)).1 = false) ->
    (check_output (length (ran s) + k) argv
       (fs_after check_output argv (length (ran s)) (fs s) k)).1 = true ->
    try_until_it_works check_output fuel argv nAttempts s
    = (Some (Returned (nAttempts + Z.of_nat k + 1)),
       Os (fs_after check_output argv (length (ran s)) (fs s) (S k))
          (console s) (ran s ++ replicate (S k) argv)).
Proof.
  induction k as [|k IH]; intros fuel n s Hfuel Hfail Hwork.
  - destruct fuel as [|fuel]; [lia|]. simpl. unfold try_check_output.
    rewrite Nat.add_0_r in Hwork. simpl in Hwork. rewrite Hwork.
    do 3 f_equal. lia.
  - destruct fuel as [|fuel]; [lia|]. simpl try_until_it_works. unfold try_check_output.
    pose proof (Hfail 0%nat ltac:(lia)) as Hfirst.
    rewrite Nat.add_0_r in Hfirst. simpl in Hfirst. rewrite Hfirst.
    set (s1 := Os (check_output (length (ran s)) argv (fs s)).2 (console s) (ran s ++ [argv])).
    assert (Hlen : length (ran s1) = S (length (ran s))).
    { simpl. rewrite length_app. simpl. lia. }
    rewrite (IH fuel (n + 1) s1); [| lia | |].
    + rewrite Hlen. simpl. rewrite <-app_assoc. do 3 f_equal. lia.
    + intros i Hi. rewrite Hlen. specialize (Hfail (S i) ltac:(lia)).
      by rewrite Nat.add_succ_r in Hfail.
    + rewrite Hlen. by rewrite Nat.add_succ_r in Hwork.
Qed.
End run_traj_facts.

(** X9: [run_traj] never gives up.  When the simulator fails at every
    run, the command is run again and again: after any number of runs
    the loop is still turning, whatever [maxAttempts] is (it is only
    handed to the simulator in its environment), and the message that a
    trajectory was found is never printed. *)
Theorem run_traj_never_gives_up (isspace : ascii -> bool)
    (check_output : nat -> list string -> gmap string node -> bool * gmap string node)
    (fuel : nat) (output cosibuild params : string) (maxAttempts : Z) (s : os) :
  (forall calls argv files, (check_output calls argv files).1 = false) ->
  let commandstring := run_traj_command output cosibuild params maxAttempts in
  let r := run_traj isspace check_output fuel output cosibuild params maxAttempts s in
  r.1 = None
  /\ console r.2 = console s ++ [commandstring]
  /\ ran r.2 = ran s ++ replicate fuel (split_whitespace isspace commandstring).
Proof.
  intros Hfails commandstring r.
  destruct (try_until_it_works_fails check_output (split_whitespace isspace commandstring)
              (fun calls files => Hfails calls _ files) fuel 0
              (Os (fs s) (console s ++ [commandstring]) (ran s)))
    as (Hnone & Hconsole & Hran).
  destruct (try_until_it_works check_output fuel (split_whitespace isspace commandstring) 0
              (Os (fs s) (console s ++ [commandstring]) (ran s))) as [o s'] eqn:Htry.
  cbn [fst snd] in Hnone, Hconsole, Hran. subst o.
  assert (Hrun : r = (None, s')).
  { unfold r, run_traj. fold commandstring. clearbody commandstring.
    unfold io_print at 1. cbv beta iota. cbn [fs console ran]. by rewrite Htry. }
  by rewrite Hrun.
Qed.

Lemma run_traj_never_gives_up_witness :
  let commandstring := run_traj_command "traj.txt" "coalescent" "model.par" 100 in
  let r := run_traj Ascii.is_space never_works 1000 "traj.txt" "coalescent" "model.par" 100
             example_os in
  r.1 = None
  /\ console r.2 = console example_os ++ [commandstring]
  /\ ran r.2 = ran example_os ++ replicate 1000 (split_whitespace Ascii.is_space commandstring).
Proof.
  apply (run_traj_never_gives_up Ascii.is_space never_works 1000 "traj.txt" "coalescent"
           "model.par" 100 example_os).
  reflexivity.
Defined.

(** X10: [run_traj] stops at the first run of the simulator that
    succeeds.  When the runs before run [k] fail and run [k] succeeds,
    the command was run [k+1] times with the same arguments, the number
    of attempts is reported as [k+1], and the function returns if the
    trajectory file is then there (the assertion fails if it is not). *)
Theorem run_traj_stops_at_first_success (isspace : ascii -> bool)
    (check_output : nat -> list string -> gmap string node -> bool * gmap string node)
    (fuel k : nat) (output cosibuild params : string) (maxAttempts : Z) (s : os) :
  let commandstring := run_traj_command output cosibuild params maxAttempts in
  let argv := split_whitespace isspace commandstring in
  let files i := fs_after check_output argv (length (ran s)) (fs s) i in
  (k < fuel)%nat ->
  (forall i, (i < k)%nat -> (check_output (length (ran s) + i)%nat argv (files i)).1 = false) ->
  (check_output (length (ran s) + k)%nat argv (files k)).1 = true ->
  run_traj isspace check_output fuel output cosibuild params maxAttempts s
  = (Some (match files (S k) !! output with
           | Some (File _) => Returned tt
           | _ => Threw AssertionError
           end),
     Os (files (S k))
        (console s ++ [commandstring;
                       "found a trajectory in " +:+ str (Z.of_nat k + 1) +:+ " attempts."])
        (ran s ++ replicate (S k) argv)).
Proof.
  intros commandstring argv files Hfuel Hfail Hwork. unfold run_traj.
  fold commandstring. fold argv. clearbody commandstring.
  unfold io_print at 1. cbv beta iota. cbn [fs console ran].
  rewrite (try_until_first_success check_output argv k); try done.
  cbn [fs console ran]. fold (files (S k)).
  unfold io_bind, io_print, isfile. cbn [fs console ran].
  rewrite <-app_assoc. change ([commandstring] ++ [?x]) with [commandstring; x].
  change (0 + Z.of_nat k + 1) with (Z.of_nat k + 1).
  destruct (files (S k) !! output) as [[c|names size]|]; reflexivity.
Qed.

Lemma run_traj_stops_at_first_success_witness :
  let commandstring := run_traj_command "traj.txt" "coalescent" "model.par" 100 in
  let argv := split_whitespace Ascii.is_space commandstring in
  let files i := fs_after works_third_time argv (length (ran example_os)) (fs example_os) i in
  run_traj Ascii.is_space works_third_time 5 "traj.txt" "coalescent" "model.par" 100 example_os
  = (Some (match files 3%nat !! "traj.txt" with
           | Some (File _) => Returned tt
           | _ => Threw AssertionError
           end),
     Os (files 3%nat)
        (console example_os
         ++ [commandstring;
             "found a trajectory in " +:+ str (Z.of_nat 2 + 1) +:+ " attempts."])
        (ran example_os ++ replicate 3 argv)).
Proof.
  apply (run_traj_stops_at_first_success Ascii.is_space works_third_time 5 2
           "traj.txt" "coalescent" "model.par" 100 example_os).
  - lia.
  - intros [|[|i]] Hi; [reflexivity|reflexivity|lia].
  - reflexivity.
Defined.

(** *** Bookkeeping *)

Lemma split_lines_nonempty text : text <> EmptyString -> split_lines text <> [].
Proof.
  destruct text as [|a text]; [done|]. intros _. simpl.
  destruct (decide (a = ascii_of_nat 10)); [done|]. by destruct (split_lines text).
Qed.

Lemma lines_of_nonempty content : content <> EmptyString -> lines_of content <> [].
Proof. intros Hne. by apply split_lines_nonempty, universal_newlines_nonempty. Qed.

Lemma count_lines {A} (lines : list A) (iline : Z) s :
  io_for lines (fun line iline => io_ret (iline + 1)) iline s
  = (Returned (iline + len lines), s).
Proof.
  revert iline. induction lines as [|line lines IH]; intros iline; simpl.
  - unfold io_ret, len. simpl. do 2 f_equal. lia.
  - unfold io_bind, io_ret at 1. rewrite IH. unfold len. simpl length. do 2 f_equal. lia.
Qed.

Lemma check_file_len_run filename s :
  check_file_len filename s
  = (Returned match fs s !! filename with
              | Some (File content) => len (lines_of content)
              | _ => 0
              end, s).
Proof.
  unfold check_file_len.
  assert (Hisfile : isfile filename s
                    = (Returned match fs s !! filename with
                                | Some (File _) => true | _ => false end, s)) by done.
  rewrite (io_bind_ok _ _ _ _ _ Hisfile).
  destruct (fs s !! filename) as [[content|names size]|] eqn:Hf; [|done|done].
  assert (Hsize : getsize filename s = (Returned (Z.of_nat (String.length content)), s)).
  { unfold getsize. by rewrite Hf. }
  erewrite io_bind_ok; [|erewrite io_bind_ok; [reflexivity|exact Hsize]].
  destruct content as [|a content]; [done|].
  rewrite bool_decide_eq_true_2 by (simpl String.length; lia).
  erewrite io_bind_ok; [|unfold open_read; by rewrite Hf].
  erewrite io_bind_ok; [|unfold readlines; by rewrite Hf].
  erewrite io_bind_ok; [|apply count_lines].
  reflexivity.
Qed.

(** X11: [check_file_len] returns the number of lines of the file (a
    line ends at CR LF, CR or LF, or with the file), and 0 for a path that
    names no file, for a directory and for an empty file; a file that
    holds anything has at least one line.  Nothing is changed. *)
Theorem check_file_len_counts_lines (filename : string) (s : os) :
  exists n,
    check_file_len filename s = (Returned n, s)
    /\ 0 <= n
    /\ (forall content, fs s !! filename = Some (File content) -> n = len (lines_of content))
    /\ (n = 0 <-> forall content, fs s !! filename = Some (File content) -> content = EmptyString).
Proof.
  eexists. split; [apply check_file_len_run|].
  destruct (fs s !! filename) as [[content|names size]|] eqn:Hf.
  - split; [unfold len; lia|]. split; [by intros c [= <-]|]. split.
    + intros Hn c [= <-]. destruct content as [|a content]; [done|].
      pose proof (lines_of_nonempty (String a content) ltac:(done)) as Hne.
      destruct (lines_of (String a content)); [done|]. unfold len in Hn. simpl in Hn. lia.
    + intros Hc. by rewrite (Hc content).
  - split; [done|]. split; [done|]. split; done.
  - split; [done|]. split; [done|]. split; done.
Qed.

(** X12: with the overwrite check on, [check_create_file] lets a file be
    created exactly when [check_file_len] counts no line in it; with the
    check off it always does.  Nothing is changed. *)
Theorem check_create_file_agrees_with_check_file_len (filename : string) (s : os) :
  check_create_file filename false s = (Returned true, s)
  /\ check_create_file filename true s
     = (Returned (bool_decide ((check_file_len filename s).1 = Returned 0)), s).
Proof.
  split; [done|]. rewrite check_file_len_run. cbn [fst].
  unfold check_create_file. rewrite bool_decide_eq_false_2 by done.
  assert (Hisfile : isfile filename s
                    = (Returned match fs s !! filename with
                                | Some (File _) => true | _ => false end, s)) by done.
  rewrite (io_bind_ok _ _ _ _ _ Hisfile).
  destruct (fs s !! filename) as [[content|names size]|] eqn:Hf; [|done|done].
  assert (Hsize : getsize filename s = (Returned (Z.of_nat (String.length content)), s)).
  { unfold getsize. by rewrite Hf. }
  cbn [negb].
  erewrite io_bind_ok; [|erewrite io_bind_ok; [reflexivity|exact Hsize]].
  destruct content as [|a content]; [done|].
  pose proof (lines_of_nonempty (String a content) ltac:(done)) as Hne.
  rewrite (bool_decide_eq_false_2 (Z.of_nat _ = 0)) by (simpl String.length; lia).
  destruct (lines_of (String a content)) as [|line lines]; [done|].
  rewrite bool_decide_eq_false_2; [done|].
  intros Hn. injection Hn as Hn. unfold len in Hn. simpl in Hn. lia.
Qed.

Lemma nonempty_loop filenames nonempty s :
  exists kept,
    io_for filenames
      (fun x nonempty =>
         n <<- check_file_len x ;;
         io_ret (if decide (n <> 0) then nonempty ++ [x] else nonempty))
      nonempty s
    = (Returned kept, s).
Proof.
  revert nonempty. induction filenames as [|x xs IH]; intros nonempty.
  - by eexists.
  - simpl io_for. erewrite io_bind_ok; [apply IH|].
    erewrite io_bind_ok; [reflexivity|apply check_file_len_run].
Qed.

(** X13: [check_bin_filled] answers by the number of names in the
    directory alone: it is True exactly when there are at least
    [numsims] of them, whether the files are empty or not (the list of
    non-empty files is computed and not used).  A path that is not a
    directory raises. *)
Theorem check_bin_filled_counts_names (directory : string) (numsims : Z) (s : os) :
  check_bin_filled directory numsims s
  = match fs s !! directory with
    | Some (Dir names _) => (Returned (bool_decide (numsims <= len names)), s)
    | _ => (Threw (OSError directory), s)
    end.
Proof.
  unfold check_bin_filled. unfold io_bind at 1, listdir.
  destruct (fs s !! directory) as [[content|names size]|] eqn:Hd; try done.
  destruct (nonempty_loop names [] s) as [kept Hkept].
  erewrite io_bind_ok by exact Hkept.
  case_decide; unfold io_ret; f_equal; f_equal; symmetry.
  - apply bool_decide_eq_false_2. lia.
  - apply bool_decide_eq_true_2. lia.
Qed.

(** *** [get_bins]: what it rejects *)

Lemma comprehension_fails {A B} (f : A -> result B) good bad rest e :
  Forall (fun x => exists y, f x = Ok y) good ->
  f bad = Raise e ->
  comprehension f (good ++ bad :: rest) = Raise e.
Proof.
  intros Hgood Hbad. induction Hgood as [|x good [y Hx] Hgood IH]; simpl.
  - by rewrite Hbad.
  - by rewrite Hx, IH.
Qed.

Section get_bins_rejects.
Context {F : Type} `{PyFloat F}.
Variable float_of_str : string -> option F.
Variable format_2f : F -> string.

Lemma get_bins_bad_piece freqRange numbins good bad rest :
  split "-" freqRange = good ++ bad :: rest ->
  Forall (fun piece => is_Some (float_of_str piece)) good ->
  float_of_str bad = None ->
  get_bins float_of_str format_2f freqRange numbins
  = Raise (ValueError "could not convert string to float").
Proof.
  intros Hsplit Hgood Hbad. unfold get_bins. rewrite Hsplit.
  rewrite (comprehension_fails _ good bad rest
             (ValueError "could not convert string to float")); [done| |].
  - eapply Forall_impl; [exact Hgood|]. intros piece [x Hx].
    exists x. unfold parse_float. by rewrite Hx.
  - unfold parse_float. by rewrite Hbad.
Qed.
End get_bins_rejects.

(** X1: [get_bins] takes its range apart at every ['-'] and reads every
    piece as a float.  A piece that is no float raises ValueError, so a
    range that begins with ['-'] (a negative lower bound) is rejected; a
    range without ['-'] raises IndexError, whatever [numbins]. *)
Theorem get_bins_needs_two_floats {F : Type} `{PyFloat F}
    (float_of_str : string -> option F) (format_2f : F -> string)
    (freqRange : string) (numbins : Z) :
  float_of_str EmptyString = None ->
  (forall good bad rest,
     split "-" freqRange = good ++ bad :: rest ->
     Forall (fun piece => is_Some (float_of_str piece)) good ->
     float_of_str bad = None ->
     get_bins float_of_str format_2f freqRange numbins
     = Raise (ValueError "could not convert string to float"))
  /\ get_bins float_of_str format_2f (String "-" freqRange) numbins
     = Raise (ValueError "could not convert string to float")
  /\ (has_char "-" freqRange = false -> is_Some (float_of_str freqRange) ->
      get_bins float_of_str format_2f freqRange numbins = Raise IndexError).
Proof.
  intros Hempty. split; [|split].
  - intros good bad rest. apply get_bins_bad_piece.
  - apply (get_bins_bad_piece _ _ _ _ [] EmptyString (split "-" freqRange)); done.
  - intros Hdash [x Hx]. unfold get_bins. rewrite split_no_sep by done. simpl.
    unfold parse_float. by rewrite Hx.
Qed.

Lemma get_bins_needs_two_floats_witness :
  (forall good bad rest,
     split "-" "0.5" = good ++ bad :: rest ->
     Forall (fun piece => is_Some (decimal_literal (F:=float) piece)) good ->
     decimal_literal (F:=float) bad = None ->
     get_bins decimal_literal no_label "0.5" 9
     = Raise (ValueError "could not convert string to float"))
  /\ get_bins (F:=float) decimal_literal no_label (String "-" "0.5") 9
     = Raise (ValueError "could not convert string to float")
  /\ (has_char "-" "0.5" = false -> is_Some (decimal_literal (F:=float) "0.5") ->
      get_bins (F:=float) decimal_literal no_label "0.5" 9 = Raise IndexError).
Proof.
  apply (get_bins_needs_two_floats (F:=float) decimal_literal no_label "0.5" 9).
  reflexivity.
Defined.

(** X2: [get_bins] does not check [numbins].  In exact arithmetic a
    count of 0 raises ZeroDivisionError, and a negative count gives no
    bins at all: the range and four empty lists, without an error. *)
Theorem get_bins_without_bins (float_of_str : string -> option Qc) (format_2f : Qc -> string)
    slo shi (lo hi : Qc) (numbins : Z) :
  numbins <= 0 ->
  has_char "-" slo = false -> has_char "-" shi = false ->
  float_of_str slo = Some lo -> float_of_str shi = Some hi ->
  get_bins float_of_str format_2f (slo +:+ String "-" shi) numbins
  = if decide (numbins = 0) then Raise ZeroDivisionError
    else Ok (Bins [lo; hi] [] [] [] []).
Proof.
  intros Hn Hslo Hshi Hlo Hhi. case_decide as Hz.
  - subst. unfold get_bins. rewrite split_app, split_no_sep by done. simpl.
    unfold parse_float. by rewrite Hlo, Hhi.
  - rewrite (get_bins_edges float_of_str format_2f slo shi lo hi);
      [|done|done|done|done|by apply Qc_of_Z_not_zero|by apply Qc_of_Z_not_zero].
    unfold range, range2. by rewrite !seqZ_nil by lia.
Qed.

Lemma get_bins_without_bins_witness :
  get_bins (F:=Qc) decimal_literal no_label (".05" +:+ String "-" ".95") (-3)
  = if decide (-3 = 0) then Raise ZeroDivisionError
    else Ok (Bins [Q2Qc (1 # 20); Q2Qc (19 # 20)] [] [] [] []).
Proof.
  apply (get_bins_without_bins decimal_literal no_label ".05" ".95");
    [lia | reflexivity | reflexivity | | ];
    unfold decimal_literal; simpl; f_equal; apply Qc_is_canon; reflexivity.
Defined.

(** *** [get_bins]: the bins lie in the range *)

Lemma Qc_of_Z_pos n : 0 < n -> (0 < Qc_of_Z n)%Qc.
Proof. intros Hn. rewrite <-Z2Qc_inj_0. exact (proj1 (Z2Qc_inj_lt 0 n) Hn). Qed.

Lemma Qcinv_pos (x : Qc) : (0 < x)%Qc -> (0 < / x)%Qc.
Proof.
  intros Hx. destruct (Qclt_le_dec 0 (/ x)) as [|Hle]; [done|].
  exfalso. apply (Qcmult_le_compat_r _ _ x) in Hle; [|by apply Qclt_le_weak].
  rewrite Qcmult_inv_l, Qcmult_0_l in Hle by (by apply not_eq_sym, Qclt_not_eq).
  by apply (Qcle_not_lt _ _ Hle).
Qed.

Lemma Qcdiv_pos (a b : Qc) : (0 < a)%Qc -> (0 < b)%Qc -> (0 < a / b)%Qc.
Proof.
  intros Ha Hb. unfold Qcdiv. rewrite <-(Qcmult_0_l (/ b)).
  apply Qcmult_lt_compat_r; [by apply Qcinv_pos|done].
Qed.

Lemma Qc_of_Z_two : Qc_of_Z 2 = (1 + 1)%Qc.
Proof. by apply Qc_is_canon. Qed.

Lemma Qc_two_not_zero : (1 + 1)%Qc <> Q2Qc 0.
Proof. rewrite <-Qc_of_Z_two. apply not_eq_sym, Qclt_not_eq. by apply Qc_of_Z_pos. Qed.

Lemma Qclt_plus_pos (a d : Qc) : (0 < d)%Qc -> (a < a + d)%Qc.
Proof. intros Hd. apply Qclt_minus_iff. by replace (a + d + - a)%Qc with d by ring. Qed.

Section get_bins_range.
Variable float_of_str : string -> option Qc.
Variable format_2f : Qc -> string.

(** X3: in exact arithmetic the bins of [get_bins] lie in the range and
    reach its end: the last bin ends at [hi], and for [lo < hi] every
    bin starts at or after [lo], ends at or before [hi], and has its
    median strictly between its start and its end. *)
Theorem get_bins_within_range slo shi (lo hi : Qc) numbins :
  0 < numbins ->
  has_char "-" slo = false -> has_char "-" shi = false ->
  float_of_str slo = Some lo -> float_of_str shi = Some hi ->
  exists b, get_bins float_of_str format_2f (slo +:+ String "-" shi) numbins = Ok b
    /\ last (bin_ends b) = Some hi
    /\ ((lo < hi)%Qc ->
        forall i s e m,
          bin_starts b !! i = Some s -> bin_ends b !! i = Some e ->
          bin_medians b !! i = Some m ->
          (lo <= s)%Qc /\ (s < m)%Qc /\ (m < e)%Qc /\ (e <= hi)%Qc).
Proof.
  intros Hn Hslo Hshi Hlo Hhi. eexists. split.
  { apply get_bins_edges; try done; by apply Qc_of_Z_not_zero; lia. }
  set (w := fquot (fsub hi lo) (float_of_int numbins)).
  simpl bin_starts. simpl bin_ends. simpl bin_medians.
  assert (HN : Qc_of_Z numbins <> Q2Qc 0).
  { apply not_eq_sym, Qclt_not_eq. by apply Qc_of_Z_pos. }
  assert (Hw : (w * Qc_of_Z numbins = hi - lo)%Qc).
  { unfold w. simpl. field. exact HN. }
  split.
  - rewrite last_lookup, length_map. unfold range2.
    rewrite length_seqZ, list_lookup_fmap, lookup_seqZ_lt by lia. simpl.
    f_equal. unfold edge. simpl.
    replace (1 + Z.of_nat (Nat.pred (Z.to_nat (numbins + 1 - 1)))) with numbins by lia.
    rewrite Hw. ring.
  - intros Hlt i s e m. rewrite !list_lookup_fmap. unfold range, range2.
    destruct (seqZ 0 (numbins - 0) !! i) as [k|] eqn:Hk; [|done].
    apply lookup_seqZ in Hk as [-> Hi]. rewrite lookup_seqZ_lt by lia.
    simpl. intros [= <-] [= <-] [= <-].
    replace (1 + Z.of_nat i) with (Z.of_nat i + 1) by lia.
    rewrite !Z.add_0_l, !Z2Qc_inj_add, Z2Qc_inj_1.
    assert (Hpos : (0 < w)%Qc).
    { unfold w. simpl. apply Qcdiv_pos; [|by apply Qc_of_Z_pos].
      apply Qclt_minus_iff in Hlt. by unfold Qcminus. }
    set (k := Qc_of_Z (Z.of_nat i)).
    assert (Hk : (0 <= k)%Qc).
    { unfold k. rewrite <-Z2Qc_inj_0. apply (proj1 (Z2Qc_inj_le _ _)). lia. }
    assert (Hk1 : (k + 1 <= Qc_of_Z numbins)%Qc).
    { unfold k. rewrite <-Z2Qc_inj_1, <-Z2Qc_inj_add. apply (proj1 (Z2Qc_inj_le _ _)). lia. }
    set (s := (lo + w * k)%Qc).
    assert (H2 : Qc_of_Z 2 <> Q2Qc 0).
    { apply not_eq_sym, Qclt_not_eq. by apply Qc_of_Z_pos. }
    assert (Hhalf : (0 < w / Qc_of_Z 2)%Qc) by (apply Qcdiv_pos; [done|by apply Qc_of_Z_pos]).
    assert (Hmid : ((s + (lo + w * (k + 1))) / Qc_of_Z 2 = s + w / Qc_of_Z 2)%Qc).
    { unfold s. rewrite Qc_of_Z_two. field. apply Qc_two_not_zero. }
    assert (Hend : (lo + w * (k + 1) = s + w / Qc_of_Z 2 + w / Qc_of_Z 2)%Qc).
    { unfold s. rewrite Qc_of_Z_two. field. apply Qc_two_not_zero. }
    rewrite Hmid. repeat split.
    + unfold s. rewrite <-(Qcplus_0_r lo) at 1.
      apply Qcplus_le_compat; [apply Qcle_refl|].
      rewrite <-(Qcmult_0_l k).
      apply Qcmult_le_compat_r; [by apply Qclt_le_weak|done].
    + by apply Qclt_plus_pos.
    + rewrite Hend. by apply Qclt_plus_pos.
    + replace hi with (lo + w * Qc_of_Z numbins)%Qc by (rewrite Hw; ring).
      apply Qcplus_le_compat; [apply Qcle_refl|].
      rewrite !(Qcmult_comm w). apply Qcmult_le_compat_r; [done|by apply Qclt_le_weak].
Qed.
End get_bins_range.

Lemma get_bins_within_range_witness :
  exists b, get_bins (F:=Qc) decimal_literal no_label (".05" +:+ String "-" ".95") 9 = Ok b
    /\ last (bin_ends b) = Some (Q2Qc (19 # 20))
    /\ ((Q2Qc (1 # 20) < Q2Qc (19 # 20))%Qc ->
        forall i s e m,
          bin_starts b !! i = Some s -> bin_ends b !! i = Some e ->
          bin_medians b !! i = Some m ->
          (Q2Qc (1 # 20) <= s)%Qc /\ (s < m)%Qc /\ (m < e)%Qc /\ (e <= Q2Qc (19 # 20))%Qc).
Proof.
  apply (get_bins_within_range decimal_literal no_label ".05" ".95");
    [lia | reflexivity | reflexivity | | ];
    unfold decimal_literal; simpl; f_equal; apply Qc_is_canon; reflexivity.
Defined.


(** ** [execute_target_stats] *)

Lemma join_list_of_str s : join EmptyString (list_of_str s) = s.
Proof.
  induction s as [|a s IH]; [done|]. destruct s as [|b s]; [done|].
  change (list_of_str (String a (String b s)))
    with (String a EmptyString :: list_of_str (String b s)).
  change (list_of_str (String b s))
    with (String b EmptyString :: list_of_str s) in *.
  change (join EmptyString (String a EmptyString :: String b EmptyString :: list_of_str s))
    with (String a EmptyString +:+ EmptyString
          +:+ join EmptyString (String b EmptyString :: list_of_str s)).
  by rewrite IH.
Qed.

Lemma length_split c s : len (split c s) = 1 + count_char c s.
Proof.
  unfold len. induction s as [|a s IH]; [done|]. simpl.
  destruct (decide (a = c)).
  - simpl length. lia.
  - destruct (split_cons c s) as (piece & pieces & Hs). rewrite Hs in *. simpl in *. lia.
Qed.

Lemma for_each_collect {A B} (xs : list A) (g : A -> list B)
    (body : A -> list B -> M (list B)) :
  (forall x acc w, x ∈ xs -> body x acc w = (Finished (Ok (acc ++ g x)), w)) ->
  forall acc w, for_each xs body acc w = (Finished (Ok (acc ++ flat_map g xs)), w).
Proof.
  induction xs as [|x xs IH]; intros Hbody acc w; simpl.
  - unfold mret. by rewrite app_nil_r.
  - unfold mbind. rewrite Hbody by left.
    rewrite IH by (intros; apply Hbody; by right). by rewrite app_assoc.
Qed.

Lemma flat_map_singleton {A B} (f : A -> B) (xs : list A) :
  flat_map (fun x => [f x]) xs = map f xs.
Proof. induction xs as [|x xs IH]; [done|]. simpl. by rewrite IH. Qed.

Lemma subscript_lookup {A} (l : list A) (i : Z) (d : A) :
  0 <= i < len l -> subscript l i = Ok (default d (l !! Z.to_nat i)).
Proof.
  intros Hi. unfold len in Hi.
  destruct (lookup_lt_is_Some_2 l (Z.to_nat i)) as [x Hx]; [lia|].
  rewrite Hx. simpl. rewrite <-(Z2Nat.id i) by lia. by apply subscript_nat.
Qed.

Lemma target_stats_commands_run args w :
  target_stats_commands args w
  = (Finished (Ok (flat_map (population_commands args)
                     (range (len (target_stats_inputtpeds args))))), w).
Proof.
  unfold target_stats_commands. cbv zeta.
  set (inputtpeds := target_stats_inputtpeds args).
  rewrite (for_each_collect _ (population_commands args)); [done|].
  intros ipop acc w' [Hi0 Hi]%elem_of_range.
  unfold mbind at 1, lift.
  rewrite (subscript_lookup inputtpeds ipop EmptyString) by done.
  unfold population_commands. fold inputtpeds. cbv zeta.
  set (name j := default EmptyString (inputtpeds !! Z.to_nat j)).
  assert (Hfst : forall acc w,
    for_each (range2 (ipop + 1) (len inputtpeds))
      (fun jpop allCmds =>
         inputtped2 <~ lift (subscript inputtpeds jpop) ;;
         mret (allCmds ++ [fstCmd args (name ipop) inputtped2 ipop jpop]))
      acc w
    = (Finished (Ok (acc ++ map (fun jpop => fstCmd args (name ipop) (name jpop) ipop jpop)
                              (range2 (ipop + 1) (len inputtpeds)))), w)).
  { intros acc' w''. rewrite <-flat_map_singleton.
    apply for_each_collect. intros jpop acc'' w3 Hj.
    unfold range2 in Hj. apply elem_of_seqZ in Hj.
    unfold mbind, lift. by rewrite (subscript_lookup inputtpeds jpop EmptyString) by lia. }
  destruct (ts_freqs args), (ts_ld args), (ts_fst args); cbv [mbind mret];
    rewrite ?Hfst, ?app_nil_r, <-?app_assoc; reflexivity.
Qed.

Lemma length_population_commands args ipop :
  let npops := len (target_stats_inputtpeds args) in
  0 <= ipop < npops ->
  len (population_commands args ipop)
  = Z.b2z (ts_freqs args) + Z.b2z (ts_ld args) + Z.b2z (ts_fst args) * (npops - 1 - ipop).
Proof.
  intros npops Hi. unfold population_commands, len. cbv zeta.
  rewrite !length_app.
  destruct (ts_freqs args), (ts_ld args), (ts_fst args); simpl length;
    rewrite ?length_map; unfold range2; rewrite ?length_seqZ; simpl Z.b2z;
    fold npops; unfold len in npops; lia.
Qed.

Lemma count_commands args (m : nat) :
  let npops := len (target_stats_inputtpeds args) in
  Z.of_nat m <= npops ->
  2 * len (flat_map (population_commands args) (range (Z.of_nat m)))
  = 2 * Z.of_nat m * (Z.b2z (ts_freqs args) + Z.b2z (ts_ld args))
    + Z.b2z (ts_fst args) * (Z.of_nat m * (2 * npops - Z.of_nat m - 1)).
Proof.
  intros npops. induction m as [|m IH]; intros Hm.
  { change (range (Z.of_nat 0)) with (@nil Z). unfold len. simpl flat_map. simpl length. lia. }
  rewrite Nat2Z.inj_succ, <-Z.add_1_r, range_succ by lia.
  rewrite flat_map_app. simpl flat_map. rewrite app_nil_r.
  unfold len in *. rewrite length_app, Nat2Z.inj_add.
  pose proof (length_population_commands args (Z.of_nat m) ltac:(unfold len; lia)) as Hone.
  unfold len in Hone. rewrite Hone. fold npops.
  specialize (IH ltac:(lia)). nia.
Qed.


Lemma commands_total args :
  let npops := len (target_stats_inputtpeds args) in
  len (flat_map (population_commands args) (range npops))
  = npops * (Z.b2z (ts_freqs args) + Z.b2z (ts_ld args))
    + Z.b2z (ts_fst args) * (npops * (npops - 1) / 2).
Proof.
  intros npops.
  pose proof (count_commands args (Z.to_nat npops)) as Hcount. cbv zeta in Hcount.
  fold npops in Hcount.
  assert (H0 : 0 <= npops) by (unfold npops, len; lia).
  rewrite Z2Nat.id in Hcount by done. specialize (Hcount ltac:(lia)).
  set (pairs := npops * (npops - 1)).
  assert (Hpairs : npops * (2 * npops - npops - 1) = pairs) by (unfold pairs; lia).
  rewrite Hpairs in Hcount.
  assert (Heven : pairs mod 2 = 0).
  { unfold pairs. destruct (Z.even npops) eqn:Hev.
    - apply Z.even_spec in Hev as [k ->]. rewrite <-Z.mul_assoc, Z.mul_comm.
      apply Z.mod_mul. lia.
    - assert (Hodd : Z.odd npops = true) by (rewrite <-Z.negb_even; by rewrite Hev).
      apply Z.odd_spec in Hodd as [k ->].
      replace ((2 * k + 1) * (2 * k + 1 - 1)) with ((2 * k + 1) * k * 2) by lia.
      apply Z.mod_mul. lia. }
  pose proof (Z.div_mod pairs 2 ltac:(lia)) as Hdiv.
  destruct (ts_fst args); simpl Z.b2z in *; lia.
Qed.

Lemma one_population args : 1 <= len (target_stats_inputtpeds args).
Proof.
  unfold target_stats_inputtpeds.
  destruct (split_cons "," (join EmptyString (ts_inputTpeds args))) as (p & ps & ->).
  unfold len. simpl. lia.
Qed.

Lemma no_commands args :
  let npops := len (target_stats_inputtpeds args) in
  flat_map (population_commands args) (range npops) = []
  <-> ts_freqs args = false /\ ts_ld args = false /\ (ts_fst args = false \/ npops = 1).
Proof.
  intros npops. pose proof (commands_total args) as Hcount. cbv zeta in Hcount.
  fold npops in Hcount. pose proof (one_population args) as H1. fold npops in H1.
  assert (Hpairs : npops = 1 \/ 1 <= npops * (npops - 1) / 2).
  { destruct (decide (npops = 1)) as [|Hne]; [by left|right].
    assert (2 <= npops * (npops - 1)) by nia.
    pose proof (Z.div_le_mono 2 (npops * (npops - 1)) 2 ltac:(lia) ltac:(lia)) as Hle.
    by change (2 / 2) with 1 in Hle. }
  assert (Hone : npops = 1 -> npops * (npops - 1) / 2 = 0) by (by intros ->).
  assert (Hnn : 0 <= npops * (npops - 1) / 2) by (apply Z.div_pos; nia).
  set (pairs := npops * (npops - 1) / 2) in *.
  split.
  - intros Hnil. rewrite Hnil in Hcount. unfold len in Hcount at 1. simpl length in Hcount.
    destruct (ts_freqs args), (ts_ld args), (ts_fst args); simpl Z.b2z in Hcount;
      first [nia | split; [done|]; split; [done|]; first [by left | right; lia]].
  - intros (Hf & Hl & Hfst). rewrite Hf, Hl in Hcount. simpl Z.b2z in Hcount.
    assert (Hz : len (flat_map (population_commands args) (range npops)) = 0).
    { destruct Hfst as [Hfst|H1'].
      - rewrite Hfst in Hcount. simpl Z.b2z in Hcount. lia.
      - specialize (Hone H1'). lia. }
    destruct (flat_map _ _); [done|]. unfold len in Hz. simpl in Hz. lia.
Qed.

Lemma print_commands_run (allCmds : list (list string)) w :
  for_each allCmds
    (fun command _ =>
       let command := map (fun x : string => x) command in
       raise (A:=unit) (TypeError "can only concatenate str (not list) to str"))
    tt w
  = (match allCmds with
     | [] => Finished (Ok tt)
     | _ => Finished (Raise (TypeError "can only concatenate str (not list) to str"))
     end, w).
Proof. by destruct allCmds. Qed.

(** X14: [execute_target_stats] builds, for [npops] populations, one
    frequency command and one LD command per population when asked for
    them, and one Fst command for every pair of populations [ipop < jpop]
    when asked for them: [npops*(freqs + ld) + fst*npops*(npops-1)/2]
    commands in all. *)
Theorem target_stats_commands_count (args : TargetStatsArgs) (w : world) :
  let inputtpeds := target_stats_inputtpeds args in
  let npops := len inputtpeds in
  exists allCmds,
    target_stats_commands args w = (Finished (Ok allCmds), w)
    /\ len allCmds = npops * (Z.b2z (ts_freqs args) + Z.b2z (ts_ld args))
                     + Z.b2z (ts_fst args) * (npops * (npops - 1) / 2)
    /\ (forall ipop inputtped,
          inputtpeds !! ipop = Some inputtped ->
          (ts_freqs args = true -> freqCmd args inputtped (Z.of_nat ipop) ∈ allCmds)
          /\ (ts_ld args = true -> ldCmd args inputtped (Z.of_nat ipop) ∈ allCmds))
    /\ (ts_fst args = true ->
        forall ipop jpop inputtped inputtped2,
          (ipop < jpop)%nat ->
          inputtpeds !! ipop = Some inputtped -> inputtpeds !! jpop = Some inputtped2 ->
          fstCmd args inputtped inputtped2 (Z.of_nat ipop) (Z.of_nat jpop) ∈ allCmds).
Proof.
  intros inputtpeds npops. eexists. split; [apply target_stats_commands_run|].
  fold inputtpeds. fold npops.
  assert (Hin : forall ipop cmd, 0 <= ipop < npops ->
            In cmd (population_commands args ipop) ->
            cmd ∈ flat_map (population_commands args) (range npops)).
  { intros ipop cmd Hi Hcmd. apply list_elem_of_In, in_flat_map.
    exists ipop. split; [|done]. by apply list_elem_of_In, elem_of_range. }
  split; [|split].
  - apply commands_total.
  - intros ipop inputtped Hpop.
    pose proof (lookup_lt_Some _ _ _ Hpop) as Hlt.
    assert (Hi : 0 <= Z.of_nat ipop < npops) by (unfold npops, len; lia).
    split; intros Hflag; apply (Hin (Z.of_nat ipop)); try done;
      unfold population_commands; fold inputtpeds; cbv zeta;
      rewrite Hflag, Nat2Z.id, Hpop; simpl default.
    + apply in_or_app. left. by left.
    + apply in_or_app. right. apply in_or_app. left. by left.
  - intros Hflag ipop jpop inputtped inputtped2 Hij Hpop Hpop2.
    pose proof (lookup_lt_Some _ _ _ Hpop2) as Hlt.
    apply (Hin (Z.of_nat ipop)); [unfold npops, len; lia|].
    unfold population_commands. fold inputtpeds. cbv zeta.
    rewrite Hflag, Nat2Z.id, Hpop. simpl default.
    apply in_or_app. right. apply in_or_app. right.
    apply in_map_iff. exists (Z.of_nat jpop). rewrite Nat2Z.id, Hpop2. split; [done|].
    apply list_elem_of_In. unfold range2. apply elem_of_seqZ. unfold len. lia.
Qed.

(** X15: [execute_target_stats] prints its first line and nothing else.
    As soon as one command was built, line 100 adds a list to a string
    and the function raises TypeError; it returns only when no
    statistic was asked for, or only Fst for a single population. *)
Theorem execute_target_stats_outcome (args : TargetStatsArgs) (w : world) :
  let npops := len (target_stats_inputtpeds args) in
  let r := execute_target_stats args w in
  r.1 = (if bool_decide (ts_freqs args = false /\ ts_ld args = false
                         /\ (ts_fst args = false \/ npops = 1))
         then Finished (Ok tt)
         else Finished (Raise (TypeError "can only concatenate str (not list) to str")))
  /\ r.2 = World (report w)
             (Ext (stdout (outside w)
                   ++ [prefixstring +:+ "calculating summary statistics for "
                       +:+ str npops +:+ " populations..."])
                  (draws (outside w)) (opened (outside w))).
Proof.
  intros npops r.
  assert (Hrun : r = (match flat_map (population_commands args) (range npops) with
                      | [] => Finished (Ok tt)
                      | _ => Finished (Raise (TypeError
                                                "can only concatenate str (not list) to str"))
                      end,
                      World (report w)
                        (Ext (stdout (outside w)
                              ++ [prefixstring +:+ "calculating summary statistics for "
                                  +:+ str npops +:+ " populations..."])
                           (draws (outside w)) (opened (outside w))))).
  { unfold r, execute_target_stats. cbv zeta. fold npops.
    unfold mbind at 1, print.
    rewrite (mbind_ok _ _ _ _ _ (target_stats_commands_run _ _)).
    by rewrite print_commands_run. }
  rewrite Hrun. simpl. split; [|done].
  pose proof (no_commands args) as Hnone. cbv zeta in Hnone. fold npops in Hnone.
  destruct (flat_map _ _) as [|cmd cmds].
  - rewrite bool_decide_eq_true_2; [done|]. by apply Hnone.
  - rewrite bool_decide_eq_false_2; [done|]. intros Hcond. by apply Hnone in Hcond.
Qed.

(** X16: argparse reads [inputTpeds] with [type=list], and line 79 joins
    the characters again: the populations are the pieces of the
    argument between its commas, one more than it has commas. *)
Theorem target_stats_populations (args : TargetStatsArgs) (s : string) :
  ts_inputTpeds args = list_of_str s ->
  target_stats_inputtpeds args = split "," s
  /\ len (target_stats_inputtpeds args) = 1 + count_char "," s.
Proof.
  intros Hargs. unfold target_stats_inputtpeds. rewrite Hargs, join_list_of_str.
  split; [done|]. apply length_split.
Qed.

Lemma target_stats_populations_witness :
  target_stats_inputtpeds example_target_stats = split "," "a.tped,b.tped"
  /\ len (target_stats_inputtpeds example_target_stats) = 1 + count_char "," "a.tped,b.tped".
Proof. apply (target_stats_populations example_target_stats "a.tped,b.tped"). reflexivity. Defined.

(** ** [execute_point] *)

Lemma list_ascii_of_string_app s1 s2 :
  list_ascii_of_string (s1 +:+ s2) = list_ascii_of_string s1 ++ list_ascii_of_string s2.
Proof. induction s1 as [|a s1 IH]; [done|]. rewrite string_app_cons. simpl. by rewrite IH. Qed.

Lemma str_subscript_last d c : str_subscript (d +:+ String c EmptyString) (-1) = Ok c.
Proof.
  unfold str_subscript, subscript. rewrite list_ascii_of_string_app. cbv zeta.
  rewrite length_app. simpl length.
  destruct (decide (-1 < 0)) as [_|]; [|lia].
  rewrite decide_True by lia.
  replace (Z.to_nat (-1 + Z.of_nat (length (list_ascii_of_string d) + 1)))
    with (length (list_ascii_of_string d) + 0)%nat by lia.
  rewrite lookup_app_r by lia.
  by replace (length (list_ascii_of_string d) + 0 - length (list_ascii_of_string d))%nat
    with 0%nat by lia.
Qed.

(** X17: [execute_point] puts its statistics in [n<reps>stats.txt]
    inside [outputDir], adding a ['/'] exactly when [outputDir] does not
    end with one.  An empty [outputDir] raises IndexError after the
    first line was printed: no command is printed and no error
    computed. *)
Theorem execute_point_statfile {float_str : PyStr Qc} (Stats Pops : Type)
    (calc_error : string -> option (Stats * Pops) -> C Qc)
    (read_error_dimensionsfile : string -> C (Stats * Pops)) (args : PointArgs) :
  let name := "n" +:+ str (pt_nCoalescentReps args) +:+ "stats.txt" in
  (forall d, pt_outputDir args = d +:+ "/" ->
     point_statfilename args = Ok (d +:+ "/" +:+ name))
  /\ (forall d c, pt_outputDir args = d +:+ String c EmptyString -> c <> "/"%char ->
        point_statfilename args = Ok (d +:+ String c EmptyString +:+ "/" +:+ name))
  /\ (pt_outputDir args = EmptyString ->
      forall w,
        execute_point Stats Pops calc_error read_error_dimensionsfile args w
        = (Finished (Raise IndexError),
           World (report w)
             (Ext (stdout (outside w)
                   ++ [prefixstring +:+ "generating " +:+ str (pt_nCoalescentReps args)
                       +:+ " simulations from model: " +:+ pt_inputParamFile args])
                (draws (outside w)) (opened (outside w))))).
Proof.
  intros name. split; [|split].
  - intros d Hd. unfold point_statfilename. rewrite Hd.
    rewrite (str_subscript_last d "/"). cbv [rbind].
    rewrite decide_False by (intros Hne; by apply Hne).
    by rewrite string_app_assoc.
  - intros d c Hd Hc. unfold point_statfilename. rewrite Hd.
    rewrite (str_subscript_last d c). cbv [rbind]. rewrite decide_True by done.
    by rewrite !string_app_assoc.
  - intros Hempty w. unfold execute_point, point_statfilename. by rewrite Hempty.
Qed.


(** ** Division by zero in the LD statistics *)

Lemma divides_safely_bind {A B} (m : M A) (k : A -> M B) :
  divides_safely m -> (forall a, divides_safely (k a)) -> divides_safely (mbind m k).
Proof.
  intros Hm Hk w. unfold mbind. specialize (Hm w).
  destruct (m w) as [[[a|e]|] w1]; simpl in *; [apply Hk|congruence|discriminate].
Qed.

Lemma divides_safely_mret {A} (a : A) : divides_safely (mret a).
Proof. by intros w. Qed.
Lemma divides_safely_lift {A} (r : result A) :
  r <> Raise ZeroDivisionError -> divides_safely (lift r).
Proof. intros Hr w. simpl. congruence. Qed.
Lemma divides_safely_write f s : divides_safely (write f s).
Proof. by intros w. Qed.
Lemma divides_safely_global {A} name (b : option A) : divides_safely (global name b).
Proof. intros w. by destruct b. Qed.
Lemma divides_safely_randint rng a b : divides_safely (randint rng a b).
Proof. intros w. unfold randint. by case_decide. Qed.

Lemma divides_safely_bind_global {A B} name (b : option A) (k : A -> M B) :
  (forall v, b = Some v -> divides_safely (k v)) -> divides_safely (mbind (global name b) k).
Proof. intros Hk. destruct b as [v|]; [by apply (Hk v)|done]. Qed.

Lemma divides_safely_for_each {A St} (xs : list A) (body : A -> St -> M St) s :
  (forall x s, divides_safely (body x s)) -> divides_safely (for_each xs body s).
Proof.
  intros Hbody. revert s. induction xs as [|x xs IH]; intros s; simpl.
  - apply divides_safely_mret.
  - by apply divides_safely_bind.
Qed.

Lemma divides_safely_while {St} fuel (cond : St -> M bool) (body : St -> M St) s :
  (forall s, divides_safely (cond s)) -> (forall s, divides_safely (body s)) ->
  divides_safely (while fuel cond body s).
Proof.
  intros Hcond Hbody. revert s. induction fuel as [|fuel IH]; intros s; [by intros w|].
  simpl. apply divides_safely_bind; [done|]. intros []; [|apply divides_safely_mret].
  by apply divides_safely_bind.
Qed.

Lemma subscript_raises {A} (l : list A) i e : subscript l i = Raise e -> e = IndexError.
Proof.
  unfold subscript. cbv zeta. case_decide; [|by intros [= <-]].
  destruct (l !! _); [done|by intros [= <-]].
Qed.

Lemma comprehension_raises {A B} (f : A -> result B) xs e :
  comprehension f xs = Raise e -> exists x, x ∈ xs /\ f x = Raise e.
Proof.
  induction xs as [|x xs IH]; [done|]. simpl.
  destruct (f x) as [y|e'] eqn:Hx; simpl.
  - destruct (comprehension f xs) as [ys|e'] eqn:Hxs; [done|]. simpl. intros [= ->].
    destruct (IH eq_refl) as (x' & Hin & Hx'). exists x'. split; [by right|done].
  - intros [= ->]. exists x. split; [by left|done].
Qed.

Lemma rfold_raises {A St} (xs : list A) (body : A -> St -> result St) s e :
  rfold xs body s = Raise e -> exists x s', body x s' = Raise e.
Proof.
  revert s. induction xs as [|x xs IH]; intros s; [done|]. simpl.
  destruct (body x s) as [s1|e'] eqn:Hx; simpl; [apply IH|].
  intros [= ->]. eauto.
Qed.

Lemma ratios_pseudocount_divides sums counts idx :
  ratios sums (pseudocount counts) idx <> Raise ZeroDivisionError.
Proof.
  intros (u & _ & Hu)%comprehension_raises.
  destruct (subscript sums u) as [a|e] eqn:Ha; simpl in Hu.
  2:{ injection Hu as ->. by apply subscript_raises in Ha. }
  destruct (subscript (pseudocount counts) u) as [c|e] eqn:Hc; simpl in Hu.
  2:{ injection Hu as ->. by apply subscript_raises in Hc. }
  assert (Hnz : c <> 0).
  { assert (Hin : c ∈ pseudocount counts).
    { unfold subscript in Hc. cbv zeta in Hc. case_decide; [|done].
      destruct (pseudocount counts !! _) eqn:Hl; [|done]. injection Hc as ->.
      by eapply list_elem_of_lookup_2. }
    by apply (proj1 (Forall_forall _ _) (pseudocount_nonzero counts)). }
  rewrite truediv_Qc in Hu; [done|]. by rewrite Qc_of_Z_eq_zero.
Qed.

Lemma record_bins_divides table values nbins :
  record_bins table values nbins <> Raise ZeroDivisionError.
Proof.
  intros (ibin & t & Hstep)%rfold_raises.
  destruct (subscript t ibin) as [bin|e] eqn:Hb; simpl in Hstep.
  2:{ injection Hstep as ->. by apply subscript_raises in Hb. }
  destruct (subscript values ibin) as [v|e] eqn:Hv; simpl in Hstep; [done|].
  injection Hstep as ->. by apply subscript_raises in Hv.
Qed.

Create HintDb divides.
#[local] Hint Resolve divides_safely_mret divides_safely_write divides_safely_global
  divides_safely_randint ratios_pseudocount_divides record_bins_divides : divides.

Ltac divides_steps :=
  repeat first
    [ progress intros
    | progress cbv zeta
    | solve [auto with divides]
    | apply divides_safely_bind_global
    | apply divides_safely_bind
    | apply divides_safely_for_each
    | apply divides_safely_while
    | apply divides_safely_lift ].

Section ld_division.
Context (BF : bootstrap_func) (G : globals).
Context {float_str : PyStr Qc} {std_str : PyStr stdval}.
Variable fuel : nat.
Variable R : Z.

Lemma subscript_divides {A} (l : list A) i : subscript l i <> Raise ZeroDivisionError.
Proof. by intros ?%subscript_raises. Qed.

Lemma resample_pairs_divides n1 n2 v d : divides_safely (resample_pairs G n1 n2 v d).
Proof. unfold resample_pairs. divides_steps; apply subscript_divides. Qed.

Lemma std_of_bins_divides t : divides_safely (std_of_bins G t).
Proof. unfold std_of_bins. divides_steps. Qed.

Lemma more_replicates_divides t : divides_safely (more_replicates R t).
Proof. unfold more_replicates. divides_steps. apply subscript_divides. Qed.

Lemma dprime_block_divides :
  (forall values dists, estimatedprimedecay BF values dists <> Raise ZeroDivisionError) ->
  divides_safely (dprime_block BF G fuel R).
Proof.
  intros Hdecay. pose proof resample_pairs_divides. pose proof std_of_bins_divides.
  pose proof more_replicates_divides.
  unfold dprime_block. divides_steps.
Qed.

(** What follows the mean of the r2 decay. *)
Lemma r2_replicates_divide (r2dist : list Qc) :
  (forall values dists, estimater2decay BF values dists <> Raise ZeroDivisionError) ->
  divides_safely
    (write R2Mean (str r2dist +:+ nl) ;>
     nphysdisthist <~ global "nphysdisthist" (g_nphysdisthist G) ;;
     estimates_r2 <~ while fuel (more_replicates R)
       (fun estimates_r2 =>
          rep <~ resample_pairs G "allRegionr2" "allRegionDists"
                   (g_allRegionr2 G) (g_allRegionDists G) ;;
          rephists <~ lift (estimater2decay BF (Values rep.1) (Values rep.2)) ;;
          let repr2sum := rephists.1 in
          let repphysdisthist := pseudocount rephists.2 in
          r2estimate <~ lift (ratios repr2sum repphysdisthist (range (len repr2sum))) ;;
          nphysdisthist <~ global "nphysdisthist" (g_nphysdisthist G) ;;
          lift (record_bins estimates_r2 r2estimate nphysdisthist))
       (empty_bins nphysdisthist) ;;
     r2_se <~ std_of_bins G estimates_r2 ;;
     write R2SE (str r2_se +:+ nl) ;>
     mret (r2dist, estimates_r2, r2_se)).
Proof.
  intros Hdecay. pose proof resample_pairs_divides. pose proof std_of_bins_divides.
  pose proof more_replicates_divides.
  divides_steps.
Qed.
End ld_division.

Lemma mbind_raises {A B} (m : M A) (k : A -> M B) w e w' :
  mbind m k w = (Finished (Raise e), w') ->
  m w = (Finished (Raise e), w')
  \/ exists a w1, m w = (Finished (Ok a), w1) /\ k a w1 = (Finished (Raise e), w').
Proof.
  unfold mbind. destruct (m w) as [[[a|e']|] w1]; [eauto| |done].
  intros [= -> ->]. by left.
Qed.

Lemma global_raises {A} name (b : option A) w e w' :
  global name b w = (Finished (Raise e), w') -> e = NameError name.
Proof. destruct b; [done|]. by intros [= <- _]. Qed.

Lemma lift_raises {A} (r : result A) w e w' :
  lift r w = (Finished (Raise e), w') -> r = Raise e /\ w' = w.
Proof. by intros [= -> ->]. Qed.

(** X18: in the LD statistics a division by zero can only come from the
    mean of the r2 decay (line 195).  When the two decay estimators do
    not raise it themselves, the D' block never ends in
    ZeroDivisionError (its counts get their pseudo-count on both paths),
    and an r2 block that does has divided the sums of the full sample
    by a count of zero, before it wrote anything or drew a number. *)
Theorem division_by_zero_only_in_r2_mean (BF : bootstrap_func) (G : globals)
    {float_str : PyStr Qc} {std_str : PyStr stdval} (fuel : nat) (R : Z) :
  (forall values dists, estimater2decay BF values dists <> Raise ZeroDivisionError) ->
  (forall values dists, estimatedprimedecay BF values dists <> Raise ZeroDivisionError) ->
  divides_safely (dprime_block BF G fuel R)
  /\ (forall w w',
        r2_block BF G fuel R w = (Finished (Raise ZeroDivisionError), w') ->
        w' = w
        /\ exists values dists sums counts,
             g_allRegionr2 G = Some values /\ g_allRegionDists G = Some dists
             /\ estimater2decay BF (Regions values) (Regions dists) = Ok (sums, counts)
             /\ ratios sums counts (range (len sums)) = Raise ZeroDivisionError).
Proof.
  intros Hr2 Hdprime. split; [by apply dprime_block_divides|].
  intros w w' Hrun. unfold r2_block in Hrun.
  apply mbind_raises in Hrun as [Hrun|(values & w1 & Hvalues & Hrun)];
    [by apply global_raises in Hrun|].
  apply global_inv in Hvalues as [Hvalues ->].
  apply mbind_raises in Hrun as [Hrun|(dists & w1 & Hdists & Hrun)];
    [by apply global_raises in Hrun|].
  apply global_inv in Hdists as [Hdists ->].
  apply mbind_raises in Hrun as [Hrun|([sums counts] & w1 & Hhists & Hrun)].
  { apply lift_raises in Hrun as [Hrun _]. by apply Hr2 in Hrun. }
  apply lift_inv in Hhists as [Hhists ->].
  apply mbind_raises in Hrun as [Hrun|(r2dist & w1 & Hmean & Hrun)].
  { apply lift_raises in Hrun as [Hrun ->]. split; [done|].
    by exists values, dists, sums, counts. }
  exfalso. apply lift_inv in Hmean as [_ ->].
  apply (r2_replicates_divide BF G fuel R r2dist Hr2 w).
  exact (f_equal fst Hrun).
Qed.

Lemma division_by_zero_only_in_r2_mean_witness :
  divides_safely (dprime_block (float_str := exact_float_str) (std_str := exact_std_str)
                    (example_functions []) (example_globals counting close_dists) 3 2)
  /\ (forall w w',
        r2_block (float_str := exact_float_str) (std_str := exact_std_str)
          (example_functions []) (example_globals counting close_dists) 3 2 w
        = (Finished (Raise ZeroDivisionError), w') ->
        w' = w
        /\ exists values dists sums counts,
             g_allRegionr2 (example_globals counting close_dists) = Some values
             /\ g_allRegionDists (example_globals counting close_dists) = Some dists
             /\ estimater2decay (example_functions []) (Regions values) (Regions dists)
                = Ok (sums, counts)
             /\ ratios sums counts (range (len sums)) = Raise ZeroDivisionError).
Proof.
  apply (division_by_zero_only_in_r2_mean (example_functions [])
           (example_globals counting close_dists) 3 2); intros values dists; discriminate.
Defined.

(** ** The data that is read and the data that is used *)

Lemma mbind_ext {A B} (m1 m2 : M A) (k1 k2 : A -> M B) w :
  m1 w = m2 w -> (forall a w', k1 a w' = k2 a w') -> mbind m1 k1 w = mbind m2 k2 w.
Proof.
  intros Hm Hk. unfold mbind. rewrite Hm.
  destruct (m2 w) as [[[a|e]|] w1]; [apply Hk|done|done].
Qed.

Lemma call_discard {A} (c1 c2 : C A) w :
  same_effect c1 c2 ->
  (_ <~ call c1 ;; mret tt) w = (_ <~ call c2 ;; mret tt) w.
Proof.
  intros Hsame. unfold mbind, call. specialize (Hsame (outside w)).
  destruct (c1 (outside w)) as [r1 e1], (c2 (outside w)) as [r2 e2].
  simpl in Hsame. destruct Hsame as [-> Hr].
  destruct r1, r2; try done. by subst.
Qed.

(** X19: what [readFreqsFile] returns is never used.  Two readers that
    answer for the same files give the same run of [execute_bootstrap]:
    the same report, the same console, the same outcome, whatever data
    they hand over.  (For the assignment of line 121 no later line reads
    [allpi], [allnderiv], [allnanc], [nregions] or [seqlens].) *)
Theorem frequency_file_content_is_not_used (BF : bootstrap_func) (G : globals)
    {float_str : PyStr Qc} {std_str : PyStr stdval} (fuel : nat)
    (reader1 reader2 : string -> C freqs_file) (args : Args) (w : world) :
  (forall name, same_effect (reader1 name) (reader2 name)) ->
  execute_bootstrap (with_freqs_reader reader1 BF) G fuel args w
  = execute_bootstrap (with_freqs_reader reader2 BF) G fuel args w.
Proof.
  intros Hsame. unfold execute_bootstrap. cbv zeta.
  apply mbind_ext; [done|]. intros _ w1.
  apply mbind_ext; [done|]. intros _ w2.
  apply mbind_ext; [|done].
  destruct (in_freqs args) as [s|]; [|done]. simpl.
  unfold freq_section. cbv zeta. apply for_each_ext. intros ipop [] w3.
  unfold freq_population.
  apply mbind_ext; [done|]. intros i w4.
  apply mbind_ext; [done|]. intros inputfilename w5.
  apply mbind_ext; [done|]. intros _ w6.
  apply mbind_ext; [done|]. intros _ w7.
  apply mbind_ext; [done|]. intros exists_ w8.
  apply mbind_ext; [|done].
  destruct exists_; [|done]. by apply call_discard.
Qed.

Lemma frequency_file_content_is_not_used_witness :
  execute_bootstrap (float_str := exact_float_str) (std_str := exact_std_str)
    (with_freqs_reader reads_nothing (example_functions ["pop0.freqs"]))
    (example_globals counting spread_dists) 3
    (MkArgs 2 (Some "pop0.freqs") None None "out") fresh
  = execute_bootstrap (float_str := exact_float_str) (std_str := exact_std_str)
      (with_freqs_reader reads_one_region (example_functions ["pop0.freqs"]))
      (example_globals counting spread_dists) 3
      (MkArgs 2 (Some "pop0.freqs") None None "out") fresh.
Proof.
  apply (frequency_file_content_is_not_used (example_functions ["pop0.freqs"])
           (example_globals counting spread_dists) 3 reads_nothing reads_one_region).
  intros name e. split; reflexivity.
Defined.

(** ** No replicates *)

Lemma range_nonpos n : n <= 0 -> range n = [].
Proof. intros Hn. unfold range, range2. by rewrite seqZ_nil by lia. Qed.

Lemma std_of_bins_acc_outside G tables acc w ses w' :
  for_each tables
    (fun x acc => _ <~ global "np" (g_np G) ;; mret (acc ++ [np_std x])) acc w
  = (Finished (Ok ses), w') ->
  w' = w.
Proof.
  revert w acc. induction tables as [|x tables IH]; intros w acc Hrun; simpl in Hrun.
  - by apply mret_inv in Hrun as [_ ->].
  - apply mbind_inv in Hrun as (acc1 & w1 & Hstep & Hrun). inv_run. by eapply IH.
Qed.

Lemma std_of_bins_outside G tables w ses w' :
  std_of_bins G tables w = (Finished (Ok ses), w') -> w' = w.
Proof. apply std_of_bins_acc_outside. Qed.

Lemma no_replicates_while fuel R nbins
    (body : list (list Qc) -> M (list (list Qc))) w table w' :
  R <= 0 ->
  while fuel (more_replicates R) body (empty_bins nbins) w = (Finished (Ok table), w') ->
  table = empty_bins nbins /\ w' = w.
Proof.
  intros HR Hrun. destruct fuel as [|fuel]; [done|]. simpl in Hrun.
  apply mbind_inv in Hrun as (b & w1 & Hcond & Hrun).
  pose proof Hcond as (first & Hfirst & ->)%more_replicates_inv.
  unfold more_replicates in Hcond. inv_run.
  apply lookup_replicate in Hfirst as [-> _].
  rewrite bool_decide_eq_false_2 in Hrun by (unfold len; simpl; lia).
  by apply mret_inv in Hrun as [-> ->].
Qed.

Lemma np_std_empty_bins nbins : Forall (fun se => se = NaN) (map np_std (empty_bins nbins)).
Proof. apply Forall_fmap, Forall_replicate. done. Qed.

Lemma empty_bins_empty nbins : Forall (fun bin : list Qc => bin = []) (empty_bins nbins).
Proof. by apply Forall_replicate. Qed.

(** X20: a replicate count of zero (or below) is accepted.  The means
    are computed and written as for any other count, no number is drawn,
    no replicate value is recorded, and every standard error that is
    reported is nan, the standard deviation of no value. *)
Theorem no_replicates_no_standard_error (BF : bootstrap_func) (G : globals)
    {float_str : PyStr Qc} {std_str : PyStr stdval} (fuel : nat) (R : Z)
    (st : statistic) (w : world) table ses w' :
  R <= 0 ->
  replicates_and_se BF G fuel R st w = (Finished (Ok (table, ses)), w') ->
  Forall (fun bin => bin = []) table
  /\ Forall (fun se => se = NaN) ses
  /\ outside w' = outside w.
Proof.
  intros HR Hrun. destruct st; simpl in Hrun.
  - unfold pi_block in Hrun. rewrite (range_nonpos R HR) in Hrun. simpl in Hrun.
    inv_run. simpl. by repeat constructor.
  - unfold sfs_block in Hrun. rewrite (range_nonpos R HR) in Hrun. simpl in Hrun.
    inv_run. simpl in *.
    repeat match goal with H : std_of_bins _ _ _ = _ |- _ =>
      pose proof (std_of_bins_outside _ _ _ _ _ H); apply std_of_bins_inv in H end.
    subst. simpl. split; [apply empty_bins_empty|]. split; [apply np_std_empty_bins|done].
  - unfold sfs_block in Hrun. rewrite (range_nonpos R HR) in Hrun. simpl in Hrun.
    inv_run. simpl in *.
    repeat match goal with H : std_of_bins _ _ _ = _ |- _ =>
      pose proof (std_of_bins_outside _ _ _ _ _ H); apply std_of_bins_inv in H end.
    subst. simpl. split; [apply empty_bins_empty|]. split; [apply np_std_empty_bins|done].
  - unfold r2_block in Hrun. inv_run. simpl in *.
    match goal with H : while _ _ _ _ _ = _ |- _ =>
      apply no_replicates_while in H as [-> ->]; [|done] end.
    match goal with H : std_of_bins _ _ _ = _ |- _ =>
      pose proof (std_of_bins_outside _ _ _ _ _ H); apply std_of_bins_inv in H end.
    subst. simpl. split; [apply empty_bins_empty|]. split; [apply np_std_empty_bins|done].
  - unfold dprime_block in Hrun. inv_run. simpl in *.
    match goal with H : while _ _ _ _ _ = _ |- _ =>
      apply no_replicates_while in H as [-> ->]; [|done] end.
    match goal with H : std_of_bins _ _ _ = _ |- _ =>
      pose proof (std_of_bins_outside _ _ _ _ _ H); apply std_of_bins_inv in H end.
    subst. simpl. split; [apply empty_bins_empty|]. split; [apply np_std_empty_bins|done].
Qed.

Lemma no_replicates_no_standard_error_witness :
  Forall (fun bin : list Qc => bin = []) [[]; []]
  /\ Forall (fun se => se = NaN) [NaN; NaN]
  /\ outside (World [(DprimeMean, "[1/2, 1/4]" +:+ nl); (DprimeSE, "[nan, nan]" +:+ nl)]
                (Ext [] 0 []))
     = outside fresh.
Proof.
  apply (no_replicates_no_standard_error (float_str := exact_float_str)
           (std_str := exact_std_str) (example_functions [])
           (example_globals counting spread_dists) 3 0 Dprime fresh).
  - lia.
  - vm_compute. reflexivity.
Defined.

(** ** The spectrum of no site *)

(** X21: the proportions of the frequency spectrum have no guard.  When
    the histogram of the full sample has a bin and counts no site at
    all, [execute_bootstrap] stops at line 146 with ZeroDivisionError,
    before any line of the spectrum is written. *)
Theorem spectrum_without_sites (BF : bootstrap_func) (G : globals)
    {float_str : PyStr Qc} {std_str : PyStr stdval} (R : Z) (w : world)
    der anc nhist c mafhist anchist :
  g_allRegionDER G = Some der -> g_allRegionANC G = Some anc -> g_nhist G = Some nhist ->
  estimateFreqSpectrum BF (Regions der) (Regions anc) nhist = Ok (c :: mafhist, anchist) ->
  zsum (c :: mafhist) = 0 ->
  sfs_block BF G R w = (Finished (Raise ZeroDivisionError), w).
Proof.
  intros Hder Hanc Hnhist Hhist Hzero. unfold sfs_block.
  rewrite Hder, Hanc, Hnhist. cbv [global mbind mret lift]. rewrite Hhist. simpl.
  unfold sfs_proportions. by rewrite Hzero.
Qed.

Lemma spectrum_without_sites_witness :
  sfs_block (float_str := exact_float_str) (std_str := exact_std_str)
    (example_functions []) empty_globals 2 fresh
  = (Finished (Raise ZeroDivisionError), fresh).
Proof.
  apply (spectrum_without_sites (example_functions []) empty_globals 2 fresh
           [] [] 2 0 [0] [Q2Qc 0; Q2Qc 0]); reflexivity.
Defined.

(** ** What a resample is made of *)

Lemma randint_inv rng a b w i w' :
  randint rng a b w = (Finished (Ok i), w') -> a <= i <= b.
Proof.
  unfold randint. case_decide; [done|]. intros [= <- _].
  pose proof (Z.mod_pos_bound (rng (draws (outside w))) (b - a + 1)). lia.
Qed.

Lemma paired_snoc {A B} (pop1 : list A) (pop2 : list B) rep (index : Z) x y :
  paired pop1 pop2 rep -> 0 <= index ->
  subscript pop1 index = Ok x -> subscript pop2 index = Ok y ->
  paired pop1 pop2 (rep.1 ++ [x], rep.2 ++ [y]).
Proof.
  intros [Hlen Hall] Hindex Hx%subscript_inv Hy%subscript_inv; try done.
  split; simpl.
  - rewrite !length_app. simpl. lia.
  - rewrite zip_with_app by done. apply Forall_app. split; [done|].
    repeat constructor. apply list_elem_of_lookup. exists (Z.to_nat index).
    by apply lookup_zip_Some.
Qed.

Lemma paired_nil {A B} (pop1 : list A) (pop2 : list B) : paired pop1 pop2 ([], []).
Proof. split; [done|constructor]. Qed.

Section paired_resamples.
Variable G : globals.

Lemma resample_regions_paired pis lens w rep w' :
  g_allRegionPI G = Some pis -> g_allseqlens G = Some lens ->
  resample_regions G w = (Finished (Ok rep), w') -> paired pis lens rep.
Proof.
  intros Hpis Hlens Hrun. unfold resample_regions in Hrun. inv_run.
  match goal with H : for_each _ _ _ _ = _ |- _ =>
    apply (for_each_invariant (fun _ rep => paired pis lens rep)) in H; [done| |] end.
  - apply paired_nil.
  - intros n k s w1 s1 w2 Hs Hstep. inv_run. same_binding.
    match goal with H : randint _ _ _ _ = _ |- _ => apply randint_inv in H end.
    eapply paired_snoc; eauto. lia.
Qed.

Lemma resample_sites_paired der anc w rep w' :
  g_allRegionDER G = Some der -> g_allRegionANC G = Some anc ->
  resample_sites G w = (Finished (Ok rep), w') ->
  paired (flattenList der) (flattenList anc) rep.
Proof.
  intros Hder Hanc Hrun. unfold resample_sites in Hrun. inv_run. same_binding.
  match goal with H : for_each _ _ _ _ = _ |- _ =>
    apply (for_each_invariant
             (fun _ rep => paired (flattenList der) (flattenList anc) rep)) in H;
      [done| |] end.
  - apply paired_nil.
  - intros n k s w1 s1 w2 Hs Hstep. inv_run. same_binding.
    match goal with H : randint _ _ _ _ = _ |- _ => apply randint_inv in H end.
    eapply paired_snoc; eauto. lia.
Qed.

Lemma resample_pairs_paired n1 n2 values dists w rep w' :
  resample_pairs G n1 n2 (Some values) (Some dists) w = (Finished (Ok rep), w') ->
  paired (flattenList values) (flattenList dists) rep.
Proof.
  intros Hrun. unfold resample_pairs in Hrun. inv_run. same_binding.
  match goal with H : for_each _ _ _ _ = _ |- _ =>
    apply (for_each_invariant
             (fun _ rep => paired (flattenList values) (flattenList dists) rep)) in H;
      [done| |] end.
  - apply paired_nil.
  - intros n k s w1 s1 w2 Hs Hstep. inv_run. same_binding.
    match goal with H : randint _ _ _ _ = _ |- _ => apply randint_inv in H end.
    eapply paired_snoc; eauto. lia.
Qed.
End paired_resamples.

(** X22: a resample keeps what belongs together.  Both halves of a
    pass are taken at the same random index: every resampled diversity
    comes with the length of its own region, every derived count with
    the ancestral count of its own site, every LD value with the
    distance of its own site pair. *)
Theorem resample_keeps_pairs_together (G : globals) (rng : nat -> Z) (w : world) :
  g_random G = Some rng ->
  (forall pis lens,
     g_allRegionPI G = Some pis -> g_allseqlens G = Some lens ->
     g_totalregions G = Some (len pis) -> length lens = length pis ->
     exists rep, resample_regions G w = (Finished (Ok rep), after_draws (length pis) w)
                 /\ paired pis lens rep)
  /\ (forall der anc,
        g_allRegionDER G = Some der -> g_allRegionANC G = Some anc ->
        g_nsnps G = Some (len (flattenList der)) ->
        length (flattenList anc) = length (flattenList der) ->
        exists rep, resample_sites G w
                    = (Finished (Ok rep), after_draws (length (flattenList der)) w)
                    /\ paired (flattenList der) (flattenList anc) rep)
  /\ (forall name_values name_dists values dists,
        length (flattenList dists) = length (flattenList values) ->
        exists rep, resample_pairs G name_values name_dists (Some values) (Some dists) w
                    = (Finished (Ok rep), after_draws (length (flattenList values)) w)
                    /\ paired (flattenList values) (flattenList dists) rep).
Proof.
  intros Hrng. split; [|split].
  - intros pis lens Hpis Hlens Htotal Hlen.
    destruct (resample_regions_run G rng pis lens w) as (rep & Hrun & _); try done.
    exists rep. split; [done|]. by eapply resample_regions_paired.
  - intros der anc Hder Hanc Hnsnps Hlen.
    destruct (resample_sites_run G rng der anc w) as (rep & Hrun & _); try done.
    exists rep. split; [done|]. by eapply resample_sites_paired.
  - intros n1 n2 values dists Hlen.
    destruct (resample_pairs_run G rng n1 n2 values dists w) as (rep & Hrun & _); try done.
    exists rep. split; [done|]. by eapply resample_pairs_paired.
Qed.

Lemma resample_keeps_pairs_together_witness :
  let G := example_globals pairing spread_dists in
  (forall pis lens,
     g_allRegionPI G = Some pis -> g_allseqlens G = Some lens ->
     g_totalregions G = Some (len pis) -> length lens = length pis ->
     exists rep, resample_regions G fresh = (Finished (Ok rep), after_draws (length pis) fresh)
                 /\ paired pis lens rep)
  /\ (forall der anc,
        g_allRegionDER G = Some der -> g_allRegionANC G = Some anc ->
        g_nsnps G = Some (len (flattenList der)) ->
        length (flattenList anc) = length (flattenList der) ->
        exists rep, resample_sites G fresh
                    = (Finished (Ok rep), after_draws (length (flattenList der)) fresh)
                    /\ paired (flattenList der) (flattenList anc) rep)
  /\ (forall name_values name_dists values dists,
        length (flattenList dists) = length (flattenList values) ->
        exists rep, resample_pairs G name_values name_dists (Some values) (Some dists) fresh
                    = (Finished (Ok rep), after_draws (length (flattenList values)) fresh)
                    /\ paired (flattenList values) (flattenList dists) rep).
Proof.
  apply (resample_keeps_pairs_together (example_globals pairing spread_dists) pairing fresh).
  reflexivity.
Defined.

Lemma execute_bootstrap_halts_witness :
  halts (execute_bootstrap (float_str := exact_float_str) (std_str := exact_std_str)
           (example_functions ["ld.txt"]) (example_globals counting spread_dists) 3
           (MkArgs 2 None (Some "pop0.ld") None "out")).
Proof.
  apply (execute_bootstrap_halts (example_functions ["ld.txt"])
           (example_globals counting spread_dists) 3
           (MkArgs 2 None (Some "pop0.ld") None "out")).
  simpl. lia.
Defined.


(** ** cms/tools/selscan.py *)

Lemma zsum_replicate (n : nat) (v : Z) : zsum (replicate n v) = Z.of_nat n * v.
Proof. induction n as [|n IH]; [done|]. simpl replicate. simpl zsum. rewrite IH. lia. Qed.

Lemma Qcmult_le_compat_l' (x y z : Qc) : (x <= y)%Qc -> (0 <= z)%Qc -> (z * x <= z * y)%Qc.
Proof. intros Hxy Hz. rewrite !(Qcmult_comm z). by apply Qcmult_le_compat_r. Qed.

(** X24: [_moving_avg] weighs the whole part of the previous average
    [N-1] times against the new value.  For a window of at least one the
    result is [((N-1)*int(prevAvg) + x)/N] and lies between
    [int(prevAvg)] and [x]; a window of 0 raises ZeroDivisionError, and
    for a negative window the previous average is dropped and [x/N]
    returned. *)
Theorem moving_avg_between (x prevAvg : Qc) (N : Z) :
  let whole := Qc_of_Z (int_of_float prevAvg) in
  (N = 0 -> _moving_avg x prevAvg N = Raise ZeroDivisionError)
  /\ (N < 0 -> _moving_avg x prevAvg N = Ok (x / Qc_of_Z N)%Qc)
  /\ (1 <= N ->
      exists avg,
        _moving_avg x prevAvg N = Ok avg
        /\ (avg * Qc_of_Z N = Qc_of_Z (N - 1) * whole + x)%Qc
        /\ ((whole <= x)%Qc -> (whole <= avg)%Qc /\ (avg <= x)%Qc)
        /\ ((x <= whole)%Qc -> (x <= avg)%Qc /\ (avg <= whole)%Qc)).
Proof.
  intros whole. unfold _moving_avg. split; [|split].
  - by intros ->.
  - intros HN. replace (Z.to_nat (N - 1)) with 0%nat by lia. simpl replicate.
    rewrite truediv_Qc by (rewrite Qc_of_Z_eq_zero; lia).
    f_equal. change (zsum []) with 0. simpl fadd. simpl float_of_int.
    by rewrite Z2Qc_inj_0, Qcplus_0_l.
  - intros HN.
    assert (HNz : Qc_of_Z N <> Q2Qc 0) by (rewrite Qc_of_Z_eq_zero; lia).
    assert (HNpos : (0 < Qc_of_Z N)%Qc).
    { rewrite <-Z2Qc_inj_0. apply (proj1 (Z2Qc_inj_lt _ _)). lia. }
    assert (Hk : (0 <= Qc_of_Z (N - 1))%Qc).
    { rewrite <-Z2Qc_inj_0. apply (proj1 (Z2Qc_inj_le _ _)). lia. }
    assert (HN1 : Qc_of_Z N = (Qc_of_Z (N - 1) + 1)%Qc).
    { rewrite <-Z2Qc_inj_1, <-Z2Qc_inj_add. f_equal. lia. }
    rewrite truediv_Qc by done. eexists. split; [reflexivity|].
    rewrite zsum_replicate, Z2Nat.id by lia.
    simpl fadd. simpl float_of_int. rewrite Z2Qc_inj_mul. fold whole.
    set (k := Qc_of_Z (N - 1)) in *. set (n := Qc_of_Z N) in *.
    assert (Havg : ((k * whole + x) / n * n = k * whole + x)%Qc) by (field; done).
    split; [done|]. split.
    + intros Hle. split; apply (Qcmult_lt_0_le_reg_r _ _ n HNpos); rewrite Havg, HN1.
      * replace (whole * (k + 1))%Qc with (k * whole + whole)%Qc by ring.
        apply Qcplus_le_compat; [apply Qcle_refl|done].
      * replace (x * (k + 1))%Qc with (k * x + x)%Qc by ring.
        apply Qcplus_le_compat; [|apply Qcle_refl]. by apply Qcmult_le_compat_l'.
    + intros Hle. split; apply (Qcmult_lt_0_le_reg_r _ _ n HNpos); rewrite Havg, HN1.
      * replace (x * (k + 1))%Qc with (k * x + x)%Qc by ring.
        apply Qcplus_le_compat; [|apply Qcle_refl]. by apply Qcmult_le_compat_l'.
      * replace (whole * (k + 1))%Qc with (k * whole + whole)%Qc by ring.
        apply Qcplus_le_compat; [apply Qcle_refl|done].
Qed.

(** X25: the binary that [SelscanTool] looks for.  The full path is the
    directory path followed by [selscan] (and [.exe] for ["win"]), and
    [get_os_type] never answers ["win"]: on Darwin and Linux the binary
    is [bin/osx/selscan] and [bin/linux/selscan], on any other system
    [get_os_type] gives [None] and the path is [bin/selscan], without a
    directory of the platform. *)
Theorem selscan_binary_path (os_type : option string) (uname0 : string) :
  get_selscan_binary_path os_type true
  = get_selscan_binary_path os_type false +:+ "selscan"
    +:+ (if decide (os_type = Some "win") then ".exe" else EmptyString)
  /\ get_selscan_binary_path (get_os_type uname0) true
     = (if decide (uname0 = "Darwin") then "bin/osx/selscan"
        else if decide (uname0 = "Linux") then "bin/linux/selscan"
        else "bin/selscan").
Proof.
  split.
  - unfold get_selscan_binary_path. cbv zeta.
    repeat case_decide; simplify_eq; reflexivity.
  - unfold get_os_type. repeat case_decide; simplify_eq; reflexivity.
Qed.

(** X26: the three scans refuse a thread count of zero or below with a
    NameError: [argparse], whose ArgumentTypeError they mean to raise,
    is not imported by the module.  The tool was looked up by then and
    no process is started. *)
Theorem selscan_threads_not_positive
    (install_and_get_path : IO string) (abspath : string -> string)
    (format_6 : Qc -> string) (log_debug : string -> IO unit)
    (check_output : nat -> list string -> gmap string node -> bool * gmap string node)
    (path : string) (s s1 : os) (threads : Z) :
  threads <= 0 ->
  install_and_get_path s = (Returned path, s1) ->
  (forall locus_id tped_file out_file window cutoff max_extend maf gap_scale,
     execute_ehh install_and_get_path abspath format_6 log_debug check_output
       locus_id tped_file out_file window cutoff max_extend threads maf gap_scale s
     = (Threw (Builtin (NameError "argparse")), s1))
  /\ (forall tped_file out_file maf gap_scale skip_low_freq trunc_ok,
        execute_ihs install_and_get_path format_6 log_debug check_output
          tped_file out_file threads maf gap_scale skip_low_freq trunc_ok s
        = (Threw (Builtin (NameError "argparse")), s1))
  /\ (forall tped_file tped_ref_file out_file maf gap_scale trunc_ok,
        execute_xpehh install_and_get_path format_6 log_debug check_output
          tped_file tped_ref_file out_file threads maf gap_scale trunc_ok s
        = (Threw (Builtin (NameError "argparse")), s1)).
Proof.
  intros Hthreads Hpath.
  assert (Hopt : forall toolCmd (k : list arg -> IO unit),
            io_bind (threads_option toolCmd threads) k s1
            = (Threw (Builtin (NameError "argparse")), s1)).
  { intros toolCmd k. unfold threads_option. by rewrite decide_False by lia. }
  repeat split; intros; unfold execute_ehh, execute_ihs, execute_xpehh;
    cbv zeta; rewrite (io_bind_ok _ _ _ _ _ Hpath); apply Hopt.
Qed.

Lemma selscan_threads_not_positive_witness :
  (forall locus_id tped_file out_file window cutoff max_extend maf gap_scale,
     execute_ehh installed_tool (fun path => path) exact_text no_log never_works
       locus_id tped_file out_file window cutoff max_extend 0 maf gap_scale example_os
     = (Threw (Builtin (NameError "argparse")), example_os))
  /\ (forall tped_file out_file maf gap_scale skip_low_freq trunc_ok,
        execute_ihs installed_tool exact_text no_log never_works
          tped_file out_file 0 maf gap_scale skip_low_freq trunc_ok example_os
        = (Threw (Builtin (NameError "argparse")), example_os))
  /\ (forall tped_file tped_ref_file out_file maf gap_scale trunc_ok,
        execute_xpehh installed_tool exact_text no_log never_works
          tped_file tped_ref_file out_file 0 maf gap_scale trunc_ok example_os
        = (Threw (Builtin (NameError "argparse")), example_os)).
Proof.
  apply (selscan_threads_not_positive installed_tool (fun path => path) exact_text no_log
           never_works "bin/linux/selscan" example_os example_os 0).
  - lia.
  - reflexivity.
Defined.
